(** * Random-Data-Generator: the schema extractor, the record synthesizer,
      the archive builder and the [/generate] handler of [app.py]

    The development embeds [app.py] function by function.  Python values
    are an inductive type, exceptions are an error result, and the
    handler's effects (file system, random source, clock, standard output)
    are threaded through an explicit [World]. *)

From Stdlib Require Import List String Ascii ZArith Bool Lia Arith.
From Stdlib Require Import Floats.SpecFloat.
From Stdlib Require DecimalString.
Import ListNotations.
Local Open Scope string_scope.
Local Open Scope Z_scope.
#[local] Set Warnings "-register-all".

(** ** Python values *)

Module Py.

(** A [str] is held as the bytes of its UTF-8 encoding.  A JSON number is
    an [int] or a [float]; a float is kept in the sign, mantissa and
    exponent form of [spec_float].  A dict is the list of its items in
    insertion order; a lookup takes the first item whose key is equal. *)
Inductive pyval : Type :=
| PNone
| PBool (b : bool)
| PInt (n : Z)
| PFloat (f : spec_float)
| PStr (s : string)
| PList (l : list pyval)
| PDict (d : list (pyval * pyval)).

(** A [dict] keeps its items in insertion order. *)
Definition dict : Type := list (pyval * pyval).

(** The exceptions the program can meet.  [EnvError] stands for what the
    environment raises ([OSError], [zipfile.BadZipFile], ...). *)
Inductive exn : Type :=
| AttributeError (ty attr : string)
| UnhashableType (ty : string)
| JoinArgument (ty : string)
| NameError (name : string)
| JSONDecodeError
| ValueError (msg : string)
| EnvError (tag : string).

Inductive result (A : Type) : Type :=
| Ok (a : A)
| Raise (e : exn).
Arguments Ok {A} a.
Arguments Raise {A} e.

Definition rbind {A B} (r : result A) (k : A -> result B) : result B :=
  match r with
  | Ok a => k a
  | Raise e => Raise e
  end.

Notation "'let?' x ':=' r 'in' k" := (rbind r (fun x => k))
  (at level 10, x pattern, r at level 100, k at level 200).

(** [for x in l: acc = f(acc, x)], stopping at the first exception. *)
Fixpoint rfold {A B} (f : A -> B -> result A) (l : list B) (acc : A) : result A :=
  match l with
  | [] => Ok acc
  | x :: l' => let? acc' := f acc x in rfold f l' acc'
  end.

Definition type_name (v : pyval) : string :=
  match v with
  | PNone => "NoneType"
  | PBool _ => "bool"
  | PInt _ => "int"
  | PFloat _ => "float"
  | PStr _ => "str"
  | PList _ => "list"
  | PDict _ => "dict"
  end.

(** [bool(v)] *)
Definition truthy (v : pyval) : bool :=
  match v with
  | PNone => false
  | PBool b => b
  | PInt n => negb (n =? 0)
  | PFloat (S754_zero _) => false
  | PFloat _ => true
  | PStr s => negb (s =? "")%string
  | PList l => match l with [] => false | _ => true end
  | PDict d => match d with [] => false | _ => true end
  end.

Definition hashable (v : pyval) : bool :=
  match v with
  | PList _ | PDict _ => false
  | _ => true
  end.

(** *** Equality of dict keys

    [True == 1 == 1.0]: numbers compare by value across [bool], [int] and
    [float].  A number is [m * 2^e]. *)
Definition num_of (v : pyval) : option (Z * Z) :=
  match v with
  | PBool b => Some (if b then 1 else 0, 0)
  | PInt n => Some (n, 0)
  | PFloat (S754_zero _) => Some (0, 0)
  | PFloat (S754_finite s m e) => Some (if s then Z.neg m else Z.pos m, e)
  | _ => None
  end.

Definition dyadic_eqb (x y : Z * Z) : bool :=
  let '(m1, e1) := x in
  let '(m2, e2) := y in
  let e := Z.min e1 e2 in
  m1 * 2 ^ (e1 - e) =? m2 * 2 ^ (e2 - e).

(** [stored == key] as the dict probes it.  The only NaN a parsed document
    holds is the [json] module's one NaN object, which a dict finds by
    identity. *)
Definition key_eqb (stored key : pyval) : bool :=
  match num_of stored, num_of key with
  | Some x, Some y => dyadic_eqb x y
  | None, None =>
      match stored, key with
      | PNone, PNone => true
      | PStr s, PStr t => (s =? t)%string
      | PFloat (S754_infinity s), PFloat (S754_infinity t) => Bool.eqb s t
      | PFloat S754_nan, PFloat S754_nan => true
      | _, _ => false
      end
  | _, _ => false
  end.

(** *** dict operations *)

(** [d.get(k)] with [None] for a missing key *)
Fixpoint dict_get (d : dict) (k : pyval) : option pyval :=
  match d with
  | [] => None
  | (k', v) :: d' => if key_eqb k' k then Some v else dict_get d' k
  end.

(** [d.get(k, default)] *)
Definition get_default (d : dict) (k default : pyval) : pyval :=
  match dict_get d k with
  | Some v => v
  | None => default
  end.

(** The store of [d[k] = v] for a hashable [k]: an existing key keeps its
    place and its key object, a new key goes last. *)
Fixpoint set_item (d : dict) (k v : pyval) : dict :=
  match d with
  | [] => [(k, v)]
  | (k', v') :: d' =>
      if key_eqb k' k then (k', v) :: d' else (k', v') :: set_item d' k v
  end.

(** [d[k] = v] *)
Definition dict_set (d : dict) (k v : pyval) : result dict :=
  if hashable k then Ok (set_item d k v)
  else Raise (UnhashableType (type_name k)).

(** [v.get(k, default)] on any value: only a dict has [get]. *)
Definition py_get (v : pyval) (k : string) (default : pyval) : result pyval :=
  match v with
  | PDict d => Ok (get_default d (PStr k) default)
  | _ => Raise (AttributeError (type_name v) "get")
  end.

(** *** str methods *)

Definition is_lower_ascii (c : ascii) : bool :=
  let n := nat_of_ascii c in (97 <=? n)%nat && (n <=? 122)%nat.

Definition is_upper_ascii (c : ascii) : bool :=
  let n := nat_of_ascii c in (65 <=? n)%nat && (n <=? 90)%nat.

Definition upper_ascii (c : ascii) : ascii :=
  if is_lower_ascii c then ascii_of_nat (nat_of_ascii c - 32) else c.

Definition lower_ascii (c : ascii) : ascii :=
  if is_upper_ascii c then ascii_of_nat (nat_of_ascii c + 32) else c.

(** The upper-casing of U+FB00 .. U+FB06, from the third byte of the
    encoding EF AC 8x. *)
Definition ligature_upper (c : ascii) : option string :=
  match nat_of_ascii c with
  | 128%nat => Some "FF"
  | 129%nat => Some "FI"
  | 130%nat => Some "FL"
  | 131%nat => Some "FFI"
  | 132%nat => Some "FFL"
  | 133%nat => Some "ST"
  | 134%nat => Some "ST"
  | _ => None
  end.

(** [s.upper()].  Besides the ASCII letters, ten code points upper-case
    to ASCII text: U+00DF (SS), U+0131 (I), U+017F (S) and the ligatures
    U+FB00 .. U+FB06.  The upper-casing of every other code point outside
    ASCII keeps a code point outside ASCII; its bytes are left as they
    are, which decides every comparison with an ASCII text the same way. *)
Fixpoint upper (s : string) : string :=
  match s with
  | EmptyString => EmptyString
  | String c r =>
      match nat_of_ascii c, r with
      | 195%nat, String c2 r2 =>
          if (nat_of_ascii c2 =? 159)%nat then "SS" ++ upper r2
          else String c (upper r)
      | 196%nat, String c2 r2 =>
          if (nat_of_ascii c2 =? 177)%nat then String "I" (upper r2)
          else String c (upper r)
      | 197%nat, String c2 r2 =>
          if (nat_of_ascii c2 =? 191)%nat then String "S" (upper r2)
          else String c (upper r)
      | 239%nat, String c2 (String c3 r3) =>
          if (nat_of_ascii c2 =? 172)%nat then
            match ligature_upper c3 with
            | Some u => u ++ upper r3
            | None => String c (upper r)
            end
          else String c (upper r)
      | _, _ => String (upper_ascii c) (upper r)
      end
  end.

(** [s.lower()].  U+212A (KELVIN SIGN, E2 84 AA) is the one code point
    outside ASCII that lower-cases to ASCII text. *)
Fixpoint lower (s : string) : string :=
  match s with
  | EmptyString => EmptyString
  | String c r =>
      match nat_of_ascii c, r with
      | 226%nat, String c2 (String c3 r3) =>
          if (nat_of_ascii c2 =? 132)%nat && (nat_of_ascii c3 =? 170)%nat
          then String "k" (lower r3)
          else String c (lower r)
      | _, _ => String (lower_ascii c) (lower r)
      end
  end.

(** [v.upper()] and [v.lower()] on any value: only a str has them. *)
Definition py_upper (v : pyval) : result string :=
  match v with
  | PStr s => Ok (upper s)
  | _ => Raise (AttributeError (type_name v) "upper")
  end.

Definition py_lower (v : pyval) : result string :=
  match v with
  | PStr s => Ok (lower s)
  | _ => Raise (AttributeError (type_name v) "lower")
  end.

(** [v == "literal"] *)
Definition is_str (v : pyval) (literal : string) : bool :=
  match v with
  | PStr s => (s =? literal)%string
  | _ => false
  end.

(** [s.endswith(suffix)] *)
Definition endswith (s suffix : string) : bool :=
  let n := String.length s in
  let m := String.length suffix in
  (m <=? n)%nat && (substring (n - m) m s =? suffix)%string.

(** [str(n)] for an int *)
Definition str_of_Z (n : Z) : string :=
  DecimalString.NilZero.string_of_int (Z.to_int n).

End Py.

(** ** [extract_schema_from_json] *)

Module Extract.
Import Py.

Definition datatype_mapping : dict :=
  [ (PStr "STRING", PStr "string");
    (PStr "INTEGER", PStr "integer");
    (PStr "INT", PStr "integer");
    (PStr "TIMESTAMP", PStr "timestamp");
    (PStr "DATETIME", PStr "timestamp") ].

(** Lines 43-46.  Python evaluates the first argument of the outer [get],
    then the inner [get] that is its second argument: both [upper] calls
    run whatever the first lookup finds. *)
Definition resolve_datatype (attr : pyval) : result pyval :=
  let? dt := py_get attr "datatype" (PStr "") in
  let? key1 := py_upper dt in
  let? ldt := py_get attr "logicalDatatype" (PStr "") in
  let? key2 := py_upper ldt in
  Ok (get_default datatype_mapping (PStr key1)
        (get_default datatype_mapping (PStr key2) (PStr "string"))).

(** The body of the loop of lines 39-50 on [schema[table_name]]. *)
Definition add_attribute (fields : dict) (attr : pyval) : result dict :=
  let? attr_name := py_get attr "name" (PStr "") in
  let? datatype := resolve_datatype attr in
  if truthy attr_name then dict_set fields attr_name datatype
  else Ok fields.

(** Lines 38-50: the attributes are read when the key is there and holds
    a list. *)
Definition process_attributes (json_data : dict) : result dict :=
  match dict_get json_data (PStr "attributes") with
  | Some (PList attrs) => rfold add_attribute attrs []
  | _ => Ok []
  end.

(** Lines 53-57. *)
Definition finish_fields (fields : dict) : dict :=
  let fields1 :=
    match fields with
    | [] => set_item fields (PStr "key") (PStr "string")
    | _ => fields
    end in
  set_item fields1 (PStr "operation") (PStr "operation").

Definition extract_schema_from_json (json_data : pyval)
  : result (pyval * pyval * pyval) :=
  let? name_or_default := py_get json_data "name" (PStr "unknown_table") in
  let? table_name := py_get json_data "schemaKey" name_or_default in
  let? entity_key := py_get json_data "entityKey" (PStr "default_entity") in
  (* schema = {table_name: {}} hashes table_name *)
  let? _ := dict_set [] table_name (PDict []) in
  let? fields :=
    match json_data with
    | PDict d => process_attributes d
    | _ => Ok []
    end in
  Ok (table_name, entity_key, PDict [(table_name, PDict (finish_fields fields))]).

End Extract.

(** ** [os.path] on POSIX *)

Module PosixPath.

(** [s.split('/')] *)
Fixpoint split_sep (s : string) : list string :=
  match s with
  | EmptyString => [EmptyString]
  | String c r =>
      if Ascii.eqb c "/" then EmptyString :: split_sep r
      else
        match split_sep r with
        | [] => [String c EmptyString]
        | comp :: comps => String c comp :: comps
        end
  end.

(** ['/'.join(comps)] *)
Definition join_sep (comps : list string) : string :=
  String.concat "/" comps.

Definition startswith_sep (s : string) : bool :=
  match s with
  | String c _ => Ascii.eqb c "/"
  | EmptyString => false
  end.

Fixpoint endswith_sep (s : string) : bool :=
  match s with
  | EmptyString => false
  | String c EmptyString => Ascii.eqb c "/"
  | String _ r => endswith_sep r
  end.

(** [os.path.join(a, b)] *)
Definition join (a b : string) : string :=
  if startswith_sep b then b
  else if (a =? "")%string || endswith_sep a then a ++ b
  else a ++ "/" ++ b.

(** One round of the loop of [normpath]; [new_comps] is kept reversed. *)
Definition norm_step (initial_slashes : bool) (new_comps : list string)
    (comp : string) : list string :=
  if (comp =? "")%string || (comp =? ".")%string then new_comps
  else if negb (comp =? "..")%string then comp :: new_comps
  else
    match new_comps with
    | [] => if initial_slashes then [] else [comp]
    | last :: rest => if (last =? "..")%string then comp :: new_comps else rest
    end.

(** [os.path.normpath(path)]: exactly two leading slashes are kept, any
    other number of them is one. *)
Definition normpath (path : string) : string :=
  if (path =? "")%string then "."
  else
    let initial :=
      match path with
      | String "/" (String "/" (String "/" _)) => "/"
      | String "/" (String "/" _) => "//"
      | String "/" _ => "/"
      | _ => ""
      end in
    let comps :=
      rev (fold_left (norm_step (startswith_sep path)) (split_sep path) []) in
    let out := initial ++ join_sep comps in
    if (out =? "")%string then "." else out.

(** [os.path.abspath(path)] in the working directory [cwd] *)
Definition abspath (cwd path : string) : string :=
  if startswith_sep path then normpath path else normpath (join cwd path).

Fixpoint common_prefix_length (a b : list string) : nat :=
  match a, b with
  | x :: a', y :: b' =>
      if (x =? y)%string then S (common_prefix_length a' b') else O
  | _, _ => O
  end.

Definition nonempty_components (p : string) : list string :=
  filter (fun x => negb (x =? "")%string) (split_sep p).

(** [os.path.relpath(path, start)]; [None] is the [ValueError] of an empty
    [path]. *)
Definition relpath (cwd path start : string) : option string :=
  if (path =? "")%string then None
  else
    let start_list := nonempty_components (abspath cwd start) in
    let path_list := nonempty_components (abspath cwd path) in
    let i := common_prefix_length start_list path_list in
    let rel_list :=
      (repeat ".." (List.length start_list - i)%nat ++ skipn i path_list)%list in
    match rel_list with
    | [] => Some "."
    | first :: others => Some (fold_left join others first)
    end.

(** [os.path.basename(p)] *)
Definition basename (p : string) : string :=
  last (split_sep p) EmptyString.

Fixpoint strip_leading_sep (s : string) : string :=
  match s with
  | String c r => if Ascii.eqb c "/" then strip_leading_sep r else s
  | EmptyString => EmptyString
  end.

End PosixPath.

(** ** The environment of the handler *)

Module Env.
Import Py.

(** What [print] receives. *)
Inductive output : Type :=
| ErrorProcessing (file : string) (e : exn)
| Traceback (e : exn).

(** The calls that change the environment, with their arguments. *)
Inductive event : Type :=
| Makedirs (path : string)
| SaveUpload (path : string)
| ExtractAll (zip_path dest : string)
| WriteJson (path : string) (data : pyval)
| ZipOpen (path : string)
| ZipWrite (file arcname : string)
| ZipClose (path : string)
| Rmtree (path : string)
| Print (o : output).

(** The state of the environment.  [calls] counts the calls made to it so
    far, and [trace] holds the calls that went through, oldest first.  The
    answers of the environment are functions of that count: the raw draw
    of the random source, the clock in milliseconds, whether a file-system
    call raises, and what [json.load] returns for a path.  What [os.walk]
    lists is a function of the calls that went through: the directory
    holds what was there before and what these calls put there. *)
Record World : Type := mkWorld {
  cwd : string;
  calls : nat;
  random_raw : nat -> Z;
  clock_ms : nat -> Z;
  io_fault : nat -> option exn;
  walk_result : list event -> list (string * list string * list string);
  json_file : nat -> string -> result pyval;
  trace : list event
}.

Definition tick (w : World) : World :=
  mkWorld (cwd w) (S (calls w)) (random_raw w) (clock_ms w) (io_fault w)
    (walk_result w) (json_file w) (trace w).

Definition record_event (ev : event) (w : World) : World :=
  mkWorld (cwd w) (calls w) (random_raw w) (clock_ms w) (io_fault w)
    (walk_result w) (json_file w) (trace w ++ [ev]).

(** A computation runs in a world and ends in a value or an exception;
    the world it leaves is kept in both cases. *)
Definition M (A : Type) : Type := World -> result A * World.

Definition ret {A} (a : A) : M A := fun w => (Ok a, w).

Definition raise {A} (e : exn) : M A := fun w => (Raise e, w).

Definition bind {A B} (m : M A) (k : A -> M B) : M B :=
  fun w =>
    match m w with
    | (Ok a, w') => k a w'
    | (Raise e, w') => (Raise e, w')
    end.

Definition lift {A} (r : result A) : M A := fun w => (r, w).

(** [try: m  except Exception as e: handler(e)] *)
Definition try_except {A} (m : M A) (handler : exn -> M A) : M A :=
  fun w =>
    match m w with
    | (Ok a, w') => (Ok a, w')
    | (Raise e, w') => handler e w'
    end.

(** [try: m  finally: cleanup] *)
Definition try_finally {A} (m : M A) (cleanup : M unit) : M A :=
  fun w =>
    match m w with
    | (Ok a, w') =>
        match cleanup w' with
        | (Ok _, w'') => (Ok a, w'')
        | (Raise e, w'') => (Raise e, w'')
        end
    | (Raise e, w') =>
        match cleanup w' with
        | (Ok _, w'') => (Raise e, w'')
        | (Raise e', w'') => (Raise e', w'')
        end
    end.

Notation "x <- m ;; k" := (bind m (fun x => k))
  (at level 61, m at next level, right associativity).
Notation "m ;; k" := (bind m (fun _ => k))
  (at level 61, right associativity).

(** [for x in l: acc = body(acc, x)] *)
Fixpoint mfor {A B} (l : list B) (body : A -> B -> M A) (acc : A) : M A :=
  match l with
  | [] => ret acc
  | x :: l' => acc' <- body acc x ;; mfor l' body acc'
  end.

(** A call that changes the file system: it raises when the environment
    says so, and is recorded otherwise. *)
Definition io (ev : event) : M unit :=
  fun w =>
    match io_fault w (calls w) with
    | Some e => (Raise e, tick w)
    | None => (Ok tt, tick (record_event ev w))
    end.

(** [print(...)] *)
Definition print (o : output) : M unit :=
  fun w => (Ok tt, record_event (Print o) w).

(** [random.randint(a, b)] *)
Definition randint (a b : Z) : M Z :=
  fun w => (Ok (a + random_raw w (calls w) mod (b - a + 1)), tick w).

(** One letter of [population], drawn uniformly. *)
Definition choice (population : string) : M ascii :=
  fun w =>
    let n := Z.of_nat (String.length population) in
    let i := Z.to_nat (random_raw w (calls w) mod n) in
    (Ok (match String.get i population with Some c => c | None => " "%char end),
     tick w).

(** [''.join(random.choices(population, k=k))] *)
Fixpoint choices (population : string) (k : nat) : M string :=
  match k with
  | O => ret EmptyString
  | S k' =>
      c <- choice population ;;
      s <- choices population k' ;;
      ret (String c s)
  end.

(** [int(time.time() * 1000)] *)
Definition time_ms : M Z :=
  fun w => (Ok (clock_ms w (calls w)), tick w).

(** [os.walk(top)], which swallows the errors of the scan. *)
Definition os_walk (top : string) : M (list (string * list string * list string)) :=
  fun w => (Ok (walk_result w (trace w)), tick w).

(** [with open(path, 'r') as f: json.load(f)] *)
Definition json_load (path : string) : M pyval :=
  fun w =>
    match io_fault w (calls w) with
    | Some e => (Raise e, tick w)
    | None => (json_file w (calls w) path, tick w)
    end.

End Env.

(** ** [generate_random_transaction], [create_zip_archive], [generate] *)

Module App.
Import Py Env PosixPath Extract.

Section WithRepr.

(** [str(v)] of a float, a list or a dict is the interpreter's [repr],
    which is not modelled. *)
Variable repr : pyval -> string.

(** [f"{v}"] *)
Definition py_str (v : pyval) : string :=
  match v with
  | PStr s => s
  | PNone => "None"
  | PBool true => "True"
  | PBool false => "False"
  | PInt n => str_of_Z n
  | _ => repr v
  end.

Definition letters : string :=
  "abcdefghijklmnopqrstuvwxyzABCDEFGHIJKLMNOPQRSTUVWXYZ".

Definition operation_value : pyval :=
  PDict [ (PStr "enumName", PStr "Operation");
          (PStr "valueName", PStr "UPSERT");
          (PStr "valueOrdinal", PInt 1) ].

(** Lines 82-98: the value of one field of record [i]. *)
Definition generate_value (i : nat) (attribute_name attribute_type : pyval)
  : M pyval :=
  if is_str attribute_type "string" then
    name <- lift (py_lower attribute_name) ;;
    if existsb (String.eqb name) ["sys_creation_date"; "key"; "createdby"]
    then n <- randint 1 100 ;; ret (PStr ("V" ++ str_of_Z n))
    else s <- choices letters 8 ;; ret (PStr s)
  else if is_str attribute_type "integer" then
    name <- lift (py_lower attribute_name) ;;
    if (name =? "customer_id")%string
    then ret (PStr (str_of_Z (Z.of_nat i + 1)))
    else n <- randint 1 100 ;; ret (PStr (str_of_Z n))
  else if is_str attribute_type "timestamp" then
    t <- time_ms ;; ret (PInt t)
  else if is_str attribute_type "operation" then
    ret operation_value
  else ret PNone.

(** Lines 81-98: one round of the loop over [attributes.items()]. *)
Definition generate_field (i : nat) (record : dict) (item : pyval * pyval)
  : M dict :=
  value <- generate_value i (fst item) (snd item) ;;
  lift (dict_set record (fst item) value).

(** Lines 80-98: [attributes.items()] needs a dict. *)
Definition generate_record (i : nat) (attributes : pyval) : M dict :=
  match attributes with
  | PDict items => mfor items (generate_field i) []
  | _ => raise (AttributeError (type_name attributes) "items")
  end.

Definition envelope (table_name : string) (transaction_id : Z) (record : dict)
  : pyval :=
  PDict [ (PStr "startTransaction", PBool true);
          (PStr "transactionId", PStr ("transaction" ++ str_of_Z transaction_id));
          (PStr "endTransaction", PBool true);
          (PStr "repeatedMessages",
           PDict [(PStr table_name, PList [PDict record])]) ].

(** Line 103 *)
Definition file_name (schema_key entity_key : pyval) (i : nat) : string :=
  py_str schema_key ++ "_" ++ py_str entity_key ++ "_file"
    ++ str_of_Z (Z.of_nat i + 1) ++ ".json".

(** Lines 73-110: one round of the loop over [range(count)]. *)
Definition generate_file (table_name table_dir : string) (attributes : pyval)
    (schema_key entity_key : pyval) (generated_files : list string) (i : nat)
  : M (list string) :=
  transaction_id <- randint 1 100 ;;
  record <- generate_record i attributes ;;
  let data := envelope table_name transaction_id record in
  let file_path := join table_dir (file_name schema_key entity_key i) in
  io (WriteJson file_path data) ;;
  ret (generated_files ++ [file_path])%list.

(** Lines 69-110: one round of the loop over [schema.items()];
    [os.path.join(base_dir, table_name)] takes a str. *)
Definition generate_table (count : Z) (base_dir : string)
    (schema_key entity_key : pyval) (generated_files : list string)
    (item : pyval * pyval) : M (list string) :=
  match fst item with
  | PStr table_name =>
      let table_dir := join base_dir table_name in
      io (Makedirs table_dir) ;;
      mfor (seq 0 (Z.to_nat count))
        (generate_file table_name table_dir (snd item) schema_key entity_key)
        generated_files
  | other => raise (JoinArgument (type_name other))
  end.

Definition generate_random_transaction (schema : pyval) (count : Z)
    (base_dir : string) (schema_key entity_key : pyval) : M (list string) :=
  io (Makedirs base_dir) ;;
  match schema with
  | PDict tables =>
      mfor tables (generate_table count base_dir schema_key entity_key) []
  | _ => raise (AttributeError (type_name schema) "items")
  end.

(** The name [zipfile] stores for [arcname]. *)
Definition zip_entry_name (arcname : string) : string :=
  strip_leading_sep (normpath arcname).

(** Lines 134-137: one round of the loop over [files]. *)
Definition archive_file (file : string) : M unit :=
  fun w =>
    match relpath (cwd w) file "data" with
    | Some arcname => io (ZipWrite file arcname) w
    | None => (Raise (ValueError "no path specified"), w)
    end.

Definition create_zip_archive (files : list string) (archive_name : string)
  : M string :=
  let downloads_dir := "downloads" in
  io (Makedirs downloads_dir) ;;
  let zip_path := join downloads_dir archive_name in
  io (ZipOpen zip_path) ;;
  try_finally
    (mfor files (fun _ file => archive_file file) tt)
    (io (ZipClose zip_path)) ;;
  ret zip_path.

(** *** The handler *)

Record Upload : Type := mkUpload { filename : string }.

(** [form_count] is what [int(request.form['count'])] evaluates to. *)
Record Request : Type := mkRequest {
  schema_file : option Upload;
  form_count : result Z
}.

Inductive Response : Type :=
| NoFileUploaded
| NoSelectedFile
| InvalidJson
| ErrorOf (e : exn)
| Success (message download_link : string).

(** The names bound in the module: the imports of lines 1-7 and the
    definitions of the file.  No builtin is called [shutil]. *)
Definition module_names : list string :=
  [ "os"; "json"; "random"; "time"; "zipfile"; "traceback";
    "Flask"; "request"; "render_template"; "jsonify"; "send_file";
    "send_from_directory"; "app"; "extract_schema_from_json";
    "generate_random_transaction"; "create_zip_archive"; "generate";
    "download_file"; "index" ].

Definition global_name (name : string) : M unit :=
  if existsb (String.eqb name) module_names then ret tt
  else raise (NameError name).

Definition temp_dir : string := "tmp_schema_files".
Definition output_dir : string := "/tmp/data".

(** Lines 176-188 and 195-207: one metadata document. *)
Definition process_document (file_path : string) (count : Z) : M (list string) :=
  schema_json <- json_load file_path ;;
  extracted <- lift (extract_schema_from_json schema_json) ;;
  let '(table_name, entity_key, schema) := extracted in
  schema_key <- lift (py_get schema_json "schemaKey" (PStr "unknown_schema")) ;;
  generate_random_transaction schema count output_dir schema_key entity_key.

(** Lines 172-192: one file of the walk. *)
Definition process_walked_file (count : Z) (root : string)
    (all_generated_files : list string) (file : string) : M (list string) :=
  if endswith (lower file) ".json" then
    try_except
      (generated_files <- process_document (join root file) count ;;
       ret (all_generated_files ++ generated_files)%list)
      (fun e =>
         print (ErrorProcessing file e) ;;
         print (Traceback e) ;;
         ret all_generated_files)
  else ret all_generated_files.

(** Lines 170-192 *)
Definition process_container (count : Z)
    (listing : list (string * list string * list string)) : M (list string) :=
  mfor listing
    (fun all_generated_files entry =>
       let '(root, _, files) := entry in
       mfor files (process_walked_file count root) all_generated_files)
    [].

(** Lines 161-207: from the saved upload to [all_generated_files]. *)
Definition collect_files (f : Upload) (count : Z) : M (list string) :=
  let schema_file_path := join temp_dir (filename f) in
  io (SaveUpload schema_file_path) ;;
  if endswith (lower (filename f)) ".zip" then
    io (ExtractAll schema_file_path temp_dir) ;;
    listing <- os_walk temp_dir ;;
    process_container count listing
  else
    process_document schema_file_path count.

(** Line 211: the name [shutil] is looked up before the call. *)
Definition shutil_rmtree (path : string) : M unit :=
  global_name "shutil" ;;
  io (Rmtree path).

(** Lines 160-217: the body of the [try]. *)
Definition generate_body (f : Upload) (count : Z) : M Response :=
  all_generated_files <- collect_files f count ;;
  zip_path <- create_zip_archive all_generated_files "generated_data.zip" ;;
  shutil_rmtree temp_dir ;;
  ret (Success
         ("Generated " ++ str_of_Z (Z.of_nat (List.length all_generated_files))
            ++ " files")
         ("/download/" ++ basename zip_path)).

(** Lines 219-223 *)
Definition generate_handler (e : exn) : M Response :=
  match e with
  | JSONDecodeError => ret InvalidJson
  | _ => print (Traceback e) ;; ret (ErrorOf e)
  end.

(** Lines 159-223 *)
Definition generate_try (f : Upload) (count : Z) : M Response :=
  try_except (generate_body f count) generate_handler.

Definition generate (req : Request) : M Response :=
  match schema_file req with
  | None => ret NoFileUploaded
  | Some f =>
      if (filename f =? "")%string then ret NoSelectedFile
      else
        count <- lift (form_count req) ;;
        io (Makedirs temp_dir) ;;
        io (Makedirs output_dir) ;;
        generate_try f count
  end.

End WithRepr.

End App.

(** ** The statements of the specification *)

Module Spec.
Import Py Extract.

(** The attribute descriptors of a document: the list under
    [attributes], nothing when the key is absent or holds no list. *)
Definition attributes_of (d : dict) : list pyval :=
  match dict_get d (PStr "attributes") with
  | Some (PList attrs) => attrs
  | _ => []
  end.

(** The name of a descriptor, empty when it has none. *)
Definition name_of (attr : pyval) : pyval :=
  match attr with
  | PDict a => get_default a (PStr "name") (PStr "")
  | _ => PStr ""
  end.

(** The names that reach the field map, in source order. *)
Definition usable_names (d : dict) : list pyval :=
  filter truthy (map name_of (attributes_of d)).

(** The distinct keys of a sequence of names, in order of first
    occurrence. *)
Definition dedup_step (acc : list pyval) (n : pyval) : list pyval :=
  if existsb (fun k => key_eqb k n) acc then acc else (acc ++ [n])%list.

Definition distinct_keys (names : list pyval) : list pyval :=
  fold_left dedup_step names [].

(** Two texts are the same up to case when they upper-case alike. *)
Definition same_ignoring_case (a b : string) : bool :=
  (upper a =? upper b)%string.

Definition is_ascii (c : ascii) : bool := (nat_of_ascii c <? 128)%nat.

Fixpoint is_ascii_text (s : string) : bool :=
  match s with
  | EmptyString => true
  | String c r => is_ascii c && is_ascii_text r
  end.

Definition type_table : list (string * string) :=
  [ ("STRING", "string"); ("INTEGER", "integer"); ("INT", "integer");
    ("TIMESTAMP", "timestamp"); ("DATETIME", "timestamp") ].

(** The case-insensitive lookup of a type tag in the fixed mapping. *)
Definition lookup_type (tag : option pyval) : option string :=
  match tag with
  | Some (PStr s) =>
      option_map snd (find (fun e => same_ignoring_case s (fst e)) type_table)
  | _ => None
  end.

(** The resolution chain of section 4.1: [datatype], then
    [logicalDatatype], then [string]. *)
Definition resolved_type (a : dict) : string :=
  match lookup_type (dict_get a (PStr "datatype")) with
  | Some t => t
  | None =>
      match lookup_type (dict_get a (PStr "logicalDatatype")) with
      | Some t => t
      | None => "string"
      end
  end.

(** A field of a descriptor that is a str when it is there. *)
Definition str_or_absent (a : dict) (k : string) : bool :=
  match dict_get a (PStr k) with
  | None | Some (PStr _) => true
  | Some _ => false
  end.

(** A descriptor as the data model has it: a mapping whose [datatype] and
    [logicalDatatype] are strings when present, and whose name can be a
    key when it is not empty. *)
Definition descriptor_ok (attr : pyval) : bool :=
  match attr with
  | PDict a =>
      str_or_absent a "datatype" && str_or_absent a "logicalDatatype"
      && (negb (truthy (name_of attr)) || hashable (name_of attr))
  | _ => false
  end.

(** [schemaKey] when the key is there, else [name], else
    ["unknown_table"]. *)
Definition table_name_of (d : dict) : pyval :=
  match dict_get d (PStr "schemaKey") with
  | Some v => v
  | None =>
      match dict_get d (PStr "name") with
      | Some v => v
      | None => PStr "unknown_table"
      end
  end.

(** The table name as section 4.1 words it: [schemaKey] when present and
    non-empty, else [name], else ["unknown_table"]. *)
Definition table_name_nonempty_rule (d : dict) : pyval :=
  let fallback :=
    match dict_get d (PStr "name") with
    | Some v => v
    | None => PStr "unknown_table"
    end in
  match dict_get d (PStr "schemaKey") with
  | Some v => if is_str v "" then fallback else v
  | None => fallback
  end.

Definition entity_key_of (d : dict) : pyval :=
  match dict_get d (PStr "entityKey") with
  | Some v => v
  | None => PStr "default_entity"
  end.

(** A document whose fields have the types of the data model, as far as
    the extractor looks at them. *)
Definition document_ok (d : dict) : bool :=
  hashable (table_name_of d) && forallb descriptor_ok (attributes_of d).

(** No attributes key, a value that is no list, or only descriptors
    without a name. *)
Definition zero_usable_attributes (d : dict) : bool :=
  match dict_get d (PStr "attributes") with
  | None => true
  | Some (PList attrs) =>
      forallb (fun attr => descriptor_ok attr && negb (truthy (name_of attr))) attrs
  | Some _ => true
  end.

(** The documents of the scenarios. *)
Definition doc_customers : dict :=
  [ (PStr "schemaKey", PStr "Cust"); (PStr "entityKey", PStr "E1");
    (PStr "attributes",
     PList [ PDict [(PStr "name", PStr "customer_id"); (PStr "datatype", PStr "INTEGER")];
             PDict [(PStr "name", PStr "name"); (PStr "datatype", PStr "STRING")] ]) ].

Definition doc_unnamed : dict :=
  [ (PStr "schemaKey", PStr "T");
    (PStr "attributes", PList [ PDict [(PStr "name", PStr "")] ]) ].

Definition doc_operation : dict :=
  [ (PStr "schemaKey", PStr "T");
    (PStr "attributes",
     PList [ PDict [(PStr "name", PStr "operation"); (PStr "datatype", PStr "STRING")];
             PDict [(PStr "name", PStr "x"); (PStr "datatype", PStr "STRING")] ]) ].

Definition doc_empty_key : dict :=
  [ (PStr "schemaKey", PStr ""); (PStr "name", PStr "n") ].

Definition doc_null_datatype : dict :=
  [ (PStr "attributes",
     PList [ PDict [(PStr "name", PStr "a"); (PStr "datatype", PNone)] ]) ].

Definition default_fields : dict :=
  [ (PStr "key", PStr "string"); (PStr "operation", PStr "operation") ].

(** What one descriptor does to the field map. *)
Definition field_step (fields : dict) (attr : pyval) : dict :=
  match attr with
  | PDict a =>
      if truthy (name_of attr)
      then set_item fields (name_of attr) (PStr (resolved_type a))
      else fields
  | _ => fields
  end.

(** The field map after the loop over the descriptors. *)
Definition fields_of (d : dict) : dict :=
  fold_left field_step (attributes_of d) [].

(** The schema section 4.1 describes for a document. *)
Definition schema_of (d : dict) : pyval :=
  PDict [(table_name_of d, PDict (finish_fields (fields_of d)))].

End Spec.

(** ** The statements about synthesis and materialization *)

Module SynthSpec.
Import Py Env PosixPath App.

(** No file-system call raises from this world on. *)
Definition no_fault (w : World) : Prop :=
  forall k, (calls w <= k)%nat -> io_fault w k = None.

(** [w'] is [w] after some calls, of which [evs] were recorded. *)
Definition extends (w : World) (evs : list event) (w' : World) : Prop :=
  io_fault w' = io_fault w
  /\ (calls w <= calls w')%nat
  /\ trace w' = (trace w ++ evs)%list.

(** The keys of a dict are pairwise different. *)
Fixpoint unique_keys (d : dict) : bool :=
  match d with
  | [] => true
  | (k, _) :: d' =>
      negb (existsb (fun kv => key_eqb k (fst kv)) d') && unique_keys d'
  end.

(** A field whose name the synthesizer can handle: a str, or any key when
    the type is neither [string] nor [integer]. *)
Definition item_ok (item : pyval * pyval) : bool :=
  match fst item with
  | PStr _ => true
  | k => hashable k
         && negb (is_str (snd item) "string" || is_str (snd item) "integer")
  end.

(** A table of a canonical schema: a str name and a field map. *)
Definition table_ok (item : pyval * pyval) : bool :=
  match item with
  | (PStr _, PDict items) => forallb item_ok items && unique_keys items
  | _ => false
  end.

Definition is_pstr (v : pyval) : bool :=
  match v with
  | PStr _ => true
  | _ => false
  end.

(** A document of the data model whose table name and attribute names
    are strings. *)
Definition typed_document (d : dict) : bool :=
  Spec.document_ok d
  && is_pstr (Spec.table_name_of d)
  && forallb is_pstr (Spec.usable_names d).

Definition table_name_string (item : pyval * pyval) : string :=
  match fst item with
  | PStr t => t
  | _ => EmptyString
  end.

Definition table_items (item : pyval * pyval) : dict :=
  match snd item with
  | PDict items => items
  | _ => []
  end.

Section WithRepr.
Variable repr : pyval -> string.

(** The file name of the record of 1-based index [index]. *)
Definition indexed_file_name (schema_key entity_key : pyval) (index : nat)
  : string :=
  py_str repr schema_key ++ "_" ++ py_str repr entity_key ++ "_file"
    ++ str_of_Z (Z.of_nat index) ++ ".json".

Definition indexed_path (base_dir : string) (schema_key entity_key : pyval)
    (table_name : string) (index : nat) : string :=
  join (join base_dir table_name) (indexed_file_name schema_key entity_key index).

(** The paths of a table for [n] records: indices 1 to [n], in order. *)
Definition table_paths (base_dir : string) (schema_key entity_key : pyval)
    (n : nat) (table_name : string) : list string :=
  map (indexed_path base_dir schema_key entity_key table_name) (seq 1 n).

(** The calls a table leaves in the trace for the records [records],
    each with its transaction number. *)
Definition table_events (base_dir : string) (schema_key entity_key : pyval)
    (table_name : string) (records : list (Z * dict)) : list event :=
  Makedirs (join base_dir table_name)
  :: map (fun ir =>
            WriteJson
              (indexed_path base_dir schema_key entity_key table_name (fst ir))
              (envelope table_name (fst (snd ir)) (snd (snd ir))))
       (combine (seq 1 (List.length records)) records).

(** The write of round [i] (from 0), as the loop makes it. *)
Definition zero_based_write (table_name table_dir : string)
    (schema_key entity_key : pyval) (ir : nat * (Z * dict)) : event :=
  WriteJson (join table_dir (file_name repr schema_key entity_key (fst ir)))
    (envelope table_name (fst (snd ir)) (snd (snd ir))).

Fixpoint schema_events (base_dir : string) (schema_key entity_key : pyval)
    (tables : dict) (runs : list (list (Z * dict))) : list event :=
  match tables, runs with
  | item :: tables', records :: runs' =>
      (table_events base_dir schema_key entity_key (table_name_string item) records
       ++ schema_events base_dir schema_key entity_key tables' runs')%list
  | _, _ => []
  end.

End WithRepr.

(** The files written by a list of calls, with their contents. *)
Definition written (evs : list event) : list (string * pyval) :=
  flat_map (fun ev => match ev with WriteJson p v => [(p, v)] | _ => [] end) evs.

(** [s] names an integer field of [items] and lower-cases to
    [customer_id]. *)
Definition customer_id_field (items : dict) (s : string) : Prop :=
  lower s = "customer_id" /\ dict_get items (PStr s) = Some (PStr "integer").

(** Record number [i] (from 0) of a table with the fields [items]: a
    [customer_id] field holds [str(i + 1)]. *)
Definition record_ok (items : dict) (i : nat) (record : dict) : Prop :=
  forall s, customer_id_field items s ->
    dict_get record (PStr s) = Some (PStr (str_of_Z (Z.of_nat i + 1))).

(** The records of one table for [n] rounds. *)
Definition table_run (n : nat) (item : pyval * pyval)
    (records : list (Z * dict)) : Prop :=
  List.length records = n
  /\ Forall2 (fun i tr => 1 <= fst tr <= 100 /\ record_ok (table_items item) i (snd tr))
       (seq 0 n) records.

End SynthSpec.

(** ** The statements about the handler *)

Module DriverSpec.
Import Py Env PosixPath App.

Section WithRepr.
Variable repr : pyval -> string.

(** The documents of a walk, in the order the loops visit them: the files
    whose lower-cased name ends in [.json], each with its directory. *)
Definition container_documents
    (listing : list (string * list string * list string))
  : list (string * string) :=
  flat_map
    (fun entry =>
       map (fun file => (fst (fst entry), file))
         (filter (fun file => endswith (lower file) ".json") (snd entry)))
    listing.

(** Each document is processed in the world its predecessors left; a
    success yields the paths of its files, a failure is printed and the
    next document is processed all the same. *)
Fixpoint document_outcomes (count : Z) (documents : list (string * string))
    (w : World) : list (result (list string)) * World :=
  match documents with
  | [] => ([], w)
  | (root, file) :: rest =>
      match process_document repr (join root file) count w with
      | (Ok files, w1) =>
          let (outcomes, w2) := document_outcomes count rest w1 in
          (Ok files :: outcomes, w2)
      | (Raise e, w1) =>
          let (outcomes, w2) :=
            document_outcomes count rest
              (record_event (Print (Traceback e))
                 (record_event (Print (ErrorProcessing file e)) w1)) in
          (Raise e :: outcomes, w2)
      end
  end.

End WithRepr.

(** The files of the documents that succeeded. *)
Definition produced (outcomes : list (result (list string))) : list string :=
  flat_map (fun o => match o with Ok files => files | Raise _ => [] end) outcomes.

(** The files handed to [zipf.write], in order. *)
Definition archived (evs : list event) : list string :=
  flat_map (fun ev => match ev with ZipWrite file _ => [file] | _ => [] end) evs.

Definition is_success (r : Response) : bool :=
  match r with
  | Success _ _ => true
  | _ => false
  end.



(** The world once the calls [evs] went through. *)
Definition after (evs : list event) (w : World) : World :=
  fold_left (fun w' ev => tick (record_event ev w')) evs w.



End DriverSpec.

(** ** The worlds and requests of the scenarios *)

Module Scenario.
Import Py Env PosixPath App Spec.

(** A world in which no call fails, run from [/var/task]. *)
Definition world0 : World :=
  mkWorld "/var/task" 0 (fun k => Z.of_nat k * 37) (fun _ => 1700000000000)
    (fun _ => None) (fun _ => []) (fun _ _ => Raise JSONDecodeError) [].

Definition repr0 : pyval -> string := fun _ => "?".

(** The schema extracted from [doc_customers]. *)
Definition cust_tables : dict :=
  [ (PStr "Cust",
     PDict [ (PStr "customer_id", PStr "integer");
             (PStr "name", PStr "string");
             (PStr "operation", PStr "operation") ]) ].

Definition doc_orders : dict :=
  [ (PStr "schemaKey", PStr "Ord");
    (PStr "attributes",
     PList [ PDict [(PStr "name", PStr "created"); (PStr "datatype", PStr "timestamp")] ]) ].

(** A container of three documents, the second of which is no JSON. *)
Definition world_container : World :=
  mkWorld "/var/task" 0 (fun k => Z.of_nat k * 37) (fun _ => 1700000000000)
    (fun _ => None)
    (fun _ => [("tmp_schema_files", [], ["bundle.zip"; "a.json"; "b.json"; "c.json"])])
    (fun _ path =>
       if (path =? "tmp_schema_files/a.json")%string then Ok (PDict doc_customers)
       else if (path =? "tmp_schema_files/c.json")%string then Ok (PDict doc_orders)
       else Raise JSONDecodeError)
    [].

(** A single document, uploaded as [cust.json]. *)
Definition world_single : World :=
  mkWorld "/var/task" 0 (fun k => Z.of_nat k * 37) (fun _ => 1700000000000)
    (fun _ => None) (fun _ => [])
    (fun _ _ => Ok (PDict doc_customers))
    [].

Definition request_container : Request :=
  mkRequest (Some (mkUpload "bundle.zip")) (Ok 1).




Definition request_single : Request :=
  mkRequest (Some (mkUpload "cust.json")) (Ok 2).

End Scenario.

(** ** The statements about the rest of the behaviour *)

Module ExtraSpec.
Import Py Env PosixPath App Spec SynthSpec.

(** The four type tags of a field map. *)
Definition type_tags : list pyval :=
  [PStr "string"; PStr "integer"; PStr "timestamp"; PStr "operation"].

Definition is_letter (c : ascii) : bool := is_lower_ascii c || is_upper_ascii c.

Fixpoint all_letters (s : string) : bool :=
  match s with
  | EmptyString => true
  | String c r => is_letter c && all_letters r
  end.

(** The names whose string values are ["V"] and a number. *)
Definition versioned_names : list string :=
  ["sys_creation_date"; "key"; "createdby"].

(** Line 180 and line 199: the key of the file names. *)
Definition schema_key_of (d : dict) : pyval :=
  get_default d (PStr "schemaKey") (PStr "unknown_schema").

(** The envelope of the data model, entry by entry: the two flags, the
    transaction id with a number from 1 to 100, and the list of one
    record under the name of the table. *)
Definition envelope_of (table : string) (data : pyval) : Prop :=
  exists (d : dict) (n : Z) (record : dict),
    data = PDict d
    /\ map fst d = [ PStr "startTransaction"; PStr "transactionId";
                     PStr "endTransaction"; PStr "repeatedMessages" ]
    /\ dict_get d (PStr "startTransaction") = Some (PBool true)
    /\ dict_get d (PStr "endTransaction") = Some (PBool true)
    /\ 1 <= n <= 100
    /\ dict_get d (PStr "transactionId")
       = Some (PStr ("transaction" ++ str_of_Z n))
    /\ dict_get d (PStr "repeatedMessages")
       = Some (PDict [(PStr table, PList [PDict record])]).

(** The file of an index from 1 to [n] of one of the tables, holding an
    envelope for that table. *)
Definition table_file (repr : pyval -> string) (base_dir : string)
    (schema_key entity_key : pyval) (n : nat) (tables : dict)
    (pv : string * pyval) : Prop :=
  exists item index,
    In item tables
    /\ (1 <= index <= n)%nat
    /\ fst pv = indexed_path repr base_dir schema_key entity_key
                  (table_name_string item) index
    /\ envelope_of (table_name_string item) (snd pv).

(** [path.startswith(output_dir + "/")]: the path, as it is written, lies
    under the output directory. *)
Definition under_output_dir (path : string) : bool :=
  String.prefix (output_dir ++ "/") path.

Fixpoint no_underscore (s : string) : bool :=
  match s with
  | EmptyString => true
  | String c r => negb (Ascii.eqb c "_") && no_underscore r
  end.

(** The exception of the first [except] of the handler. *)
Definition is_decode_error (e : exn) : bool :=
  match e with
  | JSONDecodeError => true
  | _ => false
  end.

(** A computation leaves the working directory and the fault schedule as
    they are, and never takes back a call. *)
Definition frame (w w' : World) : Prop :=
  cwd w' = cwd w /\ io_fault w' = io_fault w /\ (calls w <= calls w')%nat.

Definition keeps {A} (m : M A) : Prop :=
  forall w r w', m w = (r, w') -> frame w w'.

(** Line 136: the name under which a file is added. *)
Definition arcname_of (cwd file : string) : string :=
  match relpath cwd file "data" with
  | Some arcname => arcname
  | None => EmptyString
  end.

Definition nonempty (s : string) : bool := negb (s =? "")%string.

Fixpoint no_sep (s : string) : bool :=
  match s with
  | EmptyString => true
  | String c r => negb (Ascii.eqb c "/") && no_sep r
  end.

(** One component of a path: not empty, no separator, neither [.] nor
    [..]. *)
Definition plain (s : string) : bool :=
  nonempty s && no_sep s && negb (s =? ".")%string && negb (s =? "..")%string.

(** A world without faults in which every file read holds [v]. *)
Definition world_reading (v : pyval) : World :=
  mkWorld "/var/task" 0 (fun k => Z.of_nat k * 37) (fun _ => 1700000000000)
    (fun _ => None) (fun _ => []) (fun _ _ => Ok v) [].

(** A world without faults in which reading a file raises [e]. *)
Definition world_raising (e : exn) : World :=
  mkWorld "/var/task" 0 (fun k => Z.of_nat k * 37) (fun _ => 1700000000000)
    (fun _ => None) (fun _ => []) (fun _ _ => Raise e) [].

(** A world whose file system is read-only. *)
Definition world_read_only : World :=
  mkWorld "/var/task" 0 (fun k => Z.of_nat k * 37) (fun _ => 1700000000000)
    (fun _ => Some (EnvError "EROFS")) (fun _ => []) (fun _ _ => Raise JSONDecodeError) [].

Definition cust_items : dict :=
  [ (PStr "customer_id", PStr "integer"); (PStr "name", PStr "string");
    (PStr "operation", PStr "operation") ].

Definition doc_customers_bare : dict :=
  [ (PStr "schemaKey", PStr "Cust"); (PStr "entityKey", PStr "E1") ].

Definition doc_absolute : dict := [ (PStr "schemaKey", PStr "/srv/x") ].

Definition doc_numbered : dict := [ (PStr "schemaKey", PInt 5) ].

End ExtraSpec.

(** ** Facts about the case of ASCII texts *)

Module CaseFacts.
Import Py Spec.

Lemma upper_cons_ascii (c : ascii) (r : string) :
  is_ascii c = true -> upper (String c r) = String (upper_ascii c) (upper r).
Proof.
  destruct c as [b0 b1 b2 b3 b4 b5 b6 b7].
  destruct b7; [destruct b0, b1, b2, b3, b4, b5, b6; discriminate | ].
  intros _. destruct b0, b1, b2, b3, b4, b5, b6; reflexivity.
Qed.

Lemma lower_cons_ascii (c : ascii) (r : string) :
  is_ascii c = true -> lower (String c r) = String (lower_ascii c) (lower r).
Proof.
  destruct c as [b0 b1 b2 b3 b4 b5 b6 b7].
  destruct b7; [destruct b0, b1, b2, b3, b4, b5, b6; discriminate | ].
  intros _. destruct b0, b1, b2, b3, b4, b5, b6; reflexivity.
Qed.

Lemma lower_upper_ascii (c : ascii) : lower_ascii (upper_ascii c) = lower_ascii c.
Proof.
  destruct c as [b0 b1 b2 b3 b4 b5 b6 b7].
  destruct b0, b1, b2, b3, b4, b5, b6, b7; reflexivity.
Qed.

Lemma upper_lower_ascii (c : ascii) : upper_ascii (lower_ascii c) = upper_ascii c.
Proof.
  destruct c as [b0 b1 b2 b3 b4 b5 b6 b7].
  destruct b0, b1, b2, b3, b4, b5, b6, b7; reflexivity.
Qed.

Lemma upper_ascii_is_ascii (c : ascii) : is_ascii c = true -> is_ascii (upper_ascii c) = true.
Proof.
  destruct c as [b0 b1 b2 b3 b4 b5 b6 b7].
  destruct b0, b1, b2, b3, b4, b5, b6, b7; try discriminate; reflexivity.
Qed.

Lemma lower_ascii_is_ascii (c : ascii) : is_ascii c = true -> is_ascii (lower_ascii c) = true.
Proof.
  destruct c as [b0 b1 b2 b3 b4 b5 b6 b7].
  destruct b0, b1, b2, b3, b4, b5, b6, b7; try discriminate; reflexivity.
Qed.

Lemma upper_is_ascii_text (s : string) :
  is_ascii_text s = true -> is_ascii_text (upper s) = true.
Proof.
  induction s as [ | c r IH]; [reflexivity | ].
  cbn [is_ascii_text]. intros H. apply andb_prop in H as [Hc Hr].
  rewrite (upper_cons_ascii c r Hc). cbn [is_ascii_text].
  now rewrite (upper_ascii_is_ascii c Hc), (IH Hr).
Qed.

Lemma lower_is_ascii_text (s : string) :
  is_ascii_text s = true -> is_ascii_text (lower s) = true.
Proof.
  induction s as [ | c r IH]; [reflexivity | ].
  cbn [is_ascii_text]. intros H. apply andb_prop in H as [Hc Hr].
  rewrite (lower_cons_ascii c r Hc). cbn [is_ascii_text].
  now rewrite (lower_ascii_is_ascii c Hc), (IH Hr).
Qed.

Lemma lower_upper (s : string) :
  is_ascii_text s = true -> lower (upper s) = lower s.
Proof.
  induction s as [ | c r IH]; [reflexivity | ].
  cbn [is_ascii_text]. intros H. apply andb_prop in H as [Hc Hr].
  rewrite (upper_cons_ascii c r Hc), (lower_cons_ascii c r Hc).
  rewrite (lower_cons_ascii _ _ (upper_ascii_is_ascii c Hc)).
  now rewrite lower_upper_ascii, (IH Hr).
Qed.

Lemma upper_lower (s : string) :
  is_ascii_text s = true -> upper (lower s) = upper s.
Proof.
  induction s as [ | c r IH]; [reflexivity | ].
  cbn [is_ascii_text]. intros H. apply andb_prop in H as [Hc Hr].
  rewrite (upper_cons_ascii c r Hc), (lower_cons_ascii c r Hc).
  rewrite (upper_cons_ascii _ _ (lower_ascii_is_ascii c Hc)).
  now rewrite upper_lower_ascii, (IH Hr).
Qed.

(** On ASCII texts, upper-casing alike is lower-casing alike. *)
Lemma same_ignoring_case_ascii (a b : string) :
  is_ascii_text a = true -> is_ascii_text b = true ->
  same_ignoring_case a b = true <-> lower a = lower b.
Proof.
  intros Ha Hb. unfold same_ignoring_case. rewrite String.eqb_eq. split; intros H.
  - rewrite <- (lower_upper a Ha), <- (lower_upper b Hb). now rewrite H.
  - rewrite <- (upper_lower a Ha), <- (upper_lower b Hb). now rewrite H.
Qed.

End CaseFacts.

(** ** Facts about the extractor *)

Module ExtractFacts.
Import Py Extract Spec.

Lemma key_eqb_str_r (k : pyval) (s : string) :
  key_eqb k (PStr s) = true -> k = PStr s.
Proof.
  destruct k as [ | b | n | f | t | l | d]; simpl; try discriminate.
  - destruct f; discriminate.
  - intros H. apply String.eqb_eq in H. now subst.
Qed.

Lemma key_eqb_str_l (k : pyval) (s : string) :
  key_eqb (PStr s) k = true -> k = PStr s.
Proof.
  destruct k as [ | b | n | f | t | l | d]; simpl; try discriminate.
  - destruct f; discriminate.
  - intros H. apply String.eqb_eq in H. now subst.
Qed.

Lemma key_eqb_str_refl (s : string) : key_eqb (PStr s) (PStr s) = true.
Proof. simpl. apply String.eqb_refl. Qed.

Lemma key_eqb_str_sym_false (k : pyval) (s : string) :
  key_eqb (PStr s) k = false -> key_eqb k (PStr s) = false.
Proof.
  intros H. destruct (key_eqb k (PStr s)) eqn:E; [ | reflexivity].
  apply key_eqb_str_r in E. subst. now rewrite key_eqb_str_refl in H.
Qed.

Lemma dict_get_set_same_str (d : dict) (s : string) (v : pyval) :
  dict_get (set_item d (PStr s) v) (PStr s) = Some v.
Proof.
  induction d as [ | [k' v'] d IH]; cbn [set_item dict_get].
  - now rewrite key_eqb_str_refl.
  - destruct (key_eqb k' (PStr s)) eqn:E; cbn [dict_get]; rewrite E; auto.
Qed.

Lemma dict_get_set_other_str (d : dict) (m v : pyval) (s : string) :
  key_eqb (PStr s) m = false ->
  dict_get (set_item d m v) (PStr s) = dict_get d (PStr s).
Proof.
  intros Hm. induction d as [ | [k' v'] d IH]; cbn [set_item dict_get].
  - now rewrite (key_eqb_str_sym_false _ _ Hm).
  - destruct (key_eqb k' m) eqn:E; cbn [dict_get].
    + destruct (key_eqb k' (PStr s)) eqn:E'; [ | reflexivity].
      apply key_eqb_str_r in E'. subst k'. congruence.
    + now rewrite IH.
Qed.

(** The keys after a store. *)
Lemma keys_set_item (d : dict) (k v : pyval) :
  map fst (set_item d k v) =
  if existsb (fun k' => key_eqb k' k) (map fst d) then map fst d
  else (map fst d ++ [k])%list.
Proof.
  induction d as [ | [k' v'] d IH]; cbn [set_item map fst existsb]; [reflexivity | ].
  destruct (key_eqb k' k) eqn:E; cbn [map fst orb]; [reflexivity | ].
  rewrite IH. now destruct (existsb _ (map fst d)).
Qed.

Lemma mapping_lookup (u : string) :
  dict_get datatype_mapping (PStr u) =
  option_map (fun e => PStr (snd e))
    (find (fun e => (u =? upper (fst e))%string) type_table).
Proof.
  unfold datatype_mapping, type_table. cbn -[upper String.eqb key_eqb].
  change (upper "STRING") with "STRING".
  change (upper "INTEGER") with "INTEGER".
  change (upper "INT") with "INT".
  change (upper "TIMESTAMP") with "TIMESTAMP".
  change (upper "DATETIME") with "DATETIME".
  change (fun k => key_eqb (PStr k) (PStr u)) with (fun k => (k =? u)%string).
  repeat match goal with
    | |- context [key_eqb (PStr ?a) (PStr u)] =>
        change (key_eqb (PStr a) (PStr u)) with (a =? u)%string
    end.
  rewrite !(String.eqb_sym u).
  repeat match goal with |- context [(?a =? u)%string] => destruct (a =? u)%string end;
    reflexivity.
Qed.

Lemma mapping_get_default (tag : pyval) (s : string) (default : string) :
  (tag = PStr s) ->
  get_default datatype_mapping (PStr (upper s)) (PStr default) =
  PStr (match lookup_type (Some tag) with Some t => t | None => default end).
Proof.
  intros ->. unfold get_default. rewrite mapping_lookup.
  unfold lookup_type, same_ignoring_case.
  destruct (find _ type_table); reflexivity.
Qed.

Lemma mapping_get_empty (default : pyval) :
  get_default datatype_mapping (PStr (upper "")) default = default.
Proof. reflexivity. Qed.

Lemma tag_lookup (a : dict) (k : string) :
  str_or_absent a k = true ->
  exists s, get_default a (PStr k) (PStr "") = PStr s /\
    forall default,
      get_default datatype_mapping (PStr (upper s)) (PStr default) =
      PStr (match lookup_type (dict_get a (PStr k)) with
            | Some t => t
            | None => default
            end).
Proof.
  unfold str_or_absent. unfold get_default at 1.
  destruct (dict_get a (PStr k)) as [[ | | | | s | | ] | ]; try discriminate; intros _.
  - exists s. split; [reflexivity | ]. intros default.
    now apply mapping_get_default.
  - exists "". split; [reflexivity | ]. intros default. apply mapping_get_empty.
Qed.

Lemma resolve_datatype_ok (a : dict) :
  str_or_absent a "datatype" = true ->
  str_or_absent a "logicalDatatype" = true ->
  resolve_datatype (PDict a) = Ok (PStr (resolved_type a)).
Proof.
  intros H1 H2.
  destruct (tag_lookup a "datatype" H1) as (s1 & E1 & L1).
  destruct (tag_lookup a "logicalDatatype" H2) as (s2 & E2 & L2).
  unfold resolve_datatype, resolved_type, py_get.
  rewrite E1, E2. cbn [rbind py_upper].
  now rewrite L2, L1.
Qed.

Lemma resolve_datatype_inv (a : dict) (v : pyval) :
  resolve_datatype (PDict a) = Ok v ->
  str_or_absent a "datatype" = true /\ str_or_absent a "logicalDatatype" = true.
Proof.
  unfold resolve_datatype, str_or_absent, py_get, get_default.
  destruct (dict_get a (PStr "datatype")) as [[ | | | | s1 | | ] | ];
    cbn [rbind py_upper]; try discriminate;
    destruct (dict_get a (PStr "logicalDatatype")) as [[ | | | | s2 | | ] | ];
    cbn [rbind py_upper]; try discriminate; auto.
Qed.

Lemma add_attribute_ok (fields : dict) (attr : pyval) :
  descriptor_ok attr = true ->
  add_attribute fields attr = Ok (field_step fields attr).
Proof.
  destruct attr as [ | | | | | | a]; try discriminate.
  unfold descriptor_ok. intros H.
  apply andb_prop in H as [H Hname]. apply andb_prop in H as [H1 H2].
  unfold add_attribute, field_step. cbn [py_get rbind].
  rewrite (resolve_datatype_ok a H1 H2). cbn [rbind].
  change (get_default a (PStr "name") (PStr "")) with (name_of (PDict a)).
  destruct (truthy (name_of (PDict a))); [ | reflexivity].
  cbn [negb orb] in Hname. unfold dict_set. now rewrite Hname.
Qed.

Lemma add_attribute_inv (fields fields' : dict) (attr : pyval) :
  add_attribute fields attr = Ok fields' -> descriptor_ok attr = true.
Proof.
  destruct attr as [ | | | | | | a]; try discriminate.
  unfold add_attribute, descriptor_ok. cbn [py_get rbind].
  destruct (resolve_datatype (PDict a)) as [v | e] eqn:R; [ | discriminate].
  apply resolve_datatype_inv in R as [-> ->]. cbn [rbind andb].
  change (get_default a (PStr "name") (PStr "")) with (name_of (PDict a)).
  destruct (truthy (name_of (PDict a))); [ | reflexivity].
  unfold dict_set. cbn [negb orb].
  now destruct (hashable (name_of (PDict a))).
Qed.

Lemma rfold_add_ok (attrs : list pyval) (fields : dict) :
  forallb descriptor_ok attrs = true ->
  rfold add_attribute attrs fields = Ok (fold_left field_step attrs fields).
Proof.
  revert fields. induction attrs as [ | attr attrs IH]; intros fields H;
    cbn [rfold fold_left]; [reflexivity | ].
  cbn [forallb] in H. apply andb_prop in H as [H1 H2].
  rewrite (add_attribute_ok _ _ H1). cbn [rbind]. now apply IH.
Qed.

Lemma rfold_add_inv (attrs : list pyval) (fields fields' : dict) :
  rfold add_attribute attrs fields = Ok fields' ->
  forallb descriptor_ok attrs = true.
Proof.
  revert fields. induction attrs as [ | attr attrs IH]; intros fields H;
    cbn [rfold forallb] in *; [reflexivity | ].
  destruct (add_attribute fields attr) as [f1 | e] eqn:A; [ | discriminate].
  cbn [rbind] in H. rewrite (add_attribute_inv _ _ _ A). cbn [andb]. eauto.
Qed.

Lemma process_attributes_ok (d : dict) :
  forallb descriptor_ok (attributes_of d) = true ->
  process_attributes d = Ok (fields_of d).
Proof.
  unfold process_attributes, fields_of, attributes_of.
  destruct (dict_get d (PStr "attributes")) as [[ | | | | | attrs | ] | ];
    try reflexivity.
  apply rfold_add_ok.
Qed.

Lemma process_attributes_inv (d : dict) (fields : dict) :
  process_attributes d = Ok fields ->
  forallb descriptor_ok (attributes_of d) = true.
Proof.
  unfold process_attributes, attributes_of.
  destruct (dict_get d (PStr "attributes")) as [[ | | | | | attrs | ] | ];
    try reflexivity.
  apply rfold_add_inv.
Qed.

Lemma table_name_get (d : dict) :
  get_default d (PStr "schemaKey")
    (get_default d (PStr "name") (PStr "unknown_table")) = table_name_of d.
Proof.
  unfold get_default, table_name_of.
  destruct (dict_get d (PStr "schemaKey")); reflexivity.
Qed.

(** The extractor returns exactly on the documents of the data model, and
    returns the schema of section 4.1 there. *)
Lemma extract_ok (d : dict) :
  document_ok d = true ->
  extract_schema_from_json (PDict d) =
  Ok (table_name_of d, entity_key_of d, schema_of d).
Proof.
  unfold document_ok. intros H. apply andb_prop in H as [Ht Ha].
  unfold extract_schema_from_json. cbn [py_get rbind].
  rewrite table_name_get. unfold dict_set. rewrite Ht. cbn [rbind].
  rewrite (process_attributes_ok d Ha). reflexivity.
Qed.

Lemma extract_inv (d : dict) (r : pyval * pyval * pyval) :
  extract_schema_from_json (PDict d) = Ok r -> document_ok d = true.
Proof.
  unfold extract_schema_from_json, document_ok. cbn [py_get rbind].
  rewrite table_name_get. unfold dict_set.
  destruct (hashable (table_name_of d)); [ | discriminate]. cbn [rbind andb].
  destruct (process_attributes d) as [fields | e] eqn:P; [ | discriminate].
  intros _. now apply process_attributes_inv in P.
Qed.

End ExtractFacts.

(** ** Facts about the field map *)

Module SchemaFacts.
Import Py Extract Spec ExtractFacts.

Lemma keys_fold (attrs : list pyval) (fields : dict) :
  map fst (fold_left field_step attrs fields) =
  fold_left dedup_step (filter truthy (map name_of attrs)) (map fst fields).
Proof.
  revert fields. induction attrs as [ | attr attrs IH]; intros fields;
    cbn [fold_left map filter]; [reflexivity | ].
  rewrite IH. destruct attr as [ | | | | | | a]; try reflexivity.
  unfold field_step.
  destruct (truthy (name_of (PDict a))); [ | reflexivity].
  cbn [fold_left]. now rewrite keys_set_item.
Qed.

Lemma dedup_forall (P : pyval -> Prop) (names acc : list pyval) :
  Forall P names -> Forall P acc -> Forall P (fold_left dedup_step names acc).
Proof.
  revert acc. induction names as [ | n names IH]; intros acc Hn Ha;
    cbn [fold_left]; [assumption | ].
  inversion Hn; subst. apply IH; [assumption | ].
  unfold dedup_step. destruct (existsb _ acc); [assumption | ].
  apply Forall_app. split; [assumption | ]. now constructor.
Qed.

Lemma dedup_length (names acc : list pyval) :
  (List.length acc <= List.length (fold_left dedup_step names acc))%nat.
Proof.
  revert acc. induction names as [ | n names IH]; intros acc;
    cbn [fold_left]; [lia | ].
  etransitivity; [ | apply IH].
  unfold dedup_step. destruct (existsb _ acc); [lia | ].
  rewrite length_app. cbn. lia.
Qed.

Lemma distinct_keys_nonempty (names : list pyval) :
  names <> [] -> distinct_keys names <> [].
Proof.
  destruct names as [ | n names]; [congruence | ]. intros _.
  unfold distinct_keys. cbn [fold_left]. change (dedup_step [] n) with [n].
  pose proof (dedup_length names [n]) as L.
  intros E. rewrite E in L. cbn in L. lia.
Qed.

Lemma set_item_absent (d : dict) (k v : pyval) :
  existsb (fun k' => key_eqb k' k) (map fst d) = false ->
  set_item d k v = (d ++ [(k, v)])%list.
Proof.
  induction d as [ | [k' v'] d IH]; cbn [map fst existsb set_item app];
    [reflexivity | ].
  intros H. apply orb_false_elim in H as [H1 H2]. rewrite H1. now rewrite IH.
Qed.

Lemma set_item_values (P : pyval -> Prop) (d : dict) (k v : pyval) :
  Forall (fun kv => P (snd kv)) d -> P v ->
  Forall (fun kv => P (snd kv)) (set_item d k v).
Proof.
  intros Hd Hv. induction d as [ | [k' v'] d IH]; cbn [set_item].
  - now constructor.
  - inversion Hd; subst. destruct (key_eqb k' k); constructor; auto.
Qed.

Lemma lookup_type_values (tag : option pyval) (t : string) :
  lookup_type tag = Some t -> is_str (PStr t) "operation" = false.
Proof.
  unfold lookup_type.
  destruct tag as [[ | | | | s | | ] | ]; try discriminate.
  unfold type_table. cbn -[same_ignoring_case].
  repeat match goal with
    | |- context [same_ignoring_case s ?k] => destruct (same_ignoring_case s k)
    end; cbn; intros H; inversion H; reflexivity.
Qed.

Lemma resolved_type_not_operation (a : dict) :
  is_str (PStr (resolved_type a)) "operation" = false.
Proof.
  unfold resolved_type.
  destruct (lookup_type (dict_get a (PStr "datatype"))) eqn:E1;
    [now apply lookup_type_values in E1 | ].
  destruct (lookup_type (dict_get a (PStr "logicalDatatype"))) eqn:E2;
    [now apply lookup_type_values in E2 | reflexivity].
Qed.

Lemma fields_values (attrs : list pyval) (fields : dict) :
  Forall (fun kv => is_str (snd kv) "operation" = false) fields ->
  Forall (fun kv => is_str (snd kv) "operation" = false)
    (fold_left field_step attrs fields).
Proof.
  revert fields. induction attrs as [ | attr attrs IH]; intros fields H;
    cbn [fold_left]; [assumption | ].
  apply IH. destruct attr as [ | | | | | | a]; try assumption.
  unfold field_step. destruct (truthy (name_of (PDict a))); [ | assumption].
  apply (set_item_values (fun v => is_str v "operation" = false));
    [assumption | apply resolved_type_not_operation].
Qed.

Lemma filter_none {A} (f : A -> bool) (l : list A) :
  Forall (fun x => f x = false) l -> filter f l = [].
Proof.
  induction 1 as [ | x l Hx _ IH]; cbn; [reflexivity | ]. now rewrite Hx.
Qed.

Lemma fields_keys (d : dict) :
  map fst (fields_of d) = distinct_keys (usable_names d).
Proof. unfold fields_of. now rewrite keys_fold. Qed.

Lemma get_after_fold (post : list pyval) (fields : dict) (s : string) :
  Forall (fun a' => key_eqb (PStr s) (name_of a') = false) post ->
  dict_get (fold_left field_step post fields) (PStr s) = dict_get fields (PStr s).
Proof.
  revert fields. induction post as [ | attr post IH]; intros fields H;
    cbn [fold_left]; [reflexivity | ].
  inversion H as [ | ? ? Hattr Hpost]; subst. rewrite (IH _ Hpost).
  destruct attr as [ | | | | | | a]; try reflexivity.
  unfold field_step. destruct (truthy (name_of (PDict a))); [ | reflexivity].
  now apply dict_get_set_other_str.
Qed.

Lemma unnamed_fold (attrs : list pyval) (fields : dict) :
  forallb (fun attr => descriptor_ok attr && negb (truthy (name_of attr))) attrs = true ->
  fold_left field_step attrs fields = fields.
Proof.
  revert fields. induction attrs as [ | attr attrs IH]; intros fields H;
    cbn [fold_left forallb] in *; [reflexivity | ].
  apply andb_prop in H as [H1 H2]. apply andb_prop in H1 as [_ H1].
  rewrite <- (IH fields H2) at 2. f_equal.
  destruct attr as [ | | | | | | a]; try reflexivity.
  unfold field_step. apply negb_true_iff in H1. now rewrite H1.
Qed.

Lemma zero_usable_fields (d : dict) :
  zero_usable_attributes d = true ->
  forallb descriptor_ok (attributes_of d) = true /\ fields_of d = [].
Proof.
  unfold zero_usable_attributes, fields_of, attributes_of.
  destruct (dict_get d (PStr "attributes")) as [[ | | | | | attrs | ] | ];
    try (intros _; split; reflexivity).
  intros H. split; [ | now apply unnamed_fold].
  rewrite forallb_forall in *. intros x Hx. specialize (H x Hx).
  now apply andb_prop in H as [H _].
Qed.

End SchemaFacts.

(** ** The claims about the extractor *)

Section ExtractorClaims.
Import Py Extract Spec ExtractFacts SchemaFacts.

(** C1. A descriptor with a non-empty name gets the type that the
    case-insensitive lookup of [datatype] in the fixed mapping gives, else
    that of [logicalDatatype], else [string] ([resolved_type]): the loop
    stores that type under the name, and the extracted field map holds it
    when no later descriptor bears the name and the name is not
    [operation]. *)
Theorem resolved_type_of_descriptor :
  forall (d : dict) (pre post : list pyval) (a : dict) (s : string),
    document_ok d = true ->
    attributes_of d = (pre ++ PDict a :: post)%list ->
    name_of (PDict a) = PStr s ->
    truthy (PStr s) = true ->
    (forall fields,
        add_attribute fields (PDict a) =
        Ok (set_item fields (PStr s) (PStr (resolved_type a))))
    /\ ((s =? "operation")%string = false ->
        forallb (fun a' => negb (key_eqb (PStr s) (name_of a'))) post = true ->
        exists fields,
          extract_schema_from_json (PDict d) =
          Ok (table_name_of d, entity_key_of d,
              PDict [(table_name_of d, PDict fields)])
          /\ dict_get fields (PStr s) = Some (PStr (resolved_type a))).
Proof.
  intros d pre post a s Hd Hattrs Hname Hs.
  assert (Ha : descriptor_ok (PDict a) = true).
  { unfold document_ok in Hd. apply andb_prop in Hd as [_ Hd].
    rewrite forallb_forall in Hd. apply Hd. rewrite Hattrs.
    apply in_or_app. right. now left. }
  split.
  - intros fields. rewrite (add_attribute_ok _ _ Ha).
    unfold field_step. now rewrite Hname, Hs.
  - intros Hop Hpost. exists (finish_fields (fields_of d)).
    split; [now apply extract_ok | ].
    assert (G : dict_get (fields_of d) (PStr s) = Some (PStr (resolved_type a))).
    { unfold fields_of. rewrite Hattrs, fold_left_app. cbn [fold_left].
      rewrite get_after_fold.
      - unfold field_step. rewrite Hname, Hs. apply dict_get_set_same_str.
      - rewrite forallb_forall in Hpost. apply Forall_forall.
        intros x Hx. specialize (Hpost x Hx). now apply negb_true_iff in Hpost. }
    unfold finish_fields. destruct (fields_of d) as [ | kv rest] eqn:F;
      [discriminate | ].
    rewrite dict_get_set_other_str; [assumption | ].
    cbn. assumption.
Qed.

Lemma resolved_type_of_descriptor_witness :
  document_ok doc_customers = true
  /\ (forall fields,
        add_attribute fields
          (PDict [(PStr "name", PStr "customer_id"); (PStr "datatype", PStr "INTEGER")]) =
        Ok (set_item fields (PStr "customer_id") (PStr "integer")))
  /\ exists fields,
        extract_schema_from_json (PDict doc_customers) =
        Ok (PStr "Cust", PStr "E1", PDict [(PStr "Cust", PDict fields)])
        /\ dict_get fields (PStr "customer_id") = Some (PStr "integer").
Proof.
  pose proof (resolved_type_of_descriptor doc_customers []
    [PDict [(PStr "name", PStr "name"); (PStr "datatype", PStr "STRING")]]
    [(PStr "name", PStr "customer_id"); (PStr "datatype", PStr "INTEGER")]
    "customer_id" eq_refl eq_refl eq_refl eq_refl) as [H1 H2].
  split; [reflexivity | ]. split; [exact H1 | ].
  exact (H2 eq_refl eq_refl).
Defined.

(** C2, as stated, fails on the code.  A document whose only descriptor
    has an empty name has one attribute and no usable name, and its field
    map has the two entries [key] and [operation], not one.  A document
    with a descriptor named [operation] has two distinct names and a field
    map of two entries, not three, with [operation] first. *)
Lemma field_count_counterexample :
  (document_ok doc_unnamed = true /\ document_ok doc_operation = true)
  /\ (attributes_of doc_unnamed <> []
   /\ extract_schema_from_json (PDict doc_unnamed) =
      Ok (PStr "T", PStr "default_entity", PDict [(PStr "T", PDict default_fields)])
   /\ List.length default_fields
      <> S (List.length (distinct_keys (usable_names doc_unnamed))))
  /\ (extract_schema_from_json (PDict doc_operation) =
      Ok (PStr "T", PStr "default_entity",
          PDict [(PStr "T", PDict [ (PStr "operation", PStr "operation");
                                    (PStr "x", PStr "string") ])])
      /\ 2%nat <> S (List.length (distinct_keys (usable_names doc_operation)))).
Proof.
  repeat split; try reflexivity; vm_compute; discriminate.
Qed.

(** C2, amended.  For a document of the data model with at least one
    non-empty attribute name and no attribute named [operation], the field
    map has the distinct non-empty names in order of first occurrence,
    then [operation]: one entry more than there are distinct names, and
    [operation] is the one field of type [operation]. *)
Theorem field_map_keys :
  forall d : dict,
    document_ok d = true ->
    (0 < List.length (usable_names d))%nat ->
    forallb (fun n => negb (key_eqb n (PStr "operation"))) (usable_names d) = true ->
    exists fields,
      extract_schema_from_json (PDict d) =
      Ok (table_name_of d, entity_key_of d, PDict [(table_name_of d, PDict fields)])
      /\ map fst fields = (distinct_keys (usable_names d) ++ [PStr "operation"])%list
      /\ List.length fields = S (List.length (distinct_keys (usable_names d)))
      /\ filter (fun kv => is_str (snd kv) "operation") fields =
         [(PStr "operation", PStr "operation")].
Proof.
  intros d Hd Hlen Hop.
  exists (finish_fields (fields_of d)). split; [now apply extract_ok | ].
  assert (Hne : fields_of d <> []).
  { intros E. apply (f_equal (map fst)) in E. rewrite fields_keys in E.
    revert E. apply distinct_keys_nonempty. intros E. rewrite E in Hlen.
    cbn in Hlen. lia. }
  assert (Habs : existsb (fun k' => key_eqb k' (PStr "operation"))
                   (map fst (fields_of d)) = false).
  { rewrite fields_keys.
    destruct (existsb _ (distinct_keys (usable_names d))) eqn:E; [ | reflexivity].
    apply existsb_exists in E as (k & Hk & Ek).
    assert (F : Forall (fun n => key_eqb n (PStr "operation") = false)
                  (distinct_keys (usable_names d))).
    { apply dedup_forall; [ | constructor].
      apply Forall_forall. intros x Hx. rewrite forallb_forall in Hop.
      specialize (Hop x Hx). now apply negb_true_iff in Hop. }
    rewrite Forall_forall in F. specialize (F k Hk). congruence. }
  assert (Hfin : finish_fields (fields_of d) =
                 (fields_of d ++ [(PStr "operation", PStr "operation")])%list).
  { unfold finish_fields. destruct (fields_of d) as [ | kv rest] eqn:F;
      [congruence | ].
    now apply set_item_absent. }
  rewrite Hfin. repeat split.
  - now rewrite map_app, fields_keys.
  - rewrite length_app, <- fields_keys, length_map. cbn. lia.
  - rewrite filter_app, filter_none; [reflexivity | ].
    apply fields_values. constructor.
Qed.

Lemma field_map_keys_witness :
  document_ok doc_customers = true
  /\ exists fields,
       extract_schema_from_json (PDict doc_customers) =
       Ok (PStr "Cust", PStr "E1", PDict [(PStr "Cust", PDict fields)])
       /\ map fst fields = [PStr "customer_id"; PStr "name"; PStr "operation"]
       /\ List.length fields = 3%nat
       /\ filter (fun kv => is_str (snd kv) "operation") fields =
          [(PStr "operation", PStr "operation")].
Proof.
  split; [reflexivity | ].
  apply (field_map_keys doc_customers); [reflexivity | cbn; lia | reflexivity].
Defined.

(** C5, as stated, fails on the code: an empty [schemaKey] is the table
    name, where the claim falls back to [name]. *)
Lemma table_name_counterexample :
  exists t e s,
    extract_schema_from_json (PDict doc_empty_key) = Ok (t, e, s)
    /\ t = PStr ""
    /\ table_name_nonempty_rule doc_empty_key = PStr "n"
    /\ t <> table_name_nonempty_rule doc_empty_key.
Proof.
  exists (PStr ""), (PStr "default_entity"), (PDict [(PStr "", PDict default_fields)]).
  split; [reflexivity | ]. split; [reflexivity | ]. split; [reflexivity | ].
  discriminate.
Qed.

(** C5, amended.  The table name is [schemaKey] whenever the key is
    present, empty or not, else [name] when present, else
    ["unknown_table"]; the entity key is [entityKey] when present, else
    ["default_entity"]. *)
Theorem table_name_and_entity_key :
  forall (d : dict) (t e s : pyval),
    extract_schema_from_json (PDict d) = Ok (t, e, s) ->
    t = table_name_of d /\ e = entity_key_of d.
Proof.
  intros d t e s H. pose proof (extract_inv _ _ H) as Hd.
  rewrite (extract_ok d Hd) in H. inversion H. split; reflexivity.
Qed.

Lemma table_name_and_entity_key_witness :
  extract_schema_from_json (PDict doc_empty_key) =
    Ok (PStr "", PStr "default_entity", PDict [(PStr "", PDict default_fields)])
  /\ PStr "" = table_name_of doc_empty_key
  /\ PStr "default_entity" = entity_key_of doc_empty_key.
Proof.
  split; [reflexivity | ].
  apply (table_name_and_entity_key doc_empty_key (PStr "") (PStr "default_entity")
           (PDict [(PStr "", PDict default_fields)])).
  reflexivity.
Defined.

(** C7. A document of the data model without a usable attribute (no
    [attributes] key, a value that is no list, or only descriptors without
    a name) has the field map [{key: string, operation: operation}]. *)
Theorem default_schema :
  forall d : dict,
    hashable (table_name_of d) = true ->
    zero_usable_attributes d = true ->
    extract_schema_from_json (PDict d) =
    Ok (table_name_of d, entity_key_of d,
        PDict [(table_name_of d, PDict default_fields)]).
Proof.
  intros d Ht Hz. apply zero_usable_fields in Hz as [Ha Hf].
  rewrite extract_ok.
  - unfold schema_of. now rewrite Hf.
  - unfold document_ok. now rewrite Ht, Ha.
Qed.

Lemma default_schema_witness :
  (hashable (table_name_of []) = true /\ zero_usable_attributes [] = true)
  /\ extract_schema_from_json (PDict []) =
     Ok (PStr "unknown_table", PStr "default_entity",
         PDict [(PStr "unknown_table", PDict default_fields)])
  /\ extract_schema_from_json (PDict [(PStr "attributes", PStr "none")]) =
     Ok (PStr "unknown_table", PStr "default_entity",
         PDict [(PStr "unknown_table", PDict default_fields)])
  /\ extract_schema_from_json (PDict doc_unnamed) =
     Ok (PStr "T", PStr "default_entity", PDict [(PStr "T", PDict default_fields)]).
Proof.
  split; [split; reflexivity | ]. split; [ | split].
  - apply (default_schema []); reflexivity.
  - apply (default_schema [(PStr "attributes", PStr "none")]); reflexivity.
  - apply (default_schema doc_unnamed); reflexivity.
Defined.

(** C8, as stated, fails on the code: a descriptor whose [datatype] is
    [null] makes the extractor raise. *)
Lemma extraction_raises_counterexample :
  extract_schema_from_json (PDict doc_null_datatype) =
  Raise (AttributeError "NoneType" "upper").
Proof. reflexivity. Qed.

(** C8, amended.  The extractor returns, with the defaults for what is
    absent, on every mapping whose table name can be a key and whose
    attributes, when a list, are mappings with [datatype] and
    [logicalDatatype] strings when present and a name that can be a key
    when not empty. *)
Theorem extraction_returns :
  forall d : dict,
    document_ok d = true ->
    exists schema,
      extract_schema_from_json (PDict d) =
      Ok (table_name_of d, entity_key_of d, schema).
Proof.
  intros d Hd. exists (schema_of d). now apply extract_ok.
Qed.

Lemma extraction_returns_witness :
  document_ok [(PStr "attributes", PInt 3); (PStr "name", PNone)] = true
  /\ exists schema,
       extract_schema_from_json
         (PDict [(PStr "attributes", PInt 3); (PStr "name", PNone)]) =
       Ok (PNone, PStr "default_entity", schema).
Proof.
  split; [reflexivity | ].
  apply (extraction_returns [(PStr "attributes", PInt 3); (PStr "name", PNone)]).
  reflexivity.
Defined.

End ExtractorClaims.

(** ** Facts about the synthesizer *)

Module SynthFacts.
Import Py Env PosixPath App SynthSpec ExtractFacts.

Lemma extends_refl (w : World) : extends w [] w.
Proof. unfold extends. rewrite app_nil_r. auto. Qed.

Lemma extends_trans (w1 w2 w3 : World) (e1 e2 : list event) :
  extends w1 e1 w2 -> extends w2 e2 w3 -> extends w1 (e1 ++ e2) w3.
Proof.
  intros (F1 & C1 & T1) (F2 & C2 & T2). repeat split.
  - congruence.
  - lia.
  - rewrite T2, T1. now rewrite app_assoc.
Qed.

Lemma extends_no_fault (w w' : World) (evs : list event) :
  extends w evs w' -> no_fault w -> no_fault w'.
Proof.
  intros (F & C & _) H k Hk. rewrite F. apply H. lia.
Qed.

Lemma extends_tick (w : World) : extends w [] (tick w).
Proof. unfold extends. cbn. rewrite app_nil_r. auto. Qed.

Lemma bind_ok {A B} (m : M A) (k : A -> M B) (w w1 : World) (a : A) :
  m w = (Ok a, w1) -> bind m k w = k a w1.
Proof. intros H. unfold bind. now rewrite H. Qed.

Lemma io_run (ev : event) (w : World) :
  no_fault w ->
  io ev w = (Ok tt, tick (record_event ev w))
  /\ extends w [ev] (tick (record_event ev w)).
Proof.
  intros H. unfold io. rewrite (H (calls w) (Nat.le_refl _)).
  split; [reflexivity | ]. unfold extends. cbn. auto.
Qed.

Lemma randint_range (x : Z) : 1 <= 1 + x mod (100 - 1 + 1) <= 100.
Proof.
  change (100 - 1 + 1) with 100.
  pose proof (Z.mod_pos_bound x 100 ltac:(lia)). lia.
Qed.

Lemma choices_run (population : string) (k : nat) (w : World) :
  exists s w', choices population k w = (Ok s, w') /\ extends w [] w'.
Proof.
  revert w. induction k as [ | k IH]; intros w; cbn [choices].
  - exists EmptyString, w. split; [reflexivity | apply extends_refl].
  - unfold bind at 1. unfold choice at 1.
    destruct (IH (tick w)) as (s & w' & E & X).
    unfold bind. rewrite E. eexists _, _. split; [reflexivity | ].
    apply (extends_trans w (tick w) w' [] []); [apply extends_tick | exact X].
Qed.

Lemma generate_value_ok (i : nat) (k ty : pyval) (w : World) :
  item_ok (k, ty) = true ->
  exists v w',
    generate_value i k ty w = (Ok v, w') /\ extends w [] w'
    /\ (forall s, k = PStr s -> is_str ty "integer" = true ->
        lower s = "customer_id" ->
        v = PStr (str_of_Z (Z.of_nat i + 1))).
Proof.
  unfold item_ok, generate_value. cbn [fst snd]. intros H.
  destruct (is_str ty "string") eqn:Tstr.
  - destruct k as [ | | | | s | | ];
      try (cbn in H; try rewrite andb_false_r in H; discriminate).
    cbn [py_lower]. unfold bind at 1, lift at 1.
    assert (Tint : is_str ty "integer" = false).
    { destruct ty; try reflexivity. cbn in *.
      apply String.eqb_eq in Tstr. now subst. }
    destruct (existsb _ _).
    + unfold bind, randint, ret. eexists _, _.
      split; [reflexivity | ]. split; [apply extends_tick | ].
      intros; congruence.
    + destruct (choices_run letters 8 w) as (s0 & w' & E & X).
      unfold bind. rewrite E. unfold ret. eexists _, _.
      split; [reflexivity | ]. split; [exact X | ]. intros; congruence.
  - destruct (is_str ty "integer") eqn:Tint.
    + destruct k as [ | | | | s | | ];
        try (cbn in H; try rewrite andb_false_r in H; discriminate).
      cbn [py_lower]. unfold bind at 1, lift at 1.
      destruct (lower s =? "customer_id")%string eqn:L.
      * unfold ret. eexists _, _. split; [reflexivity | ].
        split; [apply extends_refl | ]. intros; reflexivity.
      * unfold bind, randint, ret. eexists _, _.
        split; [reflexivity | ]. split; [apply extends_tick | ].
        intros s' E _ L'. inversion E; subst s'. rewrite L' in L. discriminate.
    + destruct (is_str ty "timestamp").
      * unfold bind, time_ms, ret. eexists _, _.
        split; [reflexivity | ]. split; [apply extends_tick | ].
        intros; discriminate.
      * destruct (is_str ty "operation"); unfold ret; eexists _, _;
          (split; [reflexivity | ]); (split; [apply extends_refl | ]);
          intros; discriminate.
Qed.

Lemma item_ok_hashable (item : pyval * pyval) :
  item_ok item = true -> hashable (fst item) = true.
Proof.
  unfold item_ok. destruct (fst item); try reflexivity;
    intros H; apply andb_prop in H as [H _]; exact H.
Qed.

Lemma dict_get_in (d : dict) (s : string) (v : pyval) :
  dict_get d (PStr s) = Some v -> In (PStr s, v) d.
Proof.
  induction d as [ | [k' v'] d IH]; cbn [dict_get]; [discriminate | ].
  destruct (key_eqb k' (PStr s)) eqn:E.
  - intros H. inversion H; subst. apply key_eqb_str_r in E. subst. now left.
  - intros H. right. auto.
Qed.

Lemma unique_in_get (d : dict) (s : string) (ty : pyval) :
  unique_keys d = true -> In (PStr s, ty) d -> dict_get d (PStr s) = Some ty.
Proof.
  induction d as [ | [k' v'] d IH]; cbn [unique_keys dict_get In]; [tauto | ].
  intros U HI. apply andb_prop in U as [U1 U2]. apply negb_true_iff in U1.
  destruct HI as [E | HI].
  - inversion E; subst. now rewrite key_eqb_str_refl.
  - destruct (key_eqb k' (PStr s)) eqn:E; [ | auto].
    apply key_eqb_str_r in E. subst k'.
    assert (X : existsb (fun kv => key_eqb (PStr s) (fst kv)) d = true).
    { apply existsb_exists. exists (PStr s, ty). split; [assumption | ].
      apply key_eqb_str_refl. }
    congruence.
Qed.

Section Runs.
Variable repr : pyval -> string.

Lemma record_loop (i : nat) (items : dict) :
  forallb item_ok items = true ->
  forall (record0 : dict) (w : World),
  exists record w',
    mfor items (generate_field i) record0 w = (Ok record, w')
    /\ extends w [] w'
    /\ (forall s, lower s = "customer_id" ->
        (forall ty, In (PStr s, ty) items -> is_str ty "integer" = true) ->
        (exists ty, In (PStr s, ty) items)
        \/ dict_get record0 (PStr s) = Some (PStr (str_of_Z (Z.of_nat i + 1))) ->
        dict_get record (PStr s) = Some (PStr (str_of_Z (Z.of_nat i + 1)))).
Proof.
  induction items as [ | [k ty] items IH]; intros Hok record0 w; cbn [mfor].
  - exists record0, w. split; [reflexivity | ]. split; [apply extends_refl | ].
    intros s _ _ [[ty []] | H]; exact H.
  - cbn [forallb] in Hok. apply andb_prop in Hok as [Hk Hrest].
    destruct (generate_value_ok i k ty w Hk) as (v & w1 & E & X1 & Hv).
    unfold bind at 1. unfold generate_field at 1. cbn [fst snd].
    unfold bind at 1. rewrite E. unfold lift, dict_set.
    pose proof (item_ok_hashable (k, ty) Hk) as Hh. cbn [fst] in Hh. rewrite Hh.
    destruct (IH Hrest (set_item record0 k v) w1) as (record & w' & E' & X2 & Hr).
    exists record, w'. split; [exact E' | ].
    split; [apply (extends_trans w w1 w' [] []); assumption | ].
    intros s Ls Hint Hsrc. apply (Hr s Ls).
    + intros ty' HI. apply (Hint ty'). now right.
    + assert (Hhead : key_eqb (PStr s) k = true ->
                      dict_get (set_item record0 k v) (PStr s)
                      = Some (PStr (str_of_Z (Z.of_nat i + 1)))).
      { intros Ek. apply key_eqb_str_l in Ek. subst k.
        rewrite dict_get_set_same_str. f_equal.
        apply (Hv s eq_refl); [ | assumption].
        apply (Hint ty). now left. }
      destruct Hsrc as [[ty' [HI | HI]] | H0].
      * inversion HI; subst. right. apply Hhead. apply key_eqb_str_refl.
      * left. now exists ty'.
      * right. destruct (key_eqb (PStr s) k) eqn:Ek; [now apply Hhead | ].
        now rewrite dict_get_set_other_str.
Qed.

Lemma generate_record_ok (i : nat) (items : dict) (w : World) :
  forallb item_ok items = true -> unique_keys items = true ->
  exists record w',
    generate_record i (PDict items) w = (Ok record, w')
    /\ extends w [] w' /\ record_ok items i record.
Proof.
  intros Hok Hu. destruct (record_loop i items Hok [] w) as (record & w' & E & X & H).
  exists record, w'. split; [exact E | ]. split; [exact X | ].
  intros s [Ls Hs]. apply (H s Ls).
  - intros ty HI. rewrite (unique_in_get items s ty Hu HI) in Hs.
    inversion Hs. reflexivity.
  - left. exists (PStr "integer"). now apply dict_get_in.
Qed.

Lemma generate_file_ok (table_name table_dir : string) (items : dict)
    (schema_key entity_key : pyval) (acc : list string) (i : nat) (w : World) :
  no_fault w -> forallb item_ok items = true -> unique_keys items = true ->
  exists tid record w',
    generate_file repr table_name table_dir (PDict items) schema_key entity_key
      acc i w
    = (Ok (acc ++ [join table_dir (file_name repr schema_key entity_key i)])%list, w')
    /\ extends w
         [WriteJson (join table_dir (file_name repr schema_key entity_key i))
            (envelope table_name tid record)] w'
    /\ 1 <= tid <= 100 /\ record_ok items i record.
Proof.
  intros Hf Hok Hu. unfold generate_file.
  unfold bind at 1. unfold randint at 1.
  destruct (generate_record_ok i items (tick w) Hok Hu) as (record & w1 & E & X1 & Hr).
  unfold bind at 1. rewrite E.
  assert (Hf1 : no_fault w1).
  { apply (extends_no_fault (tick w) w1 [] X1).
    apply (extends_no_fault w (tick w) [] (extends_tick w) Hf). }
  match goal with |- context [io ?ev] =>
    destruct (io_run ev w1 Hf1) as [Eio Xio] end.
  unfold bind. rewrite Eio. unfold ret.
  eexists _, record, _. split; [reflexivity | ].
  split; [ | split; [apply randint_range | exact Hr]].
  apply (extends_trans w w1 _ [] [_]); [ | exact Xio].
  apply (extends_trans w (tick w) w1 [] []); [apply extends_tick | exact X1].
Qed.

Lemma files_loop (table_name table_dir : string) (items : dict)
    (schema_key entity_key : pyval) :
  forallb item_ok items = true -> unique_keys items = true ->
  forall (n start : nat) (acc : list string) (w : World),
  no_fault w ->
  exists records w',
    mfor (seq start n)
      (generate_file repr table_name table_dir (PDict items) schema_key entity_key)
      acc w
    = (Ok (acc ++ map (fun i => join table_dir (file_name repr schema_key entity_key i))
                    (seq start n))%list, w')
    /\ extends w
         (map (zero_based_write repr table_name table_dir schema_key entity_key)
            (combine (seq start n) records)) w'
    /\ List.length records = n
    /\ Forall2 (fun i tr => 1 <= fst tr <= 100 /\ record_ok items i (snd tr))
         (seq start n) records.
Proof.
  intros Hok Hu. induction n as [ | n IH]; intros start acc w Hf; cbn [seq mfor map].
  - exists [], w. rewrite app_nil_r. split; [reflexivity | ].
    split; [apply extends_refl | ]. split; [reflexivity | constructor].
  - destruct (generate_file_ok table_name table_dir items schema_key entity_key
                acc start w Hf Hok Hu) as (tid & record & w1 & E & X1 & Htid & Hr).
    rewrite (bind_ok _ _ _ _ _ E).
    destruct (IH (S start)
                (acc ++ [join table_dir (file_name repr schema_key entity_key start)])%list
                w1 (extends_no_fault _ _ _ X1 Hf))
      as (records & w' & E' & X2 & Hlen & Hrecs).
    exists ((tid, record) :: records), w'. rewrite E'.
    split; [now rewrite <- app_assoc | ].
    split; [ | split; [cbn; now rewrite Hlen | constructor; [split | ]; assumption]].
    cbn [combine map]. apply (extends_trans w w1 w' [_] _ X1 X2).
Qed.

Lemma file_name_index (schema_key entity_key : pyval) (i : nat) :
  file_name repr schema_key entity_key i
  = indexed_file_name repr schema_key entity_key (S i).
Proof.
  unfold file_name, indexed_file_name.
  now rewrite Nat2Z.inj_succ, Z.add_1_r.
Qed.

Lemma combine_seq_shift {A B} (f g : nat -> A -> B) :
  (forall i a, f i a = g (S i) a) ->
  forall (l : list A) (start n : nat),
    map (fun ia => f (fst ia) (snd ia)) (combine (seq start n) l)
    = map (fun ia => g (fst ia) (snd ia)) (combine (seq (S start) n) l).
Proof.
  intros H l. induction l as [ | a l IH]; intros start [ | n]; cbn; try reflexivity.
  rewrite H. f_equal. apply IH.
Qed.

Lemma generate_table_ok (count : Z) (base_dir : string)
    (schema_key entity_key : pyval) (acc : list string) (item : pyval * pyval)
    (w : World) :
  no_fault w -> table_ok item = true ->
  exists records w',
    generate_table repr count base_dir schema_key entity_key acc item w
    = (Ok (acc ++ table_paths repr base_dir schema_key entity_key
                    (Z.to_nat count) (table_name_string item))%list, w')
    /\ extends w
         (table_events repr base_dir schema_key entity_key
            (table_name_string item) records) w'
    /\ table_run (Z.to_nat count) item records.
Proof.
  intros Hf Hok. destruct item as [[ | | | | t | | ] [ | | | | | | items]];
    try discriminate.
  cbn [table_ok] in Hok. apply andb_prop in Hok as [Hok Hu].
  unfold generate_table, table_name_string. cbn [fst snd].
  destruct (io_run (Makedirs (join base_dir t)) w Hf) as [E X1].
  rewrite (bind_ok _ _ _ _ _ E).
  destruct (files_loop t (join base_dir t) items schema_key entity_key Hok Hu
              (Z.to_nat count) 0%nat acc _ (extends_no_fault _ _ _ X1 Hf))
    as (records & w' & E' & X2 & Hlen & Hrecs).
  exists records, w'. rewrite E'. split; [ | split].
  - f_equal. f_equal. f_equal. unfold table_paths. rewrite <- seq_shift, map_map.
    apply map_ext. intros i. unfold indexed_path. now rewrite file_name_index.
  - unfold table_events. rewrite Hlen.
    apply (extends_trans w _ w' [_] _ X1).
    unfold zero_based_write in X2.
    rewrite (combine_seq_shift
               (fun i tr => WriteJson
                   (join (join base_dir t) (file_name repr schema_key entity_key i))
                   (envelope t (fst tr) (snd tr)))
               (fun i tr => WriteJson
                   (indexed_path repr base_dir schema_key entity_key t i)
                   (envelope t (fst tr) (snd tr)))) in X2.
    + exact X2.
    + intros i a. unfold indexed_path. now rewrite file_name_index.
  - split; assumption.
Qed.

Lemma tables_loop (count : Z) (base_dir : string) (schema_key entity_key : pyval)
    (tables : dict) :
  forallb table_ok tables = true ->
  forall (acc : list string) (w : World),
  no_fault w ->
  exists runs w',
    mfor tables (generate_table repr count base_dir schema_key entity_key) acc w
    = (Ok (acc ++ flat_map
                    (fun item => table_paths repr base_dir schema_key entity_key
                                   (Z.to_nat count) (table_name_string item))
                    tables)%list, w')
    /\ extends w (schema_events repr base_dir schema_key entity_key tables runs) w'
    /\ Forall2 (table_run (Z.to_nat count)) tables runs.
Proof.
  induction tables as [ | item tables IH]; intros Hok acc w Hf;
    cbn [mfor flat_map schema_events].
  - exists [], w. rewrite app_nil_r. split; [reflexivity | ].
    split; [apply extends_refl | constructor].
  - cbn [forallb] in Hok. apply andb_prop in Hok as [Hitem Hrest].
    destruct (generate_table_ok count base_dir schema_key entity_key acc item w
                Hf Hitem) as (records & w1 & E & X1 & Hrun).
    rewrite (bind_ok _ _ _ _ _ E).
    destruct (IH Hrest
                (acc ++ table_paths repr base_dir schema_key entity_key
                          (Z.to_nat count) (table_name_string item))%list
                w1 (extends_no_fault _ _ _ X1 Hf))
      as (runs & w' & E' & X2 & Hruns).
    exists (records :: runs), w'. rewrite E'.
    split; [now rewrite <- app_assoc | ].
    split; [ | now constructor].
    cbn [schema_events]. apply (extends_trans w w1 w' _ _ X1 X2).
Qed.

(** The run of [generate_random_transaction] on a canonical schema when
    no file-system call fails. *)
Lemma generate_random_transaction_run (tables : dict) (count : Z)
    (base_dir : string) (schema_key entity_key : pyval) (w : World) :
  forallb table_ok tables = true -> no_fault w ->
  exists runs w',
    generate_random_transaction repr (PDict tables) count base_dir
      schema_key entity_key w
    = (Ok (flat_map
             (fun item => table_paths repr base_dir schema_key entity_key
                            (Z.to_nat count) (table_name_string item))
             tables), w')
    /\ extends w
         (Makedirs base_dir
          :: schema_events repr base_dir schema_key entity_key tables runs) w'
    /\ Forall2 (table_run (Z.to_nat count)) tables runs.
Proof.
  intros Hok Hf. unfold generate_random_transaction.
  destruct (io_run (Makedirs base_dir) w Hf) as [E X1].
  rewrite (bind_ok _ _ _ _ _ E).
  destruct (tables_loop count base_dir schema_key entity_key tables Hok [] _
              (extends_no_fault _ _ _ X1 Hf)) as (runs & w' & E' & X2 & Hruns).
  exists runs, w'. rewrite E'. split; [reflexivity | ]. split; [ | exact Hruns].
  apply (extends_trans w _ w' [_] _ X1 X2).
Qed.

End Runs.

(** The schema the extractor returns for a typed document is canonical:
    the synthesizer's statements apply to it. *)
Lemma existsb_keys (f : pyval -> bool) (d : dict) :
  existsb (fun kv => f (fst kv)) d = existsb f (map fst d).
Proof.
  induction d as [ | kv d IH]; cbn; [reflexivity | ]. now rewrite IH.
Qed.

Lemma set_item_unique (d : dict) (k v : pyval) :
  unique_keys d = true -> unique_keys (set_item d k v) = true.
Proof.
  induction d as [ | [k' v'] d IH]; cbn [set_item unique_keys]; [reflexivity | ].
  intros U. apply andb_prop in U as [U1 U2].
  destruct (key_eqb k' k) eqn:E; cbn [unique_keys].
  - now rewrite U1, U2.
  - rewrite (IH U2), andb_true_r.
    rewrite existsb_keys in *. rewrite keys_set_item.
    destruct (existsb (fun k'0 => key_eqb k'0 k) (map fst d)); [exact U1 | ].
    rewrite existsb_app. apply negb_true_iff in U1. rewrite U1.
    cbn. now rewrite E.
Qed.

Lemma set_item_items (d : dict) (s : string) (v : pyval) :
  forallb item_ok d = true -> forallb item_ok (set_item d (PStr s) v) = true.
Proof.
  induction d as [ | [k' v'] d IH]; cbn [set_item forallb]; [reflexivity | ].
  intros H. apply andb_prop in H as [H1 H2].
  destruct (key_eqb k' (PStr s)) eqn:E; cbn [forallb].
  - apply key_eqb_str_r in E. subst k'. now rewrite H2.
  - now rewrite H1, (IH H2).
Qed.

Lemma fields_canonical (attrs : list pyval) (fields : dict) :
  forallb is_pstr (filter truthy (map Spec.name_of attrs)) = true ->
  forallb item_ok fields = true -> unique_keys fields = true ->
  forallb item_ok (fold_left Spec.field_step attrs fields) = true
  /\ unique_keys (fold_left Spec.field_step attrs fields) = true.
Proof.
  revert fields. induction attrs as [ | attr attrs IH]; intros fields Hn Hi Hu;
    cbn [fold_left map filter] in *; [now split | ].
  destruct attr as [ | | | | | | a]; try (apply IH; assumption).
  unfold Spec.field_step.
  change (Spec.name_of (PDict a)) with (get_default a (PStr "name") (PStr "")) in *.
  destruct (truthy (get_default a (PStr "name") (PStr ""))); [ | now apply IH].
  cbn [forallb] in Hn. apply andb_prop in Hn as [Hs Hn].
  destruct (get_default a (PStr "name") (PStr "")) as [ | | | | s | | ];
    try discriminate.
  apply IH; [assumption | now apply set_item_items | now apply set_item_unique].
Qed.

Lemma extracted_schema_canonical (d : dict) :
  typed_document d = true ->
  Extract.extract_schema_from_json (PDict d)
  = Ok (Spec.table_name_of d, Spec.entity_key_of d, Spec.schema_of d)
  /\ exists tables,
       Spec.schema_of d = PDict tables /\ forallb table_ok tables = true.
Proof.
  unfold typed_document. intros H.
  apply andb_prop in H as [H Hn]. apply andb_prop in H as [Hd Ht].
  split; [now apply extract_ok | ].
  exists [(Spec.table_name_of d, PDict (Extract.finish_fields (Spec.fields_of d)))].
  split; [reflexivity | ].
  destruct (fields_canonical (Spec.attributes_of d) [] Hn eq_refl eq_refl)
    as [Hi Hu].
  fold (Spec.fields_of d) in Hi, Hu.
  cbn [forallb]. rewrite andb_true_r. unfold table_ok.
  destruct (Spec.table_name_of d); try discriminate.
  unfold Extract.finish_fields.
  destruct (Spec.fields_of d) as [ | kv rest].
  - reflexivity.
  - now rewrite set_item_items, set_item_unique.
Qed.

Lemma written_app (a b : list event) :
  written (a ++ b) = (written a ++ written b)%list.
Proof. unfold written. apply flat_map_app. Qed.

Lemma written_writes {A} (p : A -> string) (v : A -> pyval) (l : list A) :
  written (map (fun x => WriteJson (p x) (v x)) l) = map (fun x => (p x, v x)) l.
Proof.
  induction l as [ | x l IH]; [reflexivity | ].
  cbn [map]. change (written (WriteJson (p x) (v x) :: ?r))
    with ((p x, v x) :: written r). now rewrite IH.
Qed.

Lemma map_fst_combine_seq {A B} (f : nat -> B) (l : list A) (start : nat) :
  map (fun ia => f (fst ia)) (combine (seq start (List.length l)) l)
  = map f (seq start (List.length l)).
Proof.
  revert start. induction l as [ | a l IH]; intros start; cbn; [reflexivity | ].
  now rewrite IH.
Qed.

Section Written.
Variable repr : pyval -> string.

Lemma written_table (base_dir : string) (schema_key entity_key : pyval)
    (t : string) (records : list (Z * dict)) :
  map fst (written (table_events repr base_dir schema_key entity_key t records))
  = table_paths repr base_dir schema_key entity_key (List.length records) t.
Proof.
  unfold table_events, table_paths.
  change (written (Makedirs ?p :: ?r)) with (written r).
  rewrite (written_writes
             (fun ir => indexed_path repr base_dir schema_key entity_key t (fst ir))
             (fun ir => envelope t (fst (snd ir)) (snd (snd ir)))).
  rewrite map_map. cbn [fst].
  apply (map_fst_combine_seq
           (indexed_path repr base_dir schema_key entity_key t) records 1).
Qed.

Lemma written_schema (base_dir : string) (schema_key entity_key : pyval)
    (n : nat) (tables : dict) (runs : list (list (Z * dict))) :
  Forall2 (table_run n) tables runs ->
  map fst (written (schema_events repr base_dir schema_key entity_key tables runs))
  = flat_map (fun item => table_paths repr base_dir schema_key entity_key n
                            (table_name_string item)) tables.
Proof.
  induction 1 as [ | item records tables runs [Hlen _] _ IH];
    cbn [schema_events flat_map]; [reflexivity | ].
  now rewrite written_app, map_app, written_table, IH, Hlen.
Qed.

End Written.

Lemma flat_map_nil {A B} (f : A -> list B) (l : list A) :
  (forall x, f x = []) -> flat_map f l = [].
Proof.
  intros H. induction l as [ | x l IH]; cbn; [reflexivity | ].
  now rewrite H, IH.
Qed.

End SynthFacts.

(** ** The claims about synthesis and materialization *)

Section SynthesisClaims.
Import Py Env PosixPath App SynthSpec ExtractFacts SynthFacts Scenario.

(** C3. For a canonical schema and a count [n], when no file-system call
    fails, [generate_random_transaction] returns, for each table in turn,
    the paths of the indices 1 to [n] in order; the files it writes are
    those paths, each holding one envelope, [n] per table; with [n = 0]
    it returns no path and writes no file. *)
Theorem envelopes_per_table :
  forall (repr : pyval -> string) (tables : dict) (n : nat) (base_dir : string)
         (schema_key entity_key : pyval) (w : World),
    forallb table_ok tables = true ->
    no_fault w ->
    exists runs w',
      generate_random_transaction repr (PDict tables) (Z.of_nat n) base_dir
        schema_key entity_key w
      = (Ok (flat_map
               (fun item => table_paths repr base_dir schema_key entity_key n
                              (table_name_string item))
               tables), w')
      /\ trace w'
         = (trace w ++ Makedirs base_dir
              :: schema_events repr base_dir schema_key entity_key tables runs)%list
      /\ Forall2 (fun item records => List.length records = n) tables runs
      /\ map fst (written (schema_events repr base_dir schema_key entity_key
                             tables runs))
         = flat_map
             (fun item => table_paths repr base_dir schema_key entity_key n
                            (table_name_string item))
             tables
      /\ (n = 0%nat ->
          flat_map
            (fun item => table_paths repr base_dir schema_key entity_key n
                           (table_name_string item))
            tables = []
          /\ written (schema_events repr base_dir schema_key entity_key
                        tables runs) = []).
Proof.
  intros repr tables n base_dir schema_key entity_key w Hok Hf.
  destruct (generate_random_transaction_run repr tables (Z.of_nat n) base_dir
              schema_key entity_key w Hok Hf) as (runs & w' & E & X & Hruns).
  rewrite Nat2Z.id in *.
  exists runs, w'. split; [exact E | ].
  split; [apply X | ].
  assert (W := written_schema repr base_dir schema_key entity_key n tables runs Hruns).
  split; [ | split; [exact W | ]].
  - clear -Hruns. induction Hruns as [ | ? ? ? ? [L _] _ IH]; constructor; assumption.
  - intros ->.
    assert (Z0 : flat_map
                  (fun item => table_paths repr base_dir schema_key entity_key 0
                                 (table_name_string item)) tables = []).
    { apply flat_map_nil. reflexivity. }
    split; [exact Z0 | ]. rewrite Z0 in W. now apply map_eq_nil in W.
Qed.

Lemma envelopes_per_table_witness :
  (forallb table_ok cust_tables = true /\ no_fault world0)
  /\ exists w',
       generate_random_transaction repr0 (PDict cust_tables) 2 "/tmp/data"
         (PStr "Cust") (PStr "E1") world0
       = (Ok ["/tmp/data/Cust/Cust_E1_file1.json";
              "/tmp/data/Cust/Cust_E1_file2.json"], w').
Proof.
  assert (F : no_fault world0) by (intros k _; reflexivity).
  split; [split; [reflexivity | exact F] | ].
  destruct (envelopes_per_table repr0 cust_tables 2 "/tmp/data" (PStr "Cust")
              (PStr "E1") world0 eq_refl F)
    as (runs & w' & E & _).
  exists w'. exact E.
Defined.

Lemma forall2_map {A B C} (R : A -> B -> Prop) (f : A -> C) (g : B -> C)
    (l1 : list A) (l2 : list B) :
  (forall a b, R a b -> g b = f a) ->
  Forall2 R l1 l2 -> map g l2 = map f l1.
Proof.
  intros H. induction 1 as [ | a b l1 l2 Hab _ IH]; cbn; [reflexivity | ].
  now rewrite (H a b Hab), IH.
Qed.

(** C6. For a canonical schema and a count [n], when no file-system call
    fails, the records written for a table hold, under every integer
    field whose lower-cased name is [customer_id], the texts of 1, 2, ...,
    [n] in the order of generation, whatever the random source draws. *)
Theorem customer_id_sequence :
  forall (repr : pyval -> string) (tables : dict) (n : nat) (base_dir : string)
         (schema_key entity_key : pyval) (w : World),
    forallb table_ok tables = true ->
    no_fault w ->
    exists runs w',
      generate_random_transaction repr (PDict tables) (Z.of_nat n) base_dir
        schema_key entity_key w
      = (Ok (flat_map
               (fun item => table_paths repr base_dir schema_key entity_key n
                              (table_name_string item))
               tables), w')
      /\ trace w'
         = (trace w ++ Makedirs base_dir
              :: schema_events repr base_dir schema_key entity_key tables runs)%list
      /\ Forall2
           (fun item records =>
              List.length records = n
              /\ forall s, customer_id_field (table_items item) s ->
                   map (fun tr => dict_get (snd tr) (PStr s)) records
                   = map (fun index => Some (PStr (str_of_Z (Z.of_nat index))))
                       (seq 1 n))
           tables runs.
Proof.
  intros repr tables n base_dir schema_key entity_key w Hok Hf.
  destruct (generate_random_transaction_run repr tables (Z.of_nat n) base_dir
              schema_key entity_key w Hok Hf) as (runs & w' & E & X & Hruns).
  rewrite Nat2Z.id in *.
  exists runs, w'. split; [exact E | ]. split; [apply X | ].
  clear -Hruns. induction Hruns as [ | item records tables runs [L R] _ IH];
    constructor; [ | assumption].
  split; [exact L | ]. intros s Hs.
  rewrite <- seq_shift, map_map.
  apply (forall2_map
           (fun i tr => 1 <= fst tr <= 100 /\ record_ok (table_items item) i (snd tr))
           (fun i => Some (PStr (str_of_Z (Z.of_nat (S i)))))
           (fun tr => dict_get (snd tr) (PStr s))); [ | exact R].
  intros i tr [_ Hrec]. rewrite (Hrec s Hs).
  now rewrite Nat2Z.inj_succ, Z.add_1_r.
Qed.

Lemma customer_id_sequence_witness :
  (forallb table_ok cust_tables = true /\ no_fault world0)
  /\ customer_id_field
       (table_items (PStr "Cust",
                     PDict [ (PStr "customer_id", PStr "integer");
                             (PStr "name", PStr "string");
                             (PStr "operation", PStr "operation") ]))
       "customer_id"
  /\ exists runs w',
       generate_random_transaction repr0 (PDict cust_tables) 2 "/tmp/data"
         (PStr "Cust") (PStr "E1") world0
       = (Ok ["/tmp/data/Cust/Cust_E1_file1.json";
              "/tmp/data/Cust/Cust_E1_file2.json"], w')
       /\ trace w'
          = (trace world0 ++ Makedirs "/tmp/data"
               :: schema_events repr0 "/tmp/data" (PStr "Cust") (PStr "E1")
                    cust_tables runs)%list
       /\ Forall2
            (fun item records =>
               List.length records = 2%nat
               /\ forall s, customer_id_field (table_items item) s ->
                    map (fun tr => dict_get (snd tr) (PStr s)) records
                    = [Some (PStr "1"); Some (PStr "2")])
            cust_tables runs.
Proof.
  assert (F : no_fault world0) by (intros k _; reflexivity).
  split; [split; [reflexivity | exact F] | ].
  split; [split; reflexivity | ].
  exact (customer_id_sequence repr0 cust_tables 2 "/tmp/data" (PStr "Cust")
           (PStr "E1") world0 eq_refl F).
Defined.

(** The run of the scenario of section 8: two files for [Cust], with
    [customer_id] ["1"] and ["2"] and the fixed operation value. *)
Example customers_scenario :
  let run := generate_random_transaction repr0 (PDict cust_tables) 2 "/tmp/data"
               (PStr "Cust") (PStr "E1") world0 in
  fst run = Ok ["/tmp/data/Cust/Cust_E1_file1.json";
                "/tmp/data/Cust/Cust_E1_file2.json"]
  /\ map (fun pv =>
            match snd pv with
            | PDict data =>
                match dict_get data (PStr "repeatedMessages") with
                | Some (PDict messages) => dict_get messages (PStr "Cust")
                | _ => None
                end
            | _ => None
            end)
       (written (trace (snd run)))
     = [ Some (PList [PDict [ (PStr "customer_id", PStr "1");
                              (PStr "name", PStr "hSDoZKvg");
                              (PStr "operation", operation_value) ]]);
         Some (PList [PDict [ (PStr "customer_id", PStr "2");
                              (PStr "name", PStr "nYJufQBm");
                              (PStr "operation", operation_value) ]]) ].
Proof. split; vm_compute; reflexivity. Qed.

(** C4. The code does not do what the claim says.  The handler
    materializes under [/tmp/data], and [create_zip_archive] takes the
    path relative to [data] in the working directory: run from
    [/var/task], the file [/tmp/data/Cust/Cust_E1_file1.json] is stored as
    [../../../tmp/data/Cust/Cust_E1_file1.json], not as
    [Cust/Cust_E1_file1.json]; the two agree when the working directory is
    [/tmp]. *)
Theorem archive_name_of_materialized_file :
  let file := indexed_path repr0 output_dir (PStr "Cust") (PStr "E1") "Cust" 1 in
  let run := create_zip_archive [file] "generated_data.zip" world0 in
  file = "/tmp/data/Cust/Cust_E1_file1.json"
  /\ fst run = Ok "downloads/generated_data.zip"
  /\ trace (snd run)
     = [ Makedirs "downloads"; ZipOpen "downloads/generated_data.zip";
         ZipWrite file "../../../tmp/data/Cust/Cust_E1_file1.json";
         ZipClose "downloads/generated_data.zip" ]
  /\ zip_entry_name "../../../tmp/data/Cust/Cust_E1_file1.json"
     = "../../../tmp/data/Cust/Cust_E1_file1.json"
  /\ relpath "/var/task" file output_dir = Some "Cust/Cust_E1_file1.json"
  /\ relpath "/tmp" file "data" = Some "Cust/Cust_E1_file1.json".
Proof. repeat split; vm_compute; reflexivity. Qed.

End SynthesisClaims.

(** ** Facts about the handler *)

Module DriverFacts.
Import Py Env PosixPath App SynthSpec DriverSpec SynthFacts.

Lemma bind_inv {A B} (m : M A) (k : A -> M B) (w w' : World) (b : B) :
  bind m k w = (Ok b, w') ->
  exists a w1, m w = (Ok a, w1) /\ k a w1 = (Ok b, w').
Proof.
  unfold bind. destruct (m w) as [[a | e] w1]; [ | discriminate].
  intros H. now exists a, w1.
Qed.

Lemma run_eta {A} (p : result A * World) (a : A) :
  fst p = Ok a -> p = (Ok a, snd p).
Proof. destruct p. cbn. now intros ->. Qed.

Lemma io_inv (ev : event) (w w' : World) (u : unit) :
  io ev w = (Ok u, w') -> trace w' = (trace w ++ [ev])%list /\ cwd w' = cwd w.
Proof.
  unfold io. destruct (io_fault w (calls w)); [discriminate | ].
  intros H. inversion H. split; reflexivity.
Qed.

Lemma produced_app (a b : list (result (list string))) :
  produced (a ++ b) = (produced a ++ produced b)%list.
Proof. unfold produced. apply flat_map_app. Qed.

Section Runs.
Variable repr : pyval -> string.
Variable count : Z.

Lemma outcomes_app (a b : list (string * string)) (w : World) :
  document_outcomes repr count (a ++ b) w
  = (fst (document_outcomes repr count a w)
       ++ fst (document_outcomes repr count b
                 (snd (document_outcomes repr count a w))),
     snd (document_outcomes repr count b
            (snd (document_outcomes repr count a w))))%list.
Proof.
  revert w. induction a as [ | [root file] a IH]; intros w;
    cbn [app document_outcomes fst snd].
  - now destruct (document_outcomes repr count b w).
  - destruct (process_document repr (join root file) count w) as [[files | e] w1].
    + rewrite IH. destruct (document_outcomes repr count a w1) as [o1 w2].
      reflexivity.
    + rewrite IH.
      destruct (document_outcomes repr count a
                  (record_event (Print (Traceback e))
                     (record_event (Print (ErrorProcessing file e)) w1)))
        as [o1 w2].
      reflexivity.
Qed.


Lemma walked_files_loop (root : string) (files : list string)
    (acc : list string) (w : World) :
  let outcomes :=
    document_outcomes repr count
      (map (fun file => (root, file))
         (filter (fun file => endswith (lower file) ".json") files)) w in
  mfor files (process_walked_file repr count root) acc w
  = (Ok (acc ++ produced (fst outcomes))%list, snd outcomes).
Proof.
  revert acc w. induction files as [ | file files IH]; intros acc w;
    cbn [mfor filter map].
  - cbn. now rewrite app_nil_r.
  - unfold bind at 1. unfold process_walked_file at 1.
    destruct (endswith (lower file) ".json").
    + cbn [map document_outcomes]. unfold try_except, bind at 1.
      destruct (process_document repr (join root file) count w)
        as [[generated | e] w1].
      * unfold ret at 1. rewrite IH. cbn zeta.
        destruct (document_outcomes repr count _ w1) as [outs w2].
        cbn [fst snd produced flat_map]. now rewrite <- app_assoc.
      * unfold bind, print, ret. rewrite IH. cbn zeta.
        match goal with |- context [document_outcomes repr count ?d ?w2] =>
          destruct (document_outcomes repr count d w2) as [outs w3] end.
        reflexivity.
    + unfold ret at 1. apply IH.
Qed.

Lemma container_loop (listing : list (string * list string * list string))
    (acc : list string) (w : World) :
  let outcomes := document_outcomes repr count (container_documents listing) w in
  mfor listing
    (fun all_generated_files entry =>
       let '(root, _, files) := entry in
       mfor files (process_walked_file repr count root) all_generated_files)
    acc w
  = (Ok (acc ++ produced (fst outcomes))%list, snd outcomes).
Proof.
  revert acc w. induction listing as [ | [[root dirs] files] listing IH];
    intros acc w; cbn [mfor container_documents flat_map].
  - cbn. now rewrite app_nil_r.
  - unfold bind at 1. rewrite walked_files_loop. cbn zeta. cbn [fst snd].
    rewrite IH. cbn zeta. rewrite outcomes_app. cbn [fst snd].
    now rewrite produced_app, app_assoc.
Qed.

End Runs.

Lemma archived_app (a b : list event) :
  archived (a ++ b) = (archived a ++ archived b)%list.
Proof. unfold archived. apply flat_map_app. Qed.

Lemma archive_loop (files : list string) (w w' : World) (u : unit) :
  mfor files (fun _ file => archive_file file) tt w = (Ok u, w') ->
  exists evs, trace w' = (trace w ++ evs)%list /\ archived evs = files.
Proof.
  revert w. induction files as [ | file files IH]; intros w; cbn [mfor].
  - unfold ret. intros H. inversion H. exists []. now rewrite app_nil_r.
  - intros H. apply bind_inv in H as ([] & w1 & H1 & H2).
    unfold archive_file in H1.
    destruct (relpath (cwd w) file "data") as [arcname | ]; [ | discriminate].
    apply io_inv in H1 as [T1 _].
    destruct (IH w1 H2) as (evs & T2 & A).
    exists (ZipWrite file arcname :: evs). split.
    + rewrite T2, T1. now rewrite <- app_assoc.
    + change (archived (ZipWrite file arcname :: evs)) with (file :: archived evs).
      now rewrite A.
Qed.

Lemma create_zip_archive_inv (files : list string) (archive_name : string)
    (w w' : World) (zip_path : string) :
  create_zip_archive files archive_name w = (Ok zip_path, w') ->
  exists evs, trace w' = (trace w ++ evs)%list /\ archived evs = files.
Proof.
  unfold create_zip_archive. intros H.
  apply bind_inv in H as ([] & w1 & H1 & H).
  apply bind_inv in H as ([] & w2 & H2 & H).
  apply bind_inv in H as ([] & w3 & H3 & H).
  apply io_inv in H1 as [T1 _]. apply io_inv in H2 as [T2 _].
  unfold ret in H. inversion H; subst w3. clear H.
  unfold try_finally in H3.
  destruct (mfor files (fun _ file => archive_file file) tt w2)
    as [[u | e] w4] eqn:L.
  - destruct (io (ZipClose (join "downloads" archive_name)) w4)
      as [[u' | e] w5] eqn:C; [ | discriminate].
    inversion H3; subst w5. apply io_inv in C as [T4 _].
    apply archive_loop in L as (evs & T3 & A).
    exists ([Makedirs "downloads"] ++ [ZipOpen (join "downloads" archive_name)]
            ++ evs ++ [ZipClose (join "downloads" archive_name)])%list.
    split.
    + rewrite T4, T3, T2, T1. now rewrite <- !app_assoc.
    + rewrite !archived_app, A. cbn [archived flat_map app]. now rewrite app_nil_r.
  - destruct (io (ZipClose (join "downloads" archive_name)) w4) as [[u' | e'] w5];
      discriminate.
Qed.

Section Handler.
Variable repr : pyval -> string.

Lemma shutil_rmtree_raises (path : string) (w : World) :
  shutil_rmtree path w = (Raise (NameError "shutil"), w).
Proof. reflexivity. Qed.

Lemma generate_body_raises (f : Upload) (count : Z) (w : World) :
  exists e w', generate_body repr f count w = (Raise e, w').
Proof.
  unfold generate_body, bind.
  destruct (collect_files repr f count w) as [[files | e] w1];
    [ | now exists e, w1].
  destruct (create_zip_archive files "generated_data.zip" w1) as [[zp | e] w2];
    [ | now exists e, w2].
  rewrite shutil_rmtree_raises. now eexists _, _.
Qed.

Lemma generate_body_after_archive (f : Upload) (count : Z) (w w1 w2 : World)
    (files : list string) (zip_path : string) :
  collect_files repr f count w = (Ok files, w1) ->
  create_zip_archive files "generated_data.zip" w1 = (Ok zip_path, w2) ->
  generate_body repr f count w = (Raise (NameError "shutil"), w2).
Proof.
  intros H1 H2. unfold generate_body, bind. rewrite H1, H2.
  now rewrite shutil_rmtree_raises.
Qed.

Lemma generate_handler_returns (e : exn) (w : World) :
  exists resp w',
    generate_handler e w = (Ok resp, w') /\ is_success resp = false.
Proof.
  destruct e; cbn; eexists _, _; split; reflexivity.
Qed.

Lemma generate_try_returns (f : Upload) (count : Z) (w : World) :
  exists resp w',
    generate_try repr f count w = (Ok resp, w') /\ is_success resp = false.
Proof.
  unfold generate_try, try_except.
  destruct (generate_body_raises f count w) as (e & w1 & E). rewrite E.
  apply generate_handler_returns.
Qed.

End Handler.

End DriverFacts.


(** ** The claims about the handler *)

Section DriverClaims.
Import Py Env PosixPath App SynthSpec DriverSpec SynthFacts DriverFacts Scenario.

(** C10. Once the archive is built, the handler looks up the name
    [shutil], which the module never binds: the [NameError] is caught by
    the generic branch, which prints the traceback and answers with the
    error; no run of the handler answers with the success response. *)
Theorem success_response_is_never_returned :
  forall repr : pyval -> string,
    (forall f count w files w1 zip_path w2,
        collect_files repr f count w = (Ok files, w1) ->
        create_zip_archive files "generated_data.zip" w1 = (Ok zip_path, w2) ->
        generate_try repr f count w
        = (Ok (ErrorOf (NameError "shutil")),
           record_event (Print (Traceback (NameError "shutil"))) w2))
    /\ (forall req w resp w',
          generate repr req w = (Ok resp, w') -> is_success resp = false).
Proof.
  intros repr. split.
  - intros f count w files w1 zip_path w2 H1 H2.
    unfold generate_try, try_except.
    now rewrite (generate_body_after_archive repr f count w w1 w2 files zip_path H1 H2).
  - intros req w resp w'. unfold generate.
    destruct (schema_file req) as [f | ].
    + destruct (filename f =? "")%string.
      * unfold ret. intros H. inversion H. reflexivity.
      * intros H. apply bind_inv in H as (count & wa & _ & H).
        apply bind_inv in H as ([] & wb & _ & H).
        apply bind_inv in H as ([] & wc & _ & H).
        destruct (generate_try_returns repr f count wc) as (r & wd & E & S).
        rewrite E in H. inversion H. subst. exact S.
    + unfold ret. intros H. inversion H. reflexivity.
Qed.

Lemma success_response_is_never_returned_witness :
  let files := ["/tmp/data/Cust/Cust_E1_file1.json";
                "/tmp/data/Cust/Cust_E1_file2.json"] in
  let w1 := snd (collect_files repr0 (mkUpload "cust.json") 2 world_single) in
  let w2 := snd (create_zip_archive files "generated_data.zip" w1) in
  (collect_files repr0 (mkUpload "cust.json") 2 world_single = (Ok files, w1)
   /\ create_zip_archive files "generated_data.zip" w1
      = (Ok "downloads/generated_data.zip", w2)
   /\ generate repr0 request_single world_single
      = (Ok (ErrorOf (NameError "shutil")),
         snd (generate repr0 request_single world_single)))
  /\ generate_try repr0 (mkUpload "cust.json") 2 world_single
     = (Ok (ErrorOf (NameError "shutil")),
        record_event (Print (Traceback (NameError "shutil"))) w2)
  /\ is_success (ErrorOf (NameError "shutil")) = false.
Proof.
  cbn zeta.
  destruct (success_response_is_never_returned repr0) as (H1 & H2).
  assert (A : collect_files repr0 (mkUpload "cust.json") 2 world_single
              = (Ok ["/tmp/data/Cust/Cust_E1_file1.json";
                     "/tmp/data/Cust/Cust_E1_file2.json"],
                 snd (collect_files repr0 (mkUpload "cust.json") 2 world_single))).
  { apply run_eta. vm_compute. reflexivity. }
  assert (B : create_zip_archive
                ["/tmp/data/Cust/Cust_E1_file1.json";
                 "/tmp/data/Cust/Cust_E1_file2.json"] "generated_data.zip"
                (snd (collect_files repr0 (mkUpload "cust.json") 2 world_single))
              = (Ok "downloads/generated_data.zip",
                 snd (create_zip_archive
                        ["/tmp/data/Cust/Cust_E1_file1.json";
                         "/tmp/data/Cust/Cust_E1_file2.json"] "generated_data.zip"
                        (snd (collect_files repr0 (mkUpload "cust.json") 2
                                world_single))))).
  { apply run_eta. vm_compute. reflexivity. }
  assert (C : generate repr0 request_single world_single
              = (Ok (ErrorOf (NameError "shutil")),
                 snd (generate repr0 request_single world_single))).
  { apply run_eta. vm_compute. reflexivity. }
  split; [split; [exact A | split; [exact B | exact C]] | ].
  split; [exact (H1 _ _ _ _ _ _ _ A B) | exact (H2 _ _ _ _ C)].
Defined.

(** The run of the handler on the container of the scenario: the trace
    ends with the archive of the files of the first and third documents
    and the traceback of the [NameError]. *)
Example container_scenario :
  let run := generate repr0 request_container world_container in
  fst run = Ok (ErrorOf (NameError "shutil"))
  /\ archived (trace (snd run))
     = ["/tmp/data/Cust/Cust_E1_file1.json";
        "/tmp/data/Ord/Ord_default_entity_file1.json"]
  /\ map fst (written (trace (snd run)))
     = ["/tmp/data/Cust/Cust_E1_file1.json";
        "/tmp/data/Ord/Ord_default_entity_file1.json"]
  /\ last (trace (snd run)) (Makedirs "")
     = Print (Traceback (NameError "shutil")).
Proof. repeat split; vm_compute; reflexivity. Qed.

End DriverClaims.

(** ** Further facts about the extractor *)

Module ExtractorExtras.
Import Py Env Extract App Spec SynthSpec ExtraSpec ExtractFacts SchemaFacts SynthFacts.

Lemma fields_unique (attrs : list pyval) (fields : dict) :
  unique_keys fields = true ->
  unique_keys (fold_left field_step attrs fields) = true.
Proof.
  revert fields. induction attrs as [ | attr attrs IH]; intros fields H;
    cbn [fold_left]; [assumption | ].
  apply IH. destruct attr as [ | | | | | | a]; try assumption.
  unfold field_step. destruct (truthy (name_of (PDict a))); [ | assumption].
  now apply set_item_unique.
Qed.

Lemma finish_fields_unique (fields : dict) :
  unique_keys fields = true -> unique_keys (finish_fields fields) = true.
Proof.
  intros H. unfold finish_fields. destruct fields as [ | kv rest].
  - reflexivity.
  - now apply set_item_unique.
Qed.

Lemma finish_fields_operation (fields : dict) :
  dict_get (finish_fields fields) (PStr "operation") = Some (PStr "operation").
Proof. unfold finish_fields. apply dict_get_set_same_str. Qed.

Lemma lookup_type_tags (tag : option pyval) (t : string) :
  lookup_type tag = Some t -> In (PStr t) type_tags.
Proof.
  unfold lookup_type.
  destruct tag as [[ | | | | s | | ] | ]; try discriminate.
  unfold type_table. cbn -[same_ignoring_case type_tags].
  repeat match goal with
    | |- context [same_ignoring_case s ?k] => destruct (same_ignoring_case s k)
    end; cbn -[type_tags]; intros H; inversion H; cbn; auto.
Qed.

Lemma resolved_type_tags (a : dict) : In (PStr (resolved_type a)) type_tags.
Proof.
  unfold resolved_type.
  destruct (lookup_type (dict_get a (PStr "datatype"))) eqn:E1;
    [now apply lookup_type_tags in E1 | ].
  destruct (lookup_type (dict_get a (PStr "logicalDatatype"))) eqn:E2;
    [now apply lookup_type_tags in E2 | cbn; auto].
Qed.

Lemma set_item_tags (P : pyval -> Prop) (d : dict) (k v : pyval) :
  Forall (fun kv => P (snd kv)) d -> P v ->
  Forall (fun kv => P (snd kv)) (set_item d k v).
Proof. apply set_item_values. Qed.

Lemma fields_tags (attrs : list pyval) (fields : dict) :
  Forall (fun kv => In (snd kv) type_tags) fields ->
  Forall (fun kv => In (snd kv) type_tags) (fold_left field_step attrs fields).
Proof.
  revert fields. induction attrs as [ | attr attrs IH]; intros fields H;
    cbn [fold_left]; [assumption | ].
  apply IH. destruct attr as [ | | | | | | a]; try assumption.
  unfold field_step. destruct (truthy (name_of (PDict a))); [ | assumption].
  apply (set_item_values (fun v => In v type_tags));
    [assumption | apply resolved_type_tags].
Qed.

Lemma finish_fields_tags (fields : dict) :
  Forall (fun kv => In (snd kv) type_tags) fields ->
  Forall (fun kv => In (snd kv) type_tags) (finish_fields fields).
Proof.
  intros H. unfold finish_fields.
  apply (set_item_values (fun v => In v type_tags)); [ | cbn; auto].
  destruct fields; [ | assumption].
  apply (set_item_values (fun v => In v type_tags)); [constructor | cbn; auto].
Qed.

(** X1. The extractor returns exactly on the mappings of the data model
    ([document_ok]), and then with the table name, the entity key and the
    schema of section 4.1; on every other value it raises. *)
Theorem extraction_returns_exactly :
  forall (json_data : pyval) (r : pyval * pyval * pyval),
    extract_schema_from_json json_data = Ok r
    <-> exists d, json_data = PDict d /\ document_ok d = true
                  /\ r = (table_name_of d, entity_key_of d, schema_of d).
Proof.
  intros json_data r. split.
  - destruct json_data as [ | | | | | | d]; try discriminate.
    intros H. exists d. pose proof (extract_inv d r H) as Hd.
    rewrite (extract_ok d Hd) in H. inversion H. auto.
  - intros (d & -> & Hd & ->). now apply extract_ok.
Qed.

(** X2. Whatever the extractor returns is a schema of one table, named by
    the returned table name, whose field map has pairwise different keys,
    maps [operation] to the type [operation], and holds no type besides
    the four tags. *)
Theorem extracted_field_map_invariant :
  forall (json_data t e s : pyval),
    extract_schema_from_json json_data = Ok (t, e, s) ->
    exists fields,
      s = PDict [(t, PDict fields)]
      /\ unique_keys fields = true
      /\ dict_get fields (PStr "operation") = Some (PStr "operation")
      /\ Forall (fun kv => In (snd kv) type_tags) fields.
Proof.
  intros json_data t e s H.
  destruct json_data as [ | | | | | | d]; try discriminate.
  pose proof (extract_inv d _ H) as Hd.
  rewrite (extract_ok d Hd) in H. inversion H; subst.
  exists (finish_fields (fields_of d)). split; [reflexivity | ].
  split; [ | split].
  - apply finish_fields_unique. now apply fields_unique.
  - apply finish_fields_operation.
  - apply finish_fields_tags. apply fields_tags. constructor.
Qed.

Lemma generate_value_not_none (i : nat) (k ty v : pyval) (w w' : World) :
  In ty type_tags ->
  generate_value i k ty w = (Ok v, w') -> v <> PNone.
Proof.
  intros Hty. unfold generate_value.
  destruct Hty as [<- | [<- | [<- | [<- | []]]]]; cbn [is_str String.eqb Ascii.eqb Bool.eqb andb].
  - destruct (py_lower k) as [name | e]; [ | discriminate].
    unfold bind at 1, lift at 1.
    destruct (existsb _ _).
    + unfold bind, randint, ret. intros H. inversion H. discriminate.
    + unfold bind. destruct (choices letters 8 w) as [[s0 | e] w1];
        [ | discriminate].
      unfold ret. intros H. inversion H. discriminate.
  - destruct (py_lower k) as [name | e]; [ | discriminate].
    unfold bind at 1, lift at 1.
    destruct (name =? "customer_id")%string.
    + unfold ret. intros H. inversion H. discriminate.
    + unfold bind, randint, ret. intros H. inversion H. discriminate.
  - unfold bind, time_ms, ret. intros H. inversion H. discriminate.
  - unfold ret. intros H. inversion H. discriminate.
Qed.

(** X3. The types of an extracted field map are among the four tags the
    synthesizer knows, so that no value generated for a field of an
    extracted schema is [None]. *)
Theorem extracted_types_are_generated :
  forall (json_data t e t' k ty v : pyval) (fields : dict) (i : nat)
         (w w' : World),
    extract_schema_from_json json_data = Ok (t, e, PDict [(t', PDict fields)]) ->
    In (k, ty) fields ->
    generate_value i k ty w = (Ok v, w') ->
    In ty type_tags /\ v <> PNone.
Proof.
  intros json_data t e t' k ty v fields i w w' H Hin Hv.
  destruct json_data as [ | | | | | | d]; try discriminate.
  pose proof (extract_inv d _ H) as Hd.
  rewrite (extract_ok d Hd) in H. inversion H; subst.
  assert (T : Forall (fun kv => In (snd kv) type_tags) (finish_fields (fields_of d))).
  { apply finish_fields_tags. apply fields_tags. constructor. }
  rewrite Forall_forall in T. specialize (T (k, ty) Hin). cbn [snd] in T.
  split; [exact T | ]. exact (generate_value_not_none i k ty v w w' T Hv).
Qed.

Lemma extracted_types_are_generated_witness :
  extract_schema_from_json (PDict doc_customers)
  = Ok (PStr "Cust", PStr "E1",
        PDict [(PStr "Cust",
                PDict [ (PStr "customer_id", PStr "integer");
                        (PStr "name", PStr "string");
                        (PStr "operation", PStr "operation") ])])
  /\ generate_value 0 (PStr "name") (PStr "string") Scenario.world0
     = (Ok (PStr "aLwhSDoZ"),
        snd (generate_value 0 (PStr "name") (PStr "string") Scenario.world0))
  /\ In (PStr "string") type_tags /\ PStr "aLwhSDoZ" <> PNone.
Proof.
  assert (A : generate_value 0 (PStr "name") (PStr "string") Scenario.world0
              = (Ok (PStr "aLwhSDoZ"),
                 snd (generate_value 0 (PStr "name") (PStr "string")
                        Scenario.world0))).
  { apply DriverFacts.run_eta. vm_compute. reflexivity. }
  split; [reflexivity | ]. split; [exact A | ].
  apply (extracted_types_are_generated (PDict doc_customers) (PStr "Cust")
           (PStr "E1") (PStr "Cust") (PStr "name") (PStr "string")
           (PStr "aLwhSDoZ")
           [ (PStr "customer_id", PStr "integer");
             (PStr "name", PStr "string");
             (PStr "operation", PStr "operation") ]
           0%nat Scenario.world0
           (snd (generate_value 0 (PStr "name") (PStr "string") Scenario.world0))
           eq_refl); [cbn; auto | exact A].
Defined.

Lemma extracted_field_map_invariant_witness :
  extract_schema_from_json (PDict doc_operation)
  = Ok (PStr "T", PStr "default_entity",
        PDict [(PStr "T", PDict [ (PStr "operation", PStr "operation");
                                  (PStr "x", PStr "string") ])])
  /\ exists fields,
       PDict [(PStr "T", PDict [ (PStr "operation", PStr "operation");
                                 (PStr "x", PStr "string") ])]
       = PDict [(PStr "T", PDict fields)]
       /\ unique_keys fields = true
       /\ dict_get fields (PStr "operation") = Some (PStr "operation")
       /\ Forall (fun kv => In (snd kv) type_tags) fields.
Proof.
  split; [reflexivity | ].
  apply (extracted_field_map_invariant (PDict doc_operation) (PStr "T")
           (PStr "default_entity")).
  reflexivity.
Defined.

(** X4. [logicalDatatype] is upper-cased even when [datatype] decides the
    type: a descriptor whose [logicalDatatype] is there and is no str makes
    the resolution, and so the loop, raise [AttributeError]. *)
Theorem logical_datatype_is_always_upper_cased :
  forall (fields a : dict) (v : pyval),
    str_or_absent a "datatype" = true ->
    dict_get a (PStr "logicalDatatype") = Some v ->
    is_pstr v = false ->
    resolve_datatype (PDict a) = Raise (AttributeError (type_name v) "upper")
    /\ add_attribute fields (PDict a)
       = Raise (AttributeError (type_name v) "upper").
Proof.
  intros fields a v Hd Hl Hv.
  assert (R : resolve_datatype (PDict a)
              = Raise (AttributeError (type_name v) "upper")).
  { destruct (tag_lookup a "datatype" Hd) as (s1 & E1 & _).
    unfold resolve_datatype, py_get. rewrite E1. cbn [rbind py_upper].
    unfold get_default. rewrite Hl.
    destruct v; try discriminate; reflexivity. }
  split; [exact R | ].
  unfold add_attribute. cbn [py_get rbind]. now rewrite R.
Qed.

Lemma logical_datatype_is_always_upper_cased_witness :
  let a := [ (PStr "name", PStr "id"); (PStr "datatype", PStr "INT");
             (PStr "logicalDatatype", PNone) ] in
  (str_or_absent a "datatype" = true
   /\ dict_get a (PStr "logicalDatatype") = Some PNone
   /\ is_pstr PNone = false)
  /\ resolve_datatype (PDict a) = Raise (AttributeError "NoneType" "upper")
  /\ add_attribute [] (PDict a) = Raise (AttributeError "NoneType" "upper").
Proof.
  cbn zeta. split; [repeat split | ].
  apply (logical_datatype_is_always_upper_cased []
           [ (PStr "name", PStr "id"); (PStr "datatype", PStr "INT");
             (PStr "logicalDatatype", PNone) ] PNone); reflexivity.
Defined.

End ExtractorExtras.

(** ** Further facts about the generated values *)

Module SynthExtras.
Import Py Env PosixPath Extract App Spec SynthSpec ExtraSpec.
Import ExtractFacts SchemaFacts SynthFacts DriverFacts.

Lemma letters_get (i : nat) :
  (i < 52)%nat -> exists c, String.get i letters = Some c /\ is_letter c = true.
Proof.
  intros H.
  do 52 (destruct i as [ | i]; [eexists; split; reflexivity | ]).
  lia.
Qed.

Lemma choice_letter (w : World) :
  exists c, choice letters w = (Ok c, tick w) /\ is_letter c = true.
Proof.
  unfold choice.
  assert (B : (Z.to_nat (random_raw w (calls w)
                         mod Z.of_nat (String.length letters)) < 52)%nat).
  { change (Z.of_nat (String.length letters)) with 52.
    pose proof (Z.mod_pos_bound (random_raw w (calls w)) 52 ltac:(lia)). lia. }
  destruct (letters_get _ B) as (c & E & L). rewrite E. now exists c.
Qed.

Lemma choices_letters (k : nat) (w : World) :
  exists t w',
    choices letters k w = (Ok t, w')
    /\ String.length t = k /\ all_letters t = true.
Proof.
  revert w. induction k as [ | k IH]; intros w; cbn [choices].
  - exists EmptyString, w. repeat split.
  - destruct (choice_letter w) as (c & E & L).
    rewrite (bind_ok _ _ _ _ _ E).
    destruct (IH (tick w)) as (t & w' & E' & Hlen & Hall).
    rewrite (bind_ok _ _ _ _ _ E'). unfold ret.
    exists (String c t), w'. split; [reflexivity | ].
    cbn [String.length all_letters]. now rewrite Hlen, L, Hall.
Qed.

(** X5. The value of a string field: for the names that lower-case to
    [sys_creation_date], [key] or [createdby] it is ["V"] and a number
    from 1 to 100, for any other name a text of 8 ASCII letters. *)
Theorem string_field_values :
  forall (i : nat) (s : string) (w : World),
    exists v w',
      generate_value i (PStr s) (PStr "string") w = (Ok v, w')
      /\ if existsb (String.eqb (lower s)) versioned_names
         then exists n, 1 <= n <= 100 /\ v = PStr ("V" ++ str_of_Z n)
         else exists t, v = PStr t /\ String.length t = 8%nat
                        /\ all_letters t = true.
Proof.
  intros i s w. unfold generate_value.
  cbn [is_str String.eqb Ascii.eqb Bool.eqb andb py_lower].
  unfold bind at 1, lift at 1. unfold versioned_names.
  destruct (existsb (String.eqb (lower s)) _).
  - unfold bind, randint, ret. eexists _, _. split; [reflexivity | ].
    eexists. split; [apply randint_range | reflexivity].
  - destruct (choices_letters 8 w) as (t & w' & E & Hlen & Hall).
    rewrite (bind_ok _ _ _ _ _ E). unfold ret.
    exists (PStr t), w'. split; [reflexivity | ]. now exists t.
Qed.

(** X6. The value of an integer field: for a name that lower-cases to
    [customer_id] it is the text of [i + 1] and the random source is not
    drawn from; for any other name it is the text of a number from 1 to
    100. *)
Theorem integer_field_values :
  forall (i : nat) (s : string) (w : World),
    exists v w',
      generate_value i (PStr s) (PStr "integer") w = (Ok v, w')
      /\ if (lower s =? "customer_id")%string
         then v = PStr (str_of_Z (Z.of_nat i + 1)) /\ w' = w
         else exists n, 1 <= n <= 100 /\ v = PStr (str_of_Z n).
Proof.
  intros i s w. unfold generate_value.
  cbn [is_str String.eqb Ascii.eqb Bool.eqb andb py_lower].
  unfold bind at 1, lift at 1.
  destruct (lower s =? "customer_id")%string.
  - unfold ret. eexists _, _. split; [reflexivity | ]. split; reflexivity.
  - unfold bind, randint, ret. eexists _, _. split; [reflexivity | ].
    eexists. split; [apply randint_range | reflexivity].
Qed.

Lemma unique_keys_keys (d1 d2 : dict) :
  map fst d1 = map fst d2 -> unique_keys d1 = unique_keys d2.
Proof.
  revert d2. induction d1 as [ | [k1 v1] d1 IH]; intros [ | [k2 v2] d2];
    cbn [map fst unique_keys]; try discriminate; [reflexivity | ].
  intros H. inversion H; subst. rewrite (IH d2 H2).
  rewrite !existsb_keys. now rewrite H2.
Qed.

Lemma unique_keys_head_absent (d rest : dict) (k v : pyval) :
  unique_keys (d ++ (k, v) :: rest)%list = true ->
  existsb (fun k' => key_eqb k' k) (map fst d) = false.
Proof.
  induction d as [ | [k' v'] d IH]; cbn [app map fst existsb unique_keys];
    [reflexivity | ].
  intros H. apply andb_prop in H as [H1 H2]. apply negb_true_iff in H1.
  rewrite (IH H2), orb_false_r.
  destruct (key_eqb k' k) eqn:E; [ | reflexivity].
  rewrite <- H1. symmetry. apply existsb_exists. exists (k, v).
  split; [apply in_or_app; right; now left | exact E].
Qed.

Lemma record_keys_loop (i : nat) (items : dict) :
  forall (record0 record : dict) (w w' : World),
    mfor items (generate_field i) record0 w = (Ok record, w') ->
    unique_keys (record0 ++ items)%list = true ->
    map fst record = (map fst record0 ++ map fst items)%list.
Proof.
  induction items as [ | [k ty] items IH]; intros record0 record w w' H U;
    cbn [mfor] in H.
  - unfold ret in H. inversion H. cbn. now rewrite app_nil_r.
  - apply bind_inv in H as (record1 & w1 & H1 & H2).
    unfold generate_field in H1. cbn [fst snd] in H1.
    apply bind_inv in H1 as (v & w0 & _ & H1).
    unfold lift, dict_set in H1.
    destruct (hashable k); [ | discriminate]. inversion H1; subst record1 w0.
    pose proof (unique_keys_head_absent record0 items k ty U) as A.
    rewrite (set_item_absent record0 k v A) in H2.
    rewrite (IH _ _ _ _ H2).
    + rewrite map_app. cbn [map fst]. now rewrite <- app_assoc.
    + rewrite <- U. apply unique_keys_keys.
      rewrite <- app_assoc, !map_app. reflexivity.
Qed.

(** X7. A record has the fields of its table, in the order of the field
    map. *)
Theorem record_has_the_fields_of_the_schema :
  forall (i : nat) (items record : dict) (w w' : World),
    unique_keys items = true ->
    generate_record i (PDict items) w = (Ok record, w') ->
    map fst record = map fst items.
Proof.
  intros i items record w w' U H.
  exact (record_keys_loop i items [] record w w' H U).
Qed.

End SynthExtras.

(** ** Further facts about the synthesizer *)

Module SynthExtras2.
Import Py Env PosixPath Extract App Spec SynthSpec ExtraSpec.
Import ExtractFacts SchemaFacts SynthFacts DriverFacts.

Lemma envelope_is_envelope_of (t : string) (n : Z) (record : dict) :
  1 <= n <= 100 -> envelope_of t (envelope t n record).
Proof.
  intros Hn. unfold envelope.
  eexists _, n, record. split; [reflexivity | ].
  repeat (split; [reflexivity || exact Hn | ]). reflexivity.
Qed.

Section Runs.
Variable repr : pyval -> string.

Lemma forall2_right {A B} (R : A -> B -> Prop) (P : B -> Prop)
    (l1 : list A) (l2 : list B) :
  (forall a b, R a b -> P b) -> Forall2 R l1 l2 -> Forall P l2.
Proof. intros H. induction 1; constructor; eauto. Qed.

Lemma written_table_files (base_dir : string) (schema_key entity_key : pyval)
    (tables : dict) (item : pyval * pyval) (records : list (Z * dict)) :
  In item tables ->
  Forall (fun tr => 1 <= fst tr <= 100) records ->
  Forall (table_file repr base_dir schema_key entity_key (List.length records) tables)
    (written (table_events repr base_dir schema_key entity_key
                (table_name_string item) records)).
Proof.
  intros Hin H. unfold table_events.
  change (written (Makedirs ?p :: ?r)) with (written r).
  rewrite (written_writes
             (fun ir => indexed_path repr base_dir schema_key entity_key
                          (table_name_string item) (fst ir))
             (fun ir => envelope (table_name_string item) (fst (snd ir)) (snd (snd ir)))).
  apply Forall_forall. intros pv Hpv.
  apply in_map_iff in Hpv as ([index tr] & <- & Hc).
  pose proof (in_combine_l _ _ _ _ Hc) as Hi. apply in_seq in Hi.
  pose proof (in_combine_r _ _ _ _ Hc) as Hr.
  rewrite Forall_forall in H. cbn [fst snd].
  exists item, index. split; [exact Hin | ]. split; [lia | ].
  split; [reflexivity | ]. apply envelope_is_envelope_of. now apply H.
Qed.

Lemma table_file_more (base_dir : string) (schema_key entity_key : pyval)
    (n : nat) (item : pyval * pyval) (tables : dict) (pv : string * pyval) :
  table_file repr base_dir schema_key entity_key n tables pv ->
  table_file repr base_dir schema_key entity_key n (item :: tables) pv.
Proof.
  intros (it & index & Hin & Hi & Hp & He).
  exists it, index. split; [now right | auto].
Qed.

Lemma written_schema_files (base_dir : string) (schema_key entity_key : pyval)
    (n : nat) (tables : dict) (runs : list (list (Z * dict))) :
  Forall2 (table_run n) tables runs ->
  Forall (table_file repr base_dir schema_key entity_key n tables)
    (written (schema_events repr base_dir schema_key entity_key tables runs)).
Proof.
  induction 1 as [ | item records tables runs [Hlen Hrec] _ IH];
    cbn [schema_events]; [constructor | ].
  rewrite written_app. apply Forall_app. split.
  - rewrite <- Hlen. apply written_table_files; [now left | ].
    apply (forall2_right _ _ _ _
             (fun i tr (H : 1 <= fst tr <= 100 /\ _) => proj1 H) Hrec).
  - apply (Forall_impl _ (table_file_more base_dir schema_key entity_key n item tables)).
    exact IH.
Qed.

Lemma tables_loop_no_rounds (count : Z) (base_dir : string)
    (schema_key entity_key : pyval) (tables : dict) :
  count <= 0 ->
  forallb (fun item => is_pstr (fst item)) tables = true ->
  forall (acc : list string) (w : World),
  no_fault w ->
  exists w',
    mfor tables (generate_table repr count base_dir schema_key entity_key) acc w
    = (Ok acc, w')
    /\ extends w
         (map (fun item => Makedirs (join base_dir (table_name_string item))) tables)
         w'.
Proof.
  intros Hc. induction tables as [ | [k attrs] tables IH]; intros Hs acc w Hf;
    cbn [mfor map].
  - exists w. split; [reflexivity | apply extends_refl].
  - cbn [forallb fst] in Hs. apply andb_prop in Hs as [Hk Hs].
    destruct k as [ | | | | t | | ]; try discriminate.
    unfold generate_table at 1. cbn [fst snd].
    destruct (io_run (Makedirs (join base_dir t)) w Hf) as [E X1].
    unfold bind at 1. unfold bind at 1. rewrite E.
    replace (Z.to_nat count) with 0%nat by lia. cbn [seq mfor]. unfold ret at 1.
    destruct (IH Hs acc _ (extends_no_fault _ _ _ X1 Hf)) as (w' & E' & X2).
    exists w'. split; [exact E' | ].
    exact (extends_trans _ _ _ [_] _ X1 X2).
Qed.

End Runs.

(** X8. On a canonical schema, when no file-system call fails, the files
    the synthesizer writes are the files it returns, and each of them is
    the file of an index from 1 to [n] of one of the tables and holds an
    envelope for that table: the two flags, a transaction number from 1
    to 100, and one record under the name of the table. *)
Theorem written_files_are_envelopes :
  forall (repr : pyval -> string) (tables : dict) (n : nat) (base_dir : string)
         (schema_key entity_key : pyval) (w : World),
    forallb table_ok tables = true ->
    no_fault w ->
    exists files evs w',
      generate_random_transaction repr (PDict tables) (Z.of_nat n) base_dir
        schema_key entity_key w = (Ok files, w')
      /\ trace w' = (trace w ++ evs)%list
      /\ map fst (written evs) = files
      /\ Forall (table_file repr base_dir schema_key entity_key n tables)
           (written evs).
Proof.
  intros repr tables n base_dir schema_key entity_key w Hok Hf.
  destruct (generate_random_transaction_run repr tables (Z.of_nat n) base_dir
              schema_key entity_key w Hok Hf) as (runs & w' & E & X & Hruns).
  rewrite Nat2Z.id in *.
  eexists _, _, w'. split; [exact E | ]. split; [apply X | ].
  change (written (Makedirs ?p :: ?r)) with (written r).
  split.
  - exact (written_schema repr base_dir schema_key entity_key n tables runs Hruns).
  - exact (written_schema_files repr base_dir schema_key entity_key n tables runs Hruns).
Qed.

(** X9. With a count of zero or less, the synthesizer returns no path and
    writes no file, whatever the field maps hold: it only makes the output
    directory and one directory per table. *)
Theorem no_rounds_for_nonpositive_count :
  forall (repr : pyval -> string) (tables : dict) (count : Z) (base_dir : string)
         (schema_key entity_key : pyval) (w : World),
    count <= 0 ->
    forallb (fun item => is_pstr (fst item)) tables = true ->
    no_fault w ->
    exists w',
      generate_random_transaction repr (PDict tables) count base_dir
        schema_key entity_key w = (Ok [], w')
      /\ trace w'
         = (trace w ++ Makedirs base_dir
              :: map (fun item => Makedirs (join base_dir (table_name_string item)))
                   tables)%list.
Proof.
  intros repr tables count base_dir schema_key entity_key w Hc Hs Hf.
  unfold generate_random_transaction.
  destruct (io_run (Makedirs base_dir) w Hf) as [E X1].
  rewrite (bind_ok _ _ _ _ _ E).
  destruct (tables_loop_no_rounds repr count base_dir schema_key entity_key tables
              Hc Hs [] _ (extends_no_fault _ _ _ X1 Hf)) as (w' & E' & X2).
  exists w'. split; [exact E' | ].
  apply (extends_trans _ _ _ [_] _ X1 X2).
Qed.

End SynthExtras2.

(** ** One document, from the file to its files *)

Module DocumentExtras.
Import Py Env PosixPath Extract App Spec SynthSpec ExtraSpec.
Import ExtractFacts SchemaFacts SynthFacts DriverFacts.

Lemma json_load_run (path : string) (w : World) :
  no_fault w ->
  json_load path w = (json_file w (calls w) path, tick w).
Proof.
  intros H. unfold json_load. now rewrite (H (calls w) (Nat.le_refl _)).
Qed.

Lemma typed_document_table (d : dict) :
  typed_document d = true ->
  document_ok d = true
  /\ exists tname, table_name_of d = PStr tname
     /\ table_ok (PStr tname, PDict (finish_fields (fields_of d))) = true.
Proof.
  intros H. pose proof (extracted_schema_canonical d H) as (_ & tables & E & Hok).
  unfold typed_document in H.
  apply andb_prop in H as [H _]. apply andb_prop in H as [Hd Ht].
  split; [exact Hd | ].
  unfold schema_of in E. inversion E; subst tables.
  cbn [forallb] in Hok. rewrite andb_true_r in Hok.
  destruct (table_name_of d) as [ | | | | tname | | ]; try discriminate.
  now exists tname.
Qed.

Section Runs.
Variable repr : pyval -> string.

(** One typed document, when no file-system call fails. *)
Lemma process_document_typed (path : string) (n : nat) (w : World) (d : dict) :
  no_fault w ->
  json_file w (calls w) path = Ok (PDict d) ->
  typed_document d = true ->
  exists tname records w',
    table_name_of d = PStr tname
    /\ process_document repr path (Z.of_nat n) w
       = (Ok (table_paths repr output_dir (schema_key_of d) (entity_key_of d)
                n tname), w')
    /\ trace w'
       = (trace w ++ Makedirs output_dir
            :: table_events repr output_dir (schema_key_of d) (entity_key_of d)
                 tname records)%list
    /\ List.length records = n.
Proof.
  intros Hf Hj Ht.
  destruct (typed_document_table d Ht) as (Hd & tname & En & Hok).
  unfold process_document. unfold bind at 1.
  rewrite (json_load_run path w Hf), Hj.
  unfold bind at 1, lift at 1. rewrite (extract_ok d Hd).
  unfold bind at 1, lift at 1. cbn [py_get].
  unfold schema_of. rewrite En.
  assert (Hf1 : no_fault (tick w)).
  { apply (extends_no_fault w (tick w) [] (extends_tick w) Hf). }
  destruct (generate_random_transaction_run repr
              [(PStr tname, PDict (finish_fields (fields_of d)))] (Z.of_nat n)
              output_dir (schema_key_of d) (entity_key_of d) (tick w))
    as (runs & w' & E & X & Hruns).
  { cbn [forallb]. now rewrite Hok. }
  { exact Hf1. }
  rewrite Nat2Z.id in *.
  inversion Hruns as [ | item records tables runs' [Hlen _] Hnil]; subst.
  inversion Hnil; subst.
  exists tname, records, w'. split; [reflexivity | ].
  fold (schema_key_of d). rewrite E.
  cbn [flat_map table_name_string fst]. rewrite app_nil_r.
  split; [reflexivity | ]. split; [ | reflexivity].
  destruct X as (_ & _ & T). rewrite T.
  cbn [schema_events table_name_string fst trace tick]. now rewrite app_nil_r.
Qed.

End Runs.


(** X11. Two typed documents with the same table name, schema key and
    entity key get the same paths, whatever their attributes: the files of
    the second are written over those of the first. *)
Theorem same_keys_same_files :
  forall (repr : pyval -> string) (path1 path2 : string) (n : nat)
         (w1 w2 : World) (d1 d2 : dict),
    no_fault w1 -> no_fault w2 ->
    json_file w1 (calls w1) path1 = Ok (PDict d1) ->
    json_file w2 (calls w2) path2 = Ok (PDict d2) ->
    typed_document d1 = true -> typed_document d2 = true ->
    table_name_of d1 = table_name_of d2 ->
    schema_key_of d1 = schema_key_of d2 ->
    entity_key_of d1 = entity_key_of d2 ->
    exists files w1' w2',
      process_document repr path1 (Z.of_nat n) w1 = (Ok files, w1')
      /\ process_document repr path2 (Z.of_nat n) w2 = (Ok files, w2')
      /\ map fst (written (skipn (List.length (trace w1)) (trace w1'))) = files
      /\ map fst (written (skipn (List.length (trace w2)) (trace w2'))) = files.
Proof.
  intros repr path1 path2 n w1 w2 d1 d2 Hf1 Hf2 Hj1 Hj2 Ht1 Ht2 En Es Ee.
  destruct (process_document_typed repr path1 n w1 d1 Hf1 Hj1 Ht1)
    as (t1 & r1 & w1' & En1 & E1 & T1 & L1).
  destruct (process_document_typed repr path2 n w2 d2 Hf2 Hj2 Ht2)
    as (t2 & r2 & w2' & En2 & E2 & T2 & L2).
  assert (t1 = t2) by congruence. subst t2.
  rewrite <- Es, <- Ee in E2, T2.
  eexists _, w1', w2'. split; [exact E1 | ]. split; [exact E2 | ].
  rewrite T1, T2, !skipn_app, !skipn_all, !Nat.sub_diag. cbn [skipn app].
  change (written (Makedirs ?p :: ?r)) with (written r).
  rewrite !written_table, L1, L2. split; reflexivity.
Qed.

Lemma startswith_sep_app (s r : string) :
  startswith_sep s = true -> startswith_sep (s ++ r) = true.
Proof. destruct s; [discriminate | cbn; auto]. Qed.

Lemma prefix_before_underscore (p s r : string) :
  no_underscore p = true ->
  String.prefix p (s ++ String "_" r) = String.prefix p s.
Proof.
  revert s. induction p as [ | c p IH]; intros s Hp; [now destruct s | ].
  cbn [no_underscore] in Hp. apply andb_prop in Hp as [Hc Hp].
  destruct s as [ | c' s]; cbn [append String.prefix].
  - destruct (ascii_dec c "_") as [-> | _]; [discriminate Hc | reflexivity].
  - destruct (ascii_dec c c'); [now apply IH | reflexivity].
Qed.

(** X12. With a [schemaKey] that starts with a slash, [os.path.join]
    drops both the output directory and the table directory: the
    directory made for the table is the key itself, and the files are
    written at the key followed by [_<entityKey>_file<i>.json].  Unless
    the key itself begins with [/tmp/data/], none of these paths does. *)
Theorem absolute_schema_key_leaves_output_dir :
  forall (repr : pyval -> string) (path : string) (n : nat) (w : World)
         (d : dict) (s : string),
    no_fault w ->
    json_file w (calls w) path = Ok (PDict d) ->
    typed_document d = true ->
    dict_get d (PStr "schemaKey") = Some (PStr s) ->
    startswith_sep s = true ->
    exists files evs w',
      process_document repr path (Z.of_nat n) w = (Ok files, w')
      /\ files = map (fun index =>
                        s ++ "_" ++ py_str repr (entity_key_of d) ++ "_file"
                          ++ str_of_Z (Z.of_nat index) ++ ".json")
                   (seq 1 n)
      /\ trace w' = (trace w ++ Makedirs output_dir :: Makedirs s :: evs)%list
      /\ map fst (written evs) = files
      /\ (under_output_dir s = false ->
          Forall (fun file => under_output_dir file = false) files).
Proof.
  intros repr path n w d s Hf Hj Ht Hs Habs.
  destruct (process_document_typed repr path n w d Hf Hj Ht)
    as (tname & records & w' & En & E & T & Hlen).
  assert (tname = s).
  { unfold table_name_of in En. rewrite Hs in En. now inversion En. }
  subst tname.
  assert (Ek : schema_key_of d = PStr s).
  { unfold schema_key_of, get_default. now rewrite Hs. }
  assert (P : table_paths repr output_dir (schema_key_of d) (entity_key_of d) n s
              = map (fun index =>
                       s ++ "_" ++ py_str repr (entity_key_of d) ++ "_file"
                         ++ str_of_Z (Z.of_nat index) ++ ".json")
                  (seq 1 n)).
  { unfold table_paths. apply map_ext. intros index.
    unfold indexed_path, indexed_file_name. rewrite Ek. cbn [py_str].
    unfold join at 1. now rewrite (startswith_sep_app s _ Habs). }
  eexists _, _, w'. split; [exact E | ]. split; [exact P | ].
  split.
  { rewrite T. unfold table_events. unfold join at 1. rewrite Habs. reflexivity. }
  split.
  { rewrite (written_writes
               (fun ir => indexed_path repr output_dir (schema_key_of d)
                            (entity_key_of d) s (fst ir))
               (fun ir => envelope s (fst (snd ir)) (snd (snd ir)))).
    rewrite map_map. cbn [fst]. rewrite <- Hlen.
    apply (map_fst_combine_seq
             (indexed_path repr output_dir (schema_key_of d) (entity_key_of d) s)
             records 1). }
  intros Hout. rewrite P. apply Forall_forall. intros file Hin.
  apply in_map_iff in Hin as (index & <- & _). unfold under_output_dir.
  change (s ++ "_" ++ ?r) with (s ++ String "_" r).
  rewrite prefix_before_underscore; [exact Hout | reflexivity].
Qed.

(** X13. A document whose table name is hashable but no str passes the
    extractor and fails in the synthesizer, at [os.path.join], after the
    output directory alone has been made. *)
Theorem non_string_table_name_fails_in_synthesis :
  forall (repr : pyval -> string) (path : string) (count : Z) (w : World)
         (d : dict),
    no_fault w ->
    json_file w (calls w) path = Ok (PDict d) ->
    document_ok d = true ->
    is_pstr (table_name_of d) = false ->
    exists w',
      process_document repr path count w
      = (Raise (JoinArgument (type_name (table_name_of d))), w')
      /\ trace w' = (trace w ++ [Makedirs output_dir])%list.
Proof.
  intros repr path count w d Hf Hj Hd Hn.
  unfold process_document. unfold bind at 1.
  rewrite (json_load_run path w Hf), Hj.
  unfold bind at 1, lift at 1. rewrite (extract_ok d Hd).
  unfold bind at 1, lift at 1. cbn [py_get].
  unfold generate_random_transaction, schema_of.
  assert (Hf1 : no_fault (tick w)).
  { apply (extends_no_fault w (tick w) [] (extends_tick w) Hf). }
  destruct (io_run (Makedirs output_dir) (tick w) Hf1) as [E X].
  rewrite (bind_ok _ _ _ _ _ E). cbn [mfor].
  unfold bind, generate_table. cbn [fst].
  eexists. split.
  - destruct (table_name_of d); try discriminate; reflexivity.
  - reflexivity.
Qed.

End DocumentExtras.

(** ** What every computation leaves untouched *)

Module FrameFacts.
Import ExtraSpec.
Import Py Env PosixPath Extract App Spec SynthSpec.
Import SynthFacts DriverFacts.

Lemma frame_refl (w : World) : frame w w.
Proof. repeat split; auto. Qed.

Lemma frame_trans (w1 w2 w3 : World) : frame w1 w2 -> frame w2 w3 -> frame w1 w3.
Proof.
  intros (C1 & F1 & L1) (C2 & F2 & L2). repeat split; try congruence. lia.
Qed.

Lemma frame_no_fault (w w' : World) : frame w w' -> no_fault w -> no_fault w'.
Proof. intros (_ & F & L) H k Hk. rewrite F. apply H. lia. Qed.

Lemma frame_tick (w : World) : frame w (tick w).
Proof. repeat split; cbn; auto. Qed.

Lemma frame_record (ev : event) (w : World) : frame w (record_event ev w).
Proof. repeat split; cbn; auto. Qed.

Lemma keeps_ret {A} (a : A) : keeps (ret a).
Proof. intros w r w' H. inversion H. apply frame_refl. Qed.

Lemma keeps_raise {A} (e : exn) : keeps (@raise A e).
Proof. intros w r w' H. inversion H. apply frame_refl. Qed.

Lemma keeps_lift {A} (x : result A) : keeps (lift x).
Proof. intros w r w' H. inversion H. apply frame_refl. Qed.

Lemma keeps_bind {A B} (m : M A) (k : A -> M B) :
  keeps m -> (forall a, keeps (k a)) -> keeps (bind m k).
Proof.
  intros Hm Hk w r w' H. unfold bind in H.
  destruct (m w) as [[a | e] w1] eqn:E.
  - exact (frame_trans _ _ _ (Hm _ _ _ E) (Hk a _ _ _ H)).
  - inversion H; subst. exact (Hm _ _ _ E).
Qed.

Lemma keeps_try_except {A} (m : M A) (h : exn -> M A) :
  keeps m -> (forall e, keeps (h e)) -> keeps (try_except m h).
Proof.
  intros Hm Hh w r w' H. unfold try_except in H.
  destruct (m w) as [[a | e] w1] eqn:E.
  - inversion H; subst. exact (Hm _ _ _ E).
  - exact (frame_trans _ _ _ (Hm _ _ _ E) (Hh e _ _ _ H)).
Qed.

Lemma keeps_try_finally {A} (m : M A) (c : M unit) :
  keeps m -> keeps c -> keeps (try_finally m c).
Proof.
  intros Hm Hc w r w' H. unfold try_finally in H.
  destruct (m w) as [[a | e] w1] eqn:E;
    destruct (c w1) as [[u | e'] w2] eqn:E'; inversion H; subst;
    exact (frame_trans _ _ _ (Hm _ _ _ E) (Hc _ _ _ E')).
Qed.

Lemma keeps_mfor {A B} (l : list B) (body : A -> B -> M A) :
  (forall acc x, keeps (body acc x)) -> forall acc, keeps (mfor l body acc).
Proof.
  intros Hb. induction l as [ | x l IH]; intros acc; cbn [mfor].
  - apply keeps_ret.
  - apply keeps_bind; [apply Hb | exact IH].
Qed.

Lemma keeps_io (ev : event) : keeps (io ev).
Proof.
  intros w r w' H. unfold io in H.
  destruct (io_fault w (calls w)); inversion H; subst.
  - apply frame_tick.
  - exact (frame_trans _ _ _ (frame_record ev w) (frame_tick _)).
Qed.

Lemma keeps_print (o : output) : keeps (print o).
Proof. intros w r w' H. inversion H. apply frame_record. Qed.

Lemma keeps_randint (a b : Z) : keeps (randint a b).
Proof. intros w r w' H. inversion H. apply frame_tick. Qed.

Lemma keeps_time_ms : keeps time_ms.
Proof. intros w r w' H. inversion H. apply frame_tick. Qed.

Lemma keeps_os_walk (top : string) : keeps (os_walk top).
Proof. intros w r w' H. inversion H. apply frame_tick. Qed.

Lemma keeps_json_load (path : string) : keeps (json_load path).
Proof.
  intros w r w' H. unfold json_load in H.
  destruct (io_fault w (calls w)); inversion H; apply frame_tick.
Qed.

Lemma keeps_choice (population : string) : keeps (choice population).
Proof. intros w r w' H. inversion H. apply frame_tick. Qed.

Lemma keeps_choices (population : string) (k : nat) : keeps (choices population k).
Proof.
  induction k as [ | k IH]; cbn [choices]; [apply keeps_ret | ].
  apply keeps_bind; [apply keeps_choice | intros c].
  apply keeps_bind; [exact IH | intros s; apply keeps_ret].
Qed.

Section Program.
Variable repr : pyval -> string.

Lemma keeps_generate_value (i : nat) (k ty : pyval) : keeps (generate_value i k ty).
Proof.
  unfold generate_value.
  repeat match goal with
    | |- keeps (if ?b then _ else _) => destruct b
    | |- keeps (bind _ _) => apply keeps_bind
    | |- forall _, _ => intro
    | |- keeps (ret _) => apply keeps_ret
    | |- keeps (lift _) => apply keeps_lift
    | |- keeps (randint _ _) => apply keeps_randint
    | |- keeps (choices _ _) => apply keeps_choices
    | |- keeps time_ms => apply keeps_time_ms
    end.
Qed.

Lemma keeps_generate_record (i : nat) (attributes : pyval) :
  keeps (generate_record i attributes).
Proof.
  unfold generate_record. destruct attributes; try apply keeps_raise.
  apply keeps_mfor. intros acc x. unfold generate_field.
  apply keeps_bind; [apply keeps_generate_value | intros v; apply keeps_lift].
Qed.

Lemma keeps_generate_file (t tdir : string) (attributes sk ek : pyval)
    (acc : list string) (i : nat) :
  keeps (generate_file repr t tdir attributes sk ek acc i).
Proof.
  unfold generate_file.
  apply keeps_bind; [apply keeps_randint | intros tid].
  apply keeps_bind; [apply keeps_generate_record | intros record].
  apply keeps_bind; [apply keeps_io | intros u; apply keeps_ret].
Qed.

Lemma keeps_generate_table (count : Z) (base : string) (sk ek : pyval)
    (acc : list string) (item : pyval * pyval) :
  keeps (generate_table repr count base sk ek acc item).
Proof.
  unfold generate_table. destruct (fst item); try apply keeps_raise.
  apply keeps_bind; [apply keeps_io | intros u].
  apply keeps_mfor. intros acc' i. apply keeps_generate_file.
Qed.

Lemma keeps_generate_random_transaction (schema : pyval) (count : Z)
    (base : string) (sk ek : pyval) :
  keeps (generate_random_transaction repr schema count base sk ek).
Proof.
  unfold generate_random_transaction.
  apply keeps_bind; [apply keeps_io | intros u].
  destruct schema; try apply keeps_raise.
  apply keeps_mfor. intros acc item. apply keeps_generate_table.
Qed.

Lemma keeps_process_document (path : string) (count : Z) :
  keeps (process_document repr path count).
Proof.
  unfold process_document.
  apply keeps_bind; [apply keeps_json_load | intros j].
  apply keeps_bind; [apply keeps_lift | intros [[t e] s]].
  apply keeps_bind; [apply keeps_lift | intros sk].
  apply keeps_generate_random_transaction.
Qed.

Lemma keeps_process_container (count : Z)
    (listing : list (string * list string * list string)) :
  keeps (process_container repr count listing).
Proof.
  unfold process_container. apply keeps_mfor. intros acc [[root dirs] files].
  apply keeps_mfor. intros acc' file. unfold process_walked_file.
  destruct (endswith (lower file) ".json"); [ | apply keeps_ret].
  apply keeps_try_except.
  - apply keeps_bind; [apply keeps_process_document | intros g; apply keeps_ret].
  - intros e. apply keeps_bind; [apply keeps_print | intros u].
    apply keeps_bind; [apply keeps_print | intros u'; apply keeps_ret].
Qed.

End Program.

End FrameFacts.

(** ** Further facts about the archive *)

Module ArchiveExtras.
Import ExtraSpec.
Import Py Env PosixPath Extract App Spec SynthSpec DriverSpec.
Import SynthFacts DriverFacts FrameFacts.

Lemma relpath_nonempty (c file : string) :
  nonempty file = true -> relpath c file "data" = Some (arcname_of c file).
Proof.
  unfold nonempty, arcname_of, relpath. intros H. apply negb_true_iff in H.
  rewrite H. now destruct (_ ++ _)%list.
Qed.

Lemma mfor_app {A B} (l1 l2 : list B) (body : A -> B -> M A) (acc : A) (w : World) :
  mfor (l1 ++ l2) body acc w = bind (mfor l1 body acc) (mfor l2 body) w.
Proof.
  revert acc w. induction l1 as [ | x l1 IH]; intros acc w; cbn [app mfor].
  - reflexivity.
  - unfold bind. destruct (body acc x w) as [[a | e] w1]; [ | reflexivity].
    rewrite IH. reflexivity.
Qed.

Lemma archive_loop_run (files : list string) :
  forallb nonempty files = true ->
  forall w, no_fault w ->
  exists w',
    mfor files (fun _ file => archive_file file) tt w = (Ok tt, w')
    /\ extends w (map (fun file => ZipWrite file (arcname_of (cwd w) file)) files) w'
    /\ cwd w' = cwd w.
Proof.
  induction files as [ | file files IH]; intros Hne w Hf; cbn [mfor map].
  - exists w. split; [reflexivity | ]. split; [apply extends_refl | reflexivity].
  - cbn [forallb] in Hne. apply andb_prop in Hne as [H1 H2].
    unfold bind at 1, archive_file at 1. rewrite (relpath_nonempty _ _ H1).
    destruct (io_run (ZipWrite file (arcname_of (cwd w) file)) w Hf) as [E X1].
    rewrite E.
    destruct (IH H2 _ (extends_no_fault _ _ _ X1 Hf)) as (w' & E' & X2 & C).
    exists w'. split; [exact E' | ]. cbn [cwd tick record_event] in X2, C.
    split; [exact (extends_trans _ _ _ [_] _ X1 X2) | exact C].
Qed.

Lemma create_zip_archive_run (files : list string) (archive_name : string)
    (w : World) :
    no_fault w ->
    forallb nonempty files = true ->
    exists w',
      create_zip_archive files archive_name w
      = (Ok (join "downloads" archive_name), w')
      /\ trace w'
         = (trace w
            ++ [Makedirs "downloads"; ZipOpen (join "downloads" archive_name)]
            ++ map (fun file => ZipWrite file (arcname_of (cwd w) file)) files
            ++ [ZipClose (join "downloads" archive_name)])%list.
Proof.
  intros Hf Hne. unfold create_zip_archive.
  destruct (io_run (Makedirs "downloads") w Hf) as [E1 X1].
  rewrite (bind_ok _ _ _ _ _ E1).
  pose proof (extends_no_fault _ _ _ X1 Hf) as Hf1.
  destruct (io_run (ZipOpen (join "downloads" archive_name)) _ Hf1) as [E2 X2].
  rewrite (bind_ok _ _ _ _ _ E2).
  pose proof (extends_no_fault _ _ _ X2 Hf1) as Hf2.
  destruct (archive_loop_run files Hne _ Hf2) as (w3 & E3 & X3 & C3).
  pose proof (extends_no_fault _ _ _ X3 Hf2) as Hf3.
  destruct (io_run (ZipClose (join "downloads" archive_name)) w3 Hf3) as [E4 X4].
  unfold bind, try_finally. rewrite E3, E4. unfold ret.
  eexists. split; [reflexivity | ].
  destruct X4 as (_ & _ & T4). destruct X3 as (_ & _ & T3).
  rewrite T4, T3. cbn [trace tick record_event cwd].
  now rewrite <- !app_assoc.
Qed.

(** X14. When no file-system call fails, [create_zip_archive] returns
    [downloads/<archive_name>] and leaves in the trace the directory, the
    opening of the archive, one entry per file in order, each under its
    path relative to [data] in the working directory, and the closing; an
    empty list of files gives an empty archive. *)
Theorem archive_of_materialized_files :
  forall (files : list string) (archive_name : string) (w : World),
    no_fault w ->
    forallb nonempty files = true ->
    exists w',
      create_zip_archive files archive_name w
      = (Ok (join "downloads" archive_name), w')
      /\ trace w'
         = (trace w
            ++ [Makedirs "downloads"; ZipOpen (join "downloads" archive_name)]
            ++ map (fun file => ZipWrite file (arcname_of (cwd w) file)) files
            ++ [ZipClose (join "downloads" archive_name)])%list.
Proof. exact create_zip_archive_run. Qed.

(** X15. An empty path among the files aborts the archive with
    [ValueError]: the files before it are added, none after it is, and
    the archive is closed all the same. *)
Theorem empty_path_aborts_the_archive :
  forall (before after : list string) (archive_name : string) (w : World),
    no_fault w ->
    forallb nonempty before = true ->
    exists w',
      create_zip_archive (before ++ "" :: after) archive_name w
      = (Raise (ValueError "no path specified"), w')
      /\ trace w'
         = (trace w
            ++ [Makedirs "downloads"; ZipOpen (join "downloads" archive_name)]
            ++ map (fun file => ZipWrite file (arcname_of (cwd w) file)) before
            ++ [ZipClose (join "downloads" archive_name)])%list.
Proof.
  intros before after archive_name w Hf Hne. unfold create_zip_archive.
  destruct (io_run (Makedirs "downloads") w Hf) as [E1 X1].
  rewrite (bind_ok _ _ _ _ _ E1).
  pose proof (extends_no_fault _ _ _ X1 Hf) as Hf1.
  destruct (io_run (ZipOpen (join "downloads" archive_name)) _ Hf1) as [E2 X2].
  rewrite (bind_ok _ _ _ _ _ E2).
  pose proof (extends_no_fault _ _ _ X2 Hf1) as Hf2.
  destruct (archive_loop_run before Hne _ Hf2) as (w3 & E3 & X3 & C3).
  pose proof (extends_no_fault _ _ _ X3 Hf2) as Hf3.
  destruct (io_run (ZipClose (join "downloads" archive_name)) w3 Hf3) as [E4 X4].
  unfold bind at 1, try_finally. rewrite mfor_app.
  rewrite (bind_ok _ _ _ _ _ E3). cbn [mfor].
  unfold bind at 1, archive_file at 1.
  change (relpath (cwd w3) "" "data") with (@None string).
  cbv beta iota. rewrite E4. eexists. split; [reflexivity | ].
  destruct X4 as (_ & _ & T4). destruct X3 as (_ & _ & T3).
  rewrite T4, T3. cbn [trace tick record_event cwd].
  now rewrite <- !app_assoc.
Qed.

End ArchiveExtras.

(** ** The archive names of plain paths *)

Module PathFacts.
Import ExtraSpec.
Import Py Env PosixPath App Spec SynthSpec.

Lemma split_sep_app (a r : string) :
  no_sep a = true -> split_sep (a ++ String "/" r) = a :: split_sep r.
Proof.
  induction a as [ | c a IH]; intros H.
  - reflexivity.
  - cbn [no_sep] in H. apply andb_prop in H as [Hc Ha].
    apply negb_true_iff in Hc.
    cbn [append split_sep]. rewrite Hc, (IH Ha). reflexivity.
Qed.

Lemma split_sep_plain (a : string) : no_sep a = true -> split_sep a = [a].
Proof.
  induction a as [ | c a IH]; intros H; [reflexivity | ].
  cbn [no_sep] in H. apply andb_prop in H as [Hc Ha].
  apply negb_true_iff in Hc. cbn [split_sep]. now rewrite Hc, (IH Ha).
Qed.

Lemma plain_parts (s : string) :
  plain s = true ->
  (s =? "")%string = false /\ no_sep s = true
  /\ (s =? ".")%string = false /\ (s =? "..")%string = false.
Proof.
  unfold plain, nonempty. intros H.
  apply andb_prop in H as [H H4]. apply andb_prop in H as [H H3].
  apply andb_prop in H as [H1 H2].
  apply negb_true_iff in H1, H3, H4. auto.
Qed.

Lemma no_sep_start (s : string) : no_sep s = true -> startswith_sep s = false.
Proof.
  destruct s as [ | c r]; [reflexivity | ]. cbn. intros H.
  apply andb_prop in H as [H _]. now apply negb_true_iff in H.
Qed.

Lemma no_sep_end (s : string) : no_sep s = true -> endswith_sep s = false.
Proof.
  induction s as [ | c r IH]; [reflexivity | ]. cbn [no_sep endswith_sep].
  intros H. apply andb_prop in H as [Hc Hr]. apply negb_true_iff in Hc.
  destruct r; [exact Hc | now apply IH].
Qed.

Lemma endswith_sep_app (a s : string) :
  (s =? "")%string = false -> endswith_sep (a ++ s) = endswith_sep s.
Proof.
  intros H. induction a as [ | c a IH]; [reflexivity | ].
  cbn [append endswith_sep]. rewrite IH.
  destruct (a ++ s) eqn:E; [ | reflexivity].
  destruct a; [cbn in E; subst; discriminate | discriminate].
Qed.

Lemma join_plain (a s : string) :
  (a =? "")%string = false -> endswith_sep a = false -> no_sep s = true ->
  join a s = a ++ "/" ++ s.
Proof.
  intros Ha He Hs. unfold join. now rewrite (no_sep_start s Hs), Ha, He.
Qed.

Lemma norm_step_plain (b : bool) (acc : list string) (s : string) :
  plain s = true -> norm_step b acc s = s :: acc.
Proof.
  intros H. destruct (plain_parts s H) as (H1 & _ & H3 & H4).
  unfold norm_step. now rewrite H1, H3, H4.
Qed.

(** The path of a materialized file with plain names, and its
    components. *)
Lemma materialized_path (t f : string) :
  plain t = true -> plain f = true ->
  join (join "/tmp/data" t) f = "/tmp/data/" ++ t ++ "/" ++ f
  /\ normpath ("/tmp/data/" ++ t ++ "/" ++ f) = "/tmp/data/" ++ t ++ "/" ++ f
  /\ nonempty_components ("/tmp/data/" ++ t ++ "/" ++ f) = ["tmp"; "data"; t; f].
Proof.
  intros Ht Hf.
  destruct (plain_parts t Ht) as (T1 & T2 & T3 & T4).
  destruct (plain_parts f Hf) as (F1 & F2 & F3 & F4).
  assert (S : split_sep ("/tmp/data/" ++ t ++ "/" ++ f) = [""; "tmp"; "data"; t; f]).
  { change ("/tmp/data/" ++ t ++ "/" ++ f)
      with ("" ++ String "/" ("tmp" ++ String "/" ("data" ++ String "/"
              (t ++ String "/" f)))).
    rewrite !split_sep_app by (reflexivity || assumption).
    now rewrite (split_sep_plain f F2). }
  split; [ | split].
  - rewrite (join_plain "/tmp/data" t eq_refl eq_refl T2).
    rewrite join_plain; [ | reflexivity | | assumption].
    + reflexivity.
    + change ("/tmp/data" ++ "/" ++ t) with ("/tmp/data/" ++ t).
      rewrite (endswith_sep_app "/tmp/data/" t T1). now apply no_sep_end.
  - unfold normpath. rewrite S.
    change (("/tmp/data/" ++ t ++ "/" ++ f =? "")%string) with false.
    cbn [fold_left]. change (norm_step _ [] "") with (@nil string).
    change (norm_step _ [] "tmp") with ["tmp"].
    change (norm_step _ ["tmp"] "data") with ["data"; "tmp"].
    rewrite (norm_step_plain _ _ t Ht), (norm_step_plain _ _ f Hf).
    reflexivity.
  - unfold nonempty_components. rewrite S. cbn [filter].
    change (negb ("" =? "")%string) with false.
    change (negb ("tmp" =? "")%string) with true.
    change (negb ("data" =? "")%string) with true.
    now rewrite T1, F1.
Qed.

Lemma normpath_relative (t f : string) :
  plain t = true -> plain f = true ->
  normpath (t ++ "/" ++ f) = t ++ "/" ++ f.
Proof.
  intros Ht Hf.
  destruct (plain_parts t Ht) as (T1 & T2 & T3 & T4).
  destruct (plain_parts f Hf) as (F1 & F2 & F3 & F4).
  unfold normpath.
  change (t ++ "/" ++ f) with (t ++ String "/" f).
  rewrite (split_sep_app t f T2), (split_sep_plain f F2).
  cbn [fold_left].
  rewrite (norm_step_plain _ _ t Ht), (norm_step_plain _ _ f Hf).
  destruct t as [ | c r]; [discriminate | ].
  cbn [no_sep] in T2. apply andb_prop in T2 as [Hc _]. apply negb_true_iff in Hc.
  assert (Hc' : c <> "/"%char) by (intros ->; discriminate).
  cbn [append String.eqb].
  destruct c as [b0 b1 b2 b3 b4 b5 b6 b7].
  destruct b0, b1, b2, b3, b4, b5, b6, b7; try reflexivity; congruence.
Qed.

(** X16. When [data] in the working directory is [/tmp/data], a
    materialized file with a plain table name and a plain file name is
    archived as [<table>/<file>], the name [zipfile] stores unchanged. *)
Theorem archive_name_when_run_from_tmp :
  forall (cwd t f : string),
    abspath cwd "data" = "/tmp/data" ->
    plain t = true -> plain f = true ->
    relpath cwd (join (join output_dir t) f) "data" = Some (t ++ "/" ++ f)
    /\ zip_entry_name (t ++ "/" ++ f) = t ++ "/" ++ f.
Proof.
  intros cwd t f Hcwd Ht Hf.
  destruct (materialized_path t f Ht Hf) as (J & N & C).
  destruct (plain_parts t Ht) as (T1 & T2 & T3 & T4).
  destruct (plain_parts f Hf) as (F1 & F2 & F3 & F4).
  split.
  - unfold output_dir. rewrite J. unfold relpath.
    change (("/tmp/data/" ++ t ++ "/" ++ f =? "")%string) with false.
    rewrite Hcwd.
    change (abspath cwd ("/tmp/data/" ++ t ++ "/" ++ f))
      with (normpath ("/tmp/data/" ++ t ++ "/" ++ f)).
    rewrite N, C.
    change (nonempty_components "/tmp/data") with ["tmp"; "data"].
    change (common_prefix_length ["tmp"; "data"] ["tmp"; "data"; t; f]) with 2%nat.
    cbn [List.length Nat.sub repeat skipn app fold_left].
    now rewrite (join_plain t f T1 (no_sep_end t T2) F2).
  - unfold zip_entry_name. rewrite (normpath_relative t f Ht Hf).
    destruct t as [ | c r]; [discriminate | ].
    cbn [no_sep] in T2. apply andb_prop in T2 as [Hc _].
    apply negb_true_iff in Hc. cbn [append strip_leading_sep]. now rewrite Hc.
Qed.

Lemma archive_name_when_run_from_tmp_witness :
  (abspath "/tmp" "data" = "/tmp/data"
   /\ plain "Cust" = true /\ plain "Cust_E1_file1.json" = true)
  /\ relpath "/tmp" (join (join output_dir "Cust") "Cust_E1_file1.json") "data"
     = Some "Cust/Cust_E1_file1.json"
  /\ zip_entry_name "Cust/Cust_E1_file1.json" = "Cust/Cust_E1_file1.json".
Proof.
  split; [repeat split | ].
  apply (archive_name_when_run_from_tmp "/tmp" "Cust" "Cust_E1_file1.json");
    reflexivity.
Defined.

End PathFacts.

(** ** Further facts about the handler *)

Module HandlerExtras.
Import ExtraSpec.
Import Py Env PosixPath Extract App Spec SynthSpec DriverSpec.
Import SynthFacts DriverFacts FrameFacts ArchiveExtras DocumentExtras.

Lemma nonempty_app_r (a : string) (c : ascii) (r : string) :
  nonempty (a ++ String c r) = true.
Proof. destruct a; reflexivity. Qed.

Lemma join_nonempty (a b : string) : nonempty b = true -> nonempty (join a b) = true.
Proof.
  intros H. unfold join. destruct (startswith_sep b); [exact H | ].
  destruct b as [ | c r]; [discriminate | ].
  destruct (_ || _); [apply nonempty_app_r | ].
  change (a ++ "/" ++ String c r) with (a ++ String "/" (String c r)).
  apply nonempty_app_r.
Qed.

Lemma mfor_ok_inv {A B} (P : A -> Prop) (l : list B) (body : A -> B -> M A) :
  (forall acc x w acc' w', body acc x w = (Ok acc', w') -> P acc -> P acc') ->
  forall acc w acc' w', mfor l body acc w = (Ok acc', w') -> P acc -> P acc'.
Proof.
  intros Hb. induction l as [ | x l IH]; intros acc w acc' w' H HP; cbn [mfor] in H.
  - inversion H; subst. exact HP.
  - apply bind_inv in H as (a & w1 & H1 & H2). eauto.
Qed.

Section Runs.
Variable repr : pyval -> string.

Lemma generate_file_paths (t tdir : string) (attributes sk ek : pyval)
    (acc acc' : list string) (i : nat) (w w' : World) :
  generate_file repr t tdir attributes sk ek acc i w = (Ok acc', w') ->
  forallb nonempty acc = true -> forallb nonempty acc' = true.
Proof.
  unfold generate_file. intros H Hacc.
  apply bind_inv in H as (tid & w1 & _ & H).
  apply bind_inv in H as (record & w2 & _ & H).
  apply bind_inv in H as ([] & w3 & _ & H).
  inversion H; subst. rewrite forallb_app, Hacc. cbn [forallb].
  rewrite andb_true_r. apply join_nonempty. unfold file_name.
  change ("_" ++ ?x) with (String "_" x). apply nonempty_app_r.
Qed.

Lemma generate_random_transaction_paths (schema : pyval) (count : Z)
    (base : string) (sk ek : pyval) (files : list string) (w w' : World) :
  generate_random_transaction repr schema count base sk ek w = (Ok files, w') ->
  forallb nonempty files = true.
Proof.
  unfold generate_random_transaction. intros H.
  apply bind_inv in H as ([] & w1 & _ & H).
  destruct schema as [ | | | | | | tables]; try discriminate.
  apply (mfor_ok_inv (fun acc => forallb nonempty acc = true) _ _) in H;
    [exact H | | reflexivity].
  intros acc item w0 acc' w0' Ht Hacc. unfold generate_table in Ht.
  destruct (fst item); try discriminate.
  apply bind_inv in Ht as ([] & w2 & _ & Ht).
  apply (mfor_ok_inv (fun acc => forallb nonempty acc = true) _ _) in Ht;
    [exact Ht | | exact Hacc].
  intros a i wa a' wa'. apply generate_file_paths.
Qed.

Lemma process_document_paths (path : string) (count : Z) (files : list string)
    (w w' : World) :
  process_document repr path count w = (Ok files, w') ->
  forallb nonempty files = true.
Proof.
  unfold process_document. intros H.
  apply bind_inv in H as (j & w1 & _ & H).
  apply bind_inv in H as ([[t e] s] & w2 & _ & H).
  apply bind_inv in H as (sk & w3 & _ & H).
  now apply generate_random_transaction_paths in H.
Qed.

Lemma outcomes_paths (count : Z) (documents : list (string * string)) (w : World) :
  forallb nonempty (produced (fst (document_outcomes repr count documents w))) = true.
Proof.
  revert w. induction documents as [ | [root file] rest IH]; intros w;
    cbn [document_outcomes]; [reflexivity | ].
  destruct (process_document repr (join root file) count w) as [[files | e] w1] eqn:E.
  - specialize (IH w1).
    destruct (document_outcomes repr count rest w1) as [outs w2].
    cbn [fst] in *.
    change (produced (Ok files :: outs)) with (files ++ produced outs)%list.
    rewrite forallb_app, IH, andb_true_r. exact (process_document_paths _ _ _ _ _ E).
  - match goal with |- context [document_outcomes repr count rest ?w2] =>
      specialize (IH w2);
      destruct (document_outcomes repr count rest w2) as [outs w3] end.
    cbn [fst] in *. exact IH.
Qed.

Lemma process_container_run (count : Z)
    (listing : list (string * list string * list string)) (w : World) :
  no_fault w ->
  exists files w',
    process_container repr count listing w = (Ok files, w')
    /\ no_fault w' /\ forallb nonempty files = true
    /\ files = produced (fst (document_outcomes repr count
                                (container_documents listing) w)).
Proof.
  intros Hf. unfold process_container.
  pose proof (container_loop repr count listing [] w) as E. cbn zeta in E.
  eexists _, _. split; [exact E | ]. split; [ | split; [ | reflexivity]].
  - apply (frame_no_fault w); [ | exact Hf].
    exact (keeps_process_container repr count listing w _ _ E).
  - apply outcomes_paths.
Qed.

End Runs.

(** X17. For a container upload with a valid count, when no file-system
    call fails, the handler always builds and closes the archive and
    answers with the [NameError] of [shutil], whatever the documents of
    the container hold. *)
Theorem container_upload_answers_name_error :
  forall (repr : pyval -> string) (req : Request) (f : Upload) (count : Z)
         (w : World),
    schema_file req = Some f ->
    (filename f =? "")%string = false ->
    endswith (lower (filename f)) ".zip" = true ->
    form_count req = Ok count ->
    no_fault w ->
    exists w',
      generate repr req w = (Ok (ErrorOf (NameError "shutil")), w')
      /\ In (ZipClose "downloads/generated_data.zip") (trace w').
Proof.
  intros repr req f count w Hfile Hname Hzip Hcount Hf.
  unfold generate. rewrite Hfile, Hname, Hcount.
  unfold bind at 1, lift at 1.
  destruct (io_run (Makedirs temp_dir) w Hf) as [E1 X1].
  rewrite (bind_ok _ _ _ _ _ E1).
  pose proof (extends_no_fault _ _ _ X1 Hf) as Hf1.
  destruct (io_run (Makedirs output_dir) _ Hf1) as [E2 X2].
  rewrite (bind_ok _ _ _ _ _ E2).
  pose proof (extends_no_fault _ _ _ X2 Hf1) as Hf2.
  unfold generate_try, try_except, generate_body.
  unfold bind at 1. unfold collect_files. rewrite Hzip.
  destruct (io_run (SaveUpload (join temp_dir (filename f))) _ Hf2) as [E3 X3].
  rewrite (bind_ok _ _ _ _ _ E3).
  pose proof (extends_no_fault _ _ _ X3 Hf2) as Hf3.
  destruct (io_run (ExtractAll (join temp_dir (filename f)) temp_dir) _ Hf3)
    as [E4 X4].
  rewrite (bind_ok _ _ _ _ _ E4).
  pose proof (extends_no_fault _ _ _ X4 Hf3) as Hf4.
  unfold bind at 1, os_walk at 1.
  match goal with |- context [process_container repr count ?l ?w5] =>
    destruct (process_container_run repr count l w5) as (files & w6 & E6 & Hf6 & Hne & _)
  end.
  { apply (frame_no_fault _ _ (frame_tick _) Hf4). }
  rewrite E6.
  destruct (create_zip_archive_run files "generated_data.zip" w6 Hf6 Hne)
    as (w7 & E7 & T7).
  unfold bind at 1. rewrite E7.
  unfold bind at 1. rewrite shutil_rmtree_raises.
  unfold generate_handler, bind, print, ret.
  eexists. split; [reflexivity | ].
  cbn [trace record_event]. rewrite T7.
  apply in_or_app. left. apply in_or_app. right.
  apply in_or_app. right. apply in_or_app. right. now left.
Qed.

(** X18. A single uploaded document on which [json.load] raises: for
    [JSONDecodeError], a text that is no JSON, the answer is the
    invalid-format one and nothing is printed; for any other exception,
    such as the [ValueError] of bytes that are not UTF-8, it is the
    generic error, after the traceback.  In both cases no file is
    generated and no archive is opened. *)
Theorem single_document_load_failure :
  forall (repr : pyval -> string) (req : Request) (f : Upload) (count : Z)
         (w : World) (e : exn),
    schema_file req = Some f ->
    (filename f =? "")%string = false ->
    endswith (lower (filename f)) ".zip" = false ->
    form_count req = Ok count ->
    no_fault w ->
    (forall k, json_file w k (join temp_dir (filename f)) = Raise e) ->
    exists w',
      generate repr req w
      = (Ok (if is_decode_error e then InvalidJson else ErrorOf e), w')
      /\ trace w'
         = (trace w
            ++ [Makedirs temp_dir; Makedirs output_dir;
                SaveUpload (join temp_dir (filename f))]
            ++ (if is_decode_error e then [] else [Print (Traceback e)]))%list.
Proof.
  intros repr req f count w e Hfile Hname Hzip Hcount Hf Hj.
  unfold generate. rewrite Hfile, Hname, Hcount.
  unfold bind at 1, lift at 1.
  destruct (io_run (Makedirs temp_dir) w Hf) as [E1 X1].
  rewrite (bind_ok _ _ _ _ _ E1).
  pose proof (extends_no_fault _ _ _ X1 Hf) as Hf1.
  destruct (io_run (Makedirs output_dir) _ Hf1) as [E2 X2].
  rewrite (bind_ok _ _ _ _ _ E2).
  pose proof (extends_no_fault _ _ _ X2 Hf1) as Hf2.
  unfold generate_try, try_except, generate_body.
  unfold bind at 1. unfold collect_files. rewrite Hzip.
  destruct (io_run (SaveUpload (join temp_dir (filename f))) _ Hf2) as [E3 X3].
  rewrite (bind_ok _ _ _ _ _ E3).
  pose proof (extends_no_fault _ _ _ X3 Hf2) as Hf3.
  unfold process_document. unfold bind at 1.
  rewrite (json_load_run _ _ Hf3). cbn [json_file tick record_event].
  rewrite Hj. unfold generate_handler.
  destruct e; cbn [is_decode_error]; unfold bind, print, ret;
    (eexists; split; [reflexivity | ]);
    cbn [trace tick record_event]; now rewrite <- !app_assoc.
Qed.

(** X19. A single uploaded document whose JSON is no mapping gets the
    error of the failed [get], after the traceback is printed; no file is
    generated and no archive is opened. *)
Theorem single_document_not_a_mapping :
  forall (repr : pyval -> string) (req : Request) (f : Upload) (count : Z)
         (w : World) (v : pyval),
    schema_file req = Some f ->
    (filename f =? "")%string = false ->
    endswith (lower (filename f)) ".zip" = false ->
    form_count req = Ok count ->
    no_fault w ->
    (forall k, json_file w k (join temp_dir (filename f)) = Ok v) ->
    type_name v <> "dict" ->
    exists w',
      generate repr req w = (Ok (ErrorOf (AttributeError (type_name v) "get")), w')
      /\ trace w'
         = (trace w ++ [Makedirs temp_dir; Makedirs output_dir;
                        SaveUpload (join temp_dir (filename f));
                        Print (Traceback (AttributeError (type_name v) "get"))])%list.
Proof.
  intros repr req f count w v Hfile Hname Hzip Hcount Hf Hj Hv.
  unfold generate. rewrite Hfile, Hname, Hcount.
  unfold bind at 1, lift at 1.
  destruct (io_run (Makedirs temp_dir) w Hf) as [E1 X1].
  rewrite (bind_ok _ _ _ _ _ E1).
  pose proof (extends_no_fault _ _ _ X1 Hf) as Hf1.
  destruct (io_run (Makedirs output_dir) _ Hf1) as [E2 X2].
  rewrite (bind_ok _ _ _ _ _ E2).
  pose proof (extends_no_fault _ _ _ X2 Hf1) as Hf2.
  unfold generate_try, try_except, generate_body.
  unfold bind at 1. unfold collect_files. rewrite Hzip.
  destruct (io_run (SaveUpload (join temp_dir (filename f))) _ Hf2) as [E3 X3].
  rewrite (bind_ok _ _ _ _ _ E3).
  pose proof (extends_no_fault _ _ _ X3 Hf2) as Hf3.
  unfold process_document. unfold bind at 1.
  rewrite (json_load_run _ _ Hf3). cbn [json_file tick record_event].
  rewrite Hj. unfold bind at 1, lift at 1.
  assert (Ex : extract_schema_from_json v = Raise (AttributeError (type_name v) "get")).
  { destruct v; try reflexivity. now contradiction Hv. }
  rewrite Ex. cbn [generate_handler]. unfold bind, print, ret.
  eexists. split; [reflexivity | ].
  cbn [trace tick record_event]. now rewrite <- !app_assoc.
Qed.

(** X20. What raises before the [try] is not turned into a response: a
    count that [int] rejects, and a failure to make the temporary
    directory, leave the handler as exceptions. *)
Theorem errors_before_the_try_surface :
  forall (repr : pyval -> string) (req : Request) (f : Upload) (w : World)
         (e : exn),
    schema_file req = Some f ->
    (filename f =? "")%string = false ->
    (form_count req = Raise e -> generate repr req w = (Raise e, w))
    /\ (forall count, form_count req = Ok count ->
        io_fault w (calls w) = Some e ->
        generate repr req w = (Raise e, tick w)).
Proof.
  intros repr req f w e Hfile Hname. unfold generate. rewrite Hfile, Hname.
  split.
  - intros ->. reflexivity.
  - intros count -> Hio. unfold bind, lift, io. now rewrite Hio.
Qed.

(** X21. A single typed document with a valid count, when no file-system
    call fails, is carried through to the end: the files of indices 1 to
    [n] are written, the archive is built with one entry per file and
    closed, the temporary directory is never removed, and the answer is
    the [NameError] of [shutil], after its traceback is printed. *)
Theorem single_typed_document_end_to_end :
  forall (repr : pyval -> string) (req : Request) (f : Upload) (n : nat)
         (w : World) (d : dict),
    schema_file req = Some f ->
    (filename f =? "")%string = false ->
    endswith (lower (filename f)) ".zip" = false ->
    form_count req = Ok (Z.of_nat n) ->
    no_fault w ->
    (forall k, json_file w k (join temp_dir (filename f)) = Ok (PDict d)) ->
    typed_document d = true ->
    exists tname records w',
      table_name_of d = PStr tname
      /\ List.length records = n
      /\ generate repr req w = (Ok (ErrorOf (NameError "shutil")), w')
      /\ trace w'
         = (trace w
            ++ [Makedirs temp_dir; Makedirs output_dir;
                SaveUpload (join temp_dir (filename f)); Makedirs output_dir]
            ++ table_events repr output_dir (schema_key_of d) (entity_key_of d)
                 tname records
            ++ [Makedirs "downloads"; ZipOpen "downloads/generated_data.zip"]
            ++ map (fun file => ZipWrite file (arcname_of (cwd w) file))
                 (table_paths repr output_dir (schema_key_of d) (entity_key_of d)
                    n tname)
            ++ [ZipClose "downloads/generated_data.zip";
                Print (Traceback (NameError "shutil"))])%list.
Proof.
  intros repr req f n w d Hfile Hname Hzip Hcount Hf Hj Ht.
  unfold generate. rewrite Hfile, Hname, Hcount.
  unfold bind at 1, lift at 1.
  destruct (io_run (Makedirs temp_dir) w Hf) as [E1 X1].
  rewrite (bind_ok _ _ _ _ _ E1).
  pose proof (extends_no_fault _ _ _ X1 Hf) as Hf1.
  destruct (io_run (Makedirs output_dir) _ Hf1) as [E2 X2].
  rewrite (bind_ok _ _ _ _ _ E2).
  pose proof (extends_no_fault _ _ _ X2 Hf1) as Hf2.
  unfold generate_try, try_except, generate_body.
  unfold bind at 1. unfold collect_files. rewrite Hzip.
  destruct (io_run (SaveUpload (join temp_dir (filename f))) _ Hf2) as [E3 X3].
  rewrite (bind_ok _ _ _ _ _ E3).
  pose proof (extends_no_fault _ _ _ X3 Hf2) as Hf3.
  match goal with |- context [process_document repr ?p _ ?w3] =>
    destruct (process_document_typed repr p n w3 d Hf3) as
      (tname & records & w4 & En & E4 & T4 & Hlen);
      [cbn [json_file tick record_event]; apply Hj | exact Ht | ];
    pose proof (keeps_process_document repr p (Z.of_nat n) w3 _ _ E4) as K4
  end.
  rewrite E4.
  pose proof (frame_no_fault _ _ K4 Hf3) as Hf4.
  destruct (create_zip_archive_run
              (table_paths repr output_dir (schema_key_of d) (entity_key_of d) n tname)
              "generated_data.zip" w4 Hf4) as (w5 & E5 & T5).
  { exact (process_document_paths repr _ _ _ _ _ E4). }
  unfold bind at 1. rewrite E5.
  unfold bind at 1. rewrite shutil_rmtree_raises.
  unfold generate_handler, bind, print, ret.
  exists tname, records. eexists. split; [exact En | ]. split; [exact Hlen | ].
  split; [reflexivity | ].
  cbn [trace record_event]. rewrite T5, T4.
  destruct K4 as (C4 & _). rewrite C4.
  cbn [trace cwd tick record_event].
  rewrite <- !app_assoc. reflexivity.
Qed.

End HandlerExtras.

(** ** The documents of a container *)

Module ContainerFacts.
Import ExtraSpec.
Import Py Env PosixPath Extract App Spec SynthSpec DriverSpec.
Import SynthFacts DriverFacts FrameFacts ArchiveExtras HandlerExtras.




Section Runs.
Variable repr : pyval -> string.


End Runs.

End ContainerFacts.

Section ContainerClaim.
Import ExtraSpec.
Import Py Env PosixPath Extract App Spec SynthSpec DriverSpec Scenario.
Import SynthFacts DriverFacts FrameFacts ArchiveExtras HandlerExtras ContainerFacts.





End ContainerClaim.

(** ** Runs of the further facts *)

Module ExtraWitnesses.
Import Py Env PosixPath Extract App Spec SynthSpec DriverSpec Scenario.
Import ExtraSpec.
Import SynthFacts DriverFacts.
Import ExtractorExtras SynthExtras SynthExtras2 DocumentExtras ArchiveExtras
  PathFacts HandlerExtras.

Lemma record_has_the_fields_of_the_schema_witness :
  let record := [ (PStr "customer_id", PStr "1"); (PStr "name", PStr "aLwhSDoZ");
                  (PStr "operation", operation_value) ] in
  (unique_keys cust_items = true
   /\ generate_record 0 (PDict cust_items) world0
      = (Ok record, snd (generate_record 0 (PDict cust_items) world0)))
  /\ map fst record = map fst cust_items.
Proof.
  cbn zeta.
  assert (A : generate_record 0 (PDict cust_items) world0
              = (Ok [ (PStr "customer_id", PStr "1"); (PStr "name", PStr "aLwhSDoZ");
                      (PStr "operation", operation_value) ],
                 snd (generate_record 0 (PDict cust_items) world0))).
  { apply run_eta. vm_compute. reflexivity. }
  split; [split; [reflexivity | exact A] | ].
  exact (record_has_the_fields_of_the_schema 0 cust_items _ world0 _ eq_refl A).
Defined.

Lemma written_files_are_envelopes_witness :
  (forallb table_ok cust_tables = true /\ no_fault world0)
  /\ exists files evs w',
       generate_random_transaction repr0 (PDict cust_tables) (Z.of_nat 2)
         "/tmp/data" (PStr "Cust") (PStr "E1") world0 = (Ok files, w')
       /\ trace w' = (trace world0 ++ evs)%list
       /\ map fst (written evs) = files
       /\ Forall (table_file repr0 "/tmp/data" (PStr "Cust") (PStr "E1") 2 cust_tables)
            (written evs).
Proof.
  assert (F : no_fault world0) by (intros k _; reflexivity).
  split; [split; [reflexivity | exact F] | ].
  exact (written_files_are_envelopes repr0 cust_tables 2 "/tmp/data" (PStr "Cust")
           (PStr "E1") world0 eq_refl F).
Defined.

Lemma no_rounds_for_nonpositive_count_witness :
  (-3 <= 0 /\ forallb (fun item => is_pstr (fst item)) [(PStr "T", PInt 7)] = true
   /\ no_fault world0)
  /\ exists w',
       generate_random_transaction repr0 (PDict [(PStr "T", PInt 7)]) (-3)
         "/tmp/data" PNone PNone world0 = (Ok [], w')
       /\ trace w'
          = (trace world0 ++ Makedirs "/tmp/data"
               :: map (fun item => Makedirs (join "/tmp/data" (table_name_string item)))
                    [(PStr "T", PInt 7)])%list.
Proof.
  assert (F : no_fault world0) by (intros k _; reflexivity).
  split; [split; [lia | split; [reflexivity | exact F]] | ].
  apply (no_rounds_for_nonpositive_count repr0 [(PStr "T", PInt 7)] (-3) "/tmp/data"
           PNone PNone world0); [lia | reflexivity | exact F].
Defined.


Lemma same_keys_same_files_witness :
  (typed_document doc_customers = true /\ typed_document doc_customers_bare = true
   /\ table_name_of doc_customers = table_name_of doc_customers_bare
   /\ schema_key_of doc_customers = schema_key_of doc_customers_bare
   /\ entity_key_of doc_customers = entity_key_of doc_customers_bare)
  /\ exists files w1' w2',
       process_document repr0 "a.json" (Z.of_nat 2)
         (world_reading (PDict doc_customers)) = (Ok files, w1')
       /\ process_document repr0 "b.json" (Z.of_nat 2)
            (world_reading (PDict doc_customers_bare)) = (Ok files, w2')
       /\ map fst (written (skipn (List.length (trace (world_reading (PDict doc_customers))))
                              (trace w1'))) = files
       /\ map fst (written (skipn (List.length (trace (world_reading (PDict doc_customers_bare))))
                              (trace w2'))) = files.
Proof.
  split; [repeat split | ].
  apply (same_keys_same_files repr0 "a.json" "b.json" 2
           (world_reading (PDict doc_customers))
           (world_reading (PDict doc_customers_bare))
           doc_customers doc_customers_bare);
    try reflexivity; intros k _; reflexivity.
Defined.

Lemma absolute_schema_key_leaves_output_dir_witness :
  (no_fault (world_reading (PDict doc_absolute))
   /\ typed_document doc_absolute = true
   /\ dict_get doc_absolute (PStr "schemaKey") = Some (PStr "/srv/x")
   /\ startswith_sep "/srv/x" = true
   /\ under_output_dir "/srv/x" = false)
  /\ exists files evs w',
       process_document repr0 "x.json" (Z.of_nat 1) (world_reading (PDict doc_absolute))
       = (Ok files, w')
       /\ files = ["/srv/x_default_entity_file1.json"]
       /\ trace w'
          = (trace (world_reading (PDict doc_absolute))
             ++ Makedirs output_dir :: Makedirs "/srv/x" :: evs)%list
       /\ map fst (written evs) = files
       /\ Forall (fun file => under_output_dir file = false) files.
Proof.
  assert (F : no_fault (world_reading (PDict doc_absolute)))
    by (intros k _; reflexivity).
  split; [split; [exact F | repeat split] | ].
  destruct (absolute_schema_key_leaves_output_dir repr0 "x.json" 1
              (world_reading (PDict doc_absolute)) doc_absolute "/srv/x"
              F eq_refl eq_refl eq_refl eq_refl)
    as (files & evs & w' & E & P & T & Wr & Out).
  exists files, evs, w'. split; [exact E | ]. split; [exact P | ].
  split; [exact T | ]. split; [exact Wr | exact (Out eq_refl)].
Defined.

Lemma non_string_table_name_fails_in_synthesis_witness :
  (no_fault (world_reading (PDict doc_numbered))
   /\ document_ok doc_numbered = true
   /\ is_pstr (table_name_of doc_numbered) = false)
  /\ exists w',
       process_document repr0 "n.json" 4 (world_reading (PDict doc_numbered))
       = (Raise (JoinArgument (type_name (table_name_of doc_numbered))), w')
       /\ trace w'
          = (trace (world_reading (PDict doc_numbered)) ++ [Makedirs output_dir])%list.
Proof.
  assert (F : no_fault (world_reading (PDict doc_numbered)))
    by (intros k _; reflexivity).
  split; [split; [exact F | split; reflexivity] | ].
  exact (non_string_table_name_fails_in_synthesis repr0 "n.json" 4
           (world_reading (PDict doc_numbered)) doc_numbered F eq_refl eq_refl eq_refl).
Defined.

Lemma archive_of_materialized_files_witness :
  let files := ["/tmp/data/Cust/Cust_E1_file1.json";
                "/tmp/data/Cust/Cust_E1_file2.json"] in
  (no_fault world0 /\ forallb nonempty files = true)
  /\ exists w',
       create_zip_archive files "generated_data.zip" world0
       = (Ok (join "downloads" "generated_data.zip"), w')
       /\ trace w'
          = (trace world0
             ++ [Makedirs "downloads"; ZipOpen (join "downloads" "generated_data.zip")]
             ++ map (fun file => ZipWrite file (arcname_of (cwd world0) file)) files
             ++ [ZipClose (join "downloads" "generated_data.zip")])%list.
Proof.
  cbn zeta.
  assert (F : no_fault world0) by (intros k _; reflexivity).
  split; [split; [exact F | reflexivity] | ].
  exact (archive_of_materialized_files
           ["/tmp/data/Cust/Cust_E1_file1.json"; "/tmp/data/Cust/Cust_E1_file2.json"]
           "generated_data.zip" world0 F eq_refl).
Defined.

Lemma empty_path_aborts_the_archive_witness :
  (no_fault world0 /\ forallb nonempty ["/tmp/data/T/a.json"] = true)
  /\ exists w',
       create_zip_archive (["/tmp/data/T/a.json"] ++ "" :: ["/tmp/data/T/b.json"])
         "generated_data.zip" world0
       = (Raise (ValueError "no path specified"), w')
       /\ trace w'
          = (trace world0
             ++ [Makedirs "downloads"; ZipOpen (join "downloads" "generated_data.zip")]
             ++ map (fun file => ZipWrite file (arcname_of (cwd world0) file))
                  ["/tmp/data/T/a.json"]
             ++ [ZipClose (join "downloads" "generated_data.zip")])%list.
Proof.
  assert (F : no_fault world0) by (intros k _; reflexivity).
  split; [split; [exact F | reflexivity] | ].
  exact (empty_path_aborts_the_archive ["/tmp/data/T/a.json"] ["/tmp/data/T/b.json"]
           "generated_data.zip" world0 F eq_refl).
Defined.

Lemma container_upload_answers_name_error_witness :
  (schema_file request_container = Some (mkUpload "bundle.zip")
   /\ no_fault world_container)
  /\ exists w',
       generate repr0 request_container world_container
       = (Ok (ErrorOf (NameError "shutil")), w')
       /\ In (ZipClose "downloads/generated_data.zip") (trace w').
Proof.
  assert (F : no_fault world_container) by (intros k _; reflexivity).
  split; [split; [reflexivity | exact F] | ].
  exact (container_upload_answers_name_error repr0 request_container
           (mkUpload "bundle.zip") 1 world_container
           eq_refl eq_refl eq_refl eq_refl F).
Defined.

Lemma single_document_load_failure_witness :
  let f := mkUpload "bad.json" in
  let req := mkRequest (Some f) (Ok 3) in
  let saved := [Makedirs temp_dir; Makedirs output_dir;
                SaveUpload (join temp_dir "bad.json")] in
  let e := ValueError "utf-8" in
  (no_fault (world_raising JSONDecodeError)
   /\ (forall k, json_file (world_raising JSONDecodeError) k (join temp_dir "bad.json")
                 = Raise JSONDecodeError)
   /\ no_fault (world_raising e)
   /\ (forall k, json_file (world_raising e) k (join temp_dir "bad.json") = Raise e))
  /\ (exists w',
        generate repr0 req (world_raising JSONDecodeError) = (Ok InvalidJson, w')
        /\ trace w' = saved)
  /\ (exists w',
        generate repr0 req (world_raising e) = (Ok (ErrorOf e), w')
        /\ trace w' = (saved ++ [Print (Traceback e)])%list).
Proof.
  cbn zeta.
  assert (F : forall e, no_fault (world_raising e)) by (intros e k _; reflexivity).
  split; [split; [apply F | split; [intros k; reflexivity | split;
            [apply F | intros k; reflexivity]]] | ].
  split.
  - exact (single_document_load_failure repr0
             (mkRequest (Some (mkUpload "bad.json")) (Ok 3)) (mkUpload "bad.json") 3
             (world_raising JSONDecodeError) JSONDecodeError
             eq_refl eq_refl eq_refl eq_refl (F _) (fun k => eq_refl)).
  - exact (single_document_load_failure repr0
             (mkRequest (Some (mkUpload "bad.json")) (Ok 3)) (mkUpload "bad.json") 3
             (world_raising (ValueError "utf-8")) (ValueError "utf-8")
             eq_refl eq_refl eq_refl eq_refl (F _) (fun k => eq_refl)).
Defined.

Lemma single_document_not_a_mapping_witness :
  (no_fault (world_reading (PList []))
   /\ type_name (PList []) <> "dict")
  /\ exists w',
       generate repr0 request_single (world_reading (PList []))
       = (Ok (ErrorOf (AttributeError (type_name (PList [])) "get")), w')
       /\ trace w'
          = (trace (world_reading (PList []))
             ++ [Makedirs temp_dir; Makedirs output_dir;
                 SaveUpload (join temp_dir (filename (mkUpload "cust.json")));
                 Print (Traceback (AttributeError (type_name (PList [])) "get"))])%list.
Proof.
  assert (F : no_fault (world_reading (PList []))) by (intros k _; reflexivity).
  assert (N : type_name (PList []) <> "dict") by discriminate.
  split; [split; [exact F | exact N] | ].
  exact (single_document_not_a_mapping repr0 request_single (mkUpload "cust.json") 2
           (world_reading (PList [])) (PList [])
           eq_refl eq_refl eq_refl eq_refl F (fun k => eq_refl) N).
Defined.

Lemma errors_before_the_try_surface_witness :
  let bad_count := mkRequest (Some (mkUpload "cust.json")) (Raise (ValueError "count")) in
  generate repr0 bad_count world0 = (Raise (ValueError "count"), world0)
  /\ (io_fault world_read_only (calls world_read_only) = Some (EnvError "EROFS")
      /\ generate repr0 request_single world_read_only
         = (Raise (EnvError "EROFS"), tick world_read_only)).
Proof.
  cbn zeta. split.
  - exact (proj1 (errors_before_the_try_surface repr0
                    (mkRequest (Some (mkUpload "cust.json")) (Raise (ValueError "count")))
                    (mkUpload "cust.json") world0 (ValueError "count") eq_refl eq_refl)
             eq_refl).
  - split; [reflexivity | ].
    exact (proj2 (errors_before_the_try_surface repr0 request_single
                    (mkUpload "cust.json") world_read_only (EnvError "EROFS")
                    eq_refl eq_refl) 2 eq_refl eq_refl).
Defined.

Lemma single_typed_document_end_to_end_witness :
  (schema_file request_single = Some (mkUpload "cust.json")
   /\ endswith (lower "cust.json") ".zip" = false
   /\ form_count request_single = Ok (Z.of_nat 2)
   /\ no_fault world_single
   /\ typed_document doc_customers = true)
  /\ exists tname records w',
       table_name_of doc_customers = PStr tname
       /\ List.length records = 2%nat
       /\ generate repr0 request_single world_single
          = (Ok (ErrorOf (NameError "shutil")), w')
       /\ trace w'
          = (trace world_single
             ++ [Makedirs temp_dir; Makedirs output_dir;
                 SaveUpload (join temp_dir "cust.json"); Makedirs output_dir]
             ++ table_events repr0 output_dir (schema_key_of doc_customers)
                  (entity_key_of doc_customers) tname records
             ++ [Makedirs "downloads"; ZipOpen "downloads/generated_data.zip"]
             ++ map (fun file => ZipWrite file (arcname_of (cwd world_single) file))
                  (table_paths repr0 output_dir (schema_key_of doc_customers)
                     (entity_key_of doc_customers) 2 tname)
             ++ [ZipClose "downloads/generated_data.zip";
                 Print (Traceback (NameError "shutil"))])%list.
Proof.
  assert (F : no_fault world_single) by (intros k _; reflexivity).
  split; [repeat split; try reflexivity; exact F | ].
  exact (single_typed_document_end_to_end repr0 request_single (mkUpload "cust.json")
           2 world_single doc_customers eq_refl eq_refl eq_refl eq_refl F
           (fun k => eq_refl) eq_refl).
Defined.

End ExtraWitnesses.
